(** * bar-database: the table pipeline of [build_database.py]

    A shallow embedding of the functions of [build_database.py] and of the
    pandas operations they call.  A data frame is a row-major table with an
    index; the functions of the script run in a small state-and-exception
    monad over a store of data-frame objects, because [create_index] works
    in place on the object it is handed. *)

From Stdlib Require Import ZArith List String Ascii Bool Lia SpecFloat.
From Stdlib Require Import DecimalString DecimalPos.
From Stdlib Require OrderedTypeEx.
From stdpp Require Import base list strings sorting.

Open Scope string_scope.
Open Scope list_scope.
Open Scope Z_scope.

(** ** Python values held in the cells of a data frame *)

(** [VNull] is the missing-value marker (NaN) that joins and reindexing put
    into a cell; a float is an IEEE binary64 number. *)
Inductive value :=
  | VNull
  | VInt (z : Z)
  | VFloat (f : spec_float)
  | VStr (s : string).

#[global] Instance spec_float_eq_dec : EqDecision spec_float.
Proof. solve_decision. Defined.

#[global] Instance value_eq_dec : EqDecision value.
Proof. solve_decision. Defined.

(** ** Exceptions and results *)

(** The Python exception classes the modelled code can raise.  [InvalidRef]
    is not a Python exception: it marks a reference outside the store, which
    no run of the script produces. *)
Inductive exn :=
  | KeyError
  | ValueError
  | AttributeError
  | TypeError
  | OverflowError
  | InvalidRef.

Inductive result (A : Type) :=
  | OK (a : A)
  | Raise (e : exn).

Arguments OK {A} a.
Arguments Raise {A} e.

Definition rbind {A B} (r : result A) (k : A -> result B) : result B :=
  match r with
  | OK a => k a
  | Raise e => Raise e
  end.

Definition rmap {A B} (f : A -> B) (r : result A) : result B :=
  rbind r (fun a => OK (f a)).

(** [mapM f l] runs [f] over [l] from left to right and stops at the first
    exception. *)
Fixpoint mapM {A B} (f : A -> result B) (l : list A) : result (list B) :=
  match l with
  | [] => OK []
  | x :: l' =>
      rbind (f x) (fun y => rbind (mapM f l') (fun ys => OK (y :: ys)))
  end.

(** ** Data frames *)

(** A frame is its column names and its rows, every row carrying its index
    label. *)
Record DataFrame := mkDF {
  index_name : option string;
  columns : list string;
  rows : list (Z * list value)
}.

(** [df.index] *)
Definition index (df : DataFrame) : list Z := map fst (rows df).

(** The cells, row by row. *)
Definition data (df : DataFrame) : list (list value) := map snd (rows df).

(** [len(df)] *)
Definition len (df : DataFrame) : nat := length (rows df).

(** A frame is well formed when every row has one cell per column and no
    column name occurs twice. *)
Definition wf_df (df : DataFrame) : Prop :=
  Forall (fun p => length p.2 = length (columns df)) (rows df) /\
  NoDup (columns df).

(** Rows labelled k, k+1, ...; with k = 0 this is [RangeIndex]. *)
Fixpoint label_from (k : Z) (rs : list (list value)) : list (Z * list value) :=
  match rs with
  | [] => []
  | r :: rs' => (k, r) :: label_from (k + 1) rs'
  end.

(** Position of a column name in a column list. *)
Fixpoint col_pos (c : string) (cols : list string) : option nat :=
  match cols with
  | [] => None
  | c' :: cols' =>
      if bool_decide (c = c') then Some 0%nat
      else option_map S (col_pos c cols')
  end.

Definition cell (i : nat) (r : list value) : value := nth i r VNull.

(** [df[c]] as the list of its cells; [KeyError] when there is no such
    column. *)
Definition get_column (df : DataFrame) (c : string) : result (list value) :=
  match col_pos c (columns df) with
  | Some i => OK (map (cell i) (data df))
  | None => Raise KeyError
  end.

(** *** Index operations *)

(** [df.reset_index(drop=True)] *)
Definition reset_index_drop (df : DataFrame) : DataFrame :=
  {| index_name := None;
     columns := columns df;
     rows := label_from 0 (data df) |}.

(** [df.index += k] *)
Definition index_add (k : Z) (df : DataFrame) : DataFrame :=
  {| index_name := index_name df;
     columns := columns df;
     rows := map (fun p => (p.1 + k, p.2)) (rows df) |}.

(** [df.index.name = name] *)
Definition set_index_name (name : string) (df : DataFrame) : DataFrame :=
  {| index_name := Some name;
     columns := columns df;
     rows := rows df |}.

(** The name [reset_index] gives the column made from the index. *)
Definition index_column_name (df : DataFrame) : string :=
  match index_name df with
  | Some n => n
  | None => if bool_decide ("index" ∈ columns df) then "level_0" else "index"
  end.

(** [df.reset_index()]: the index becomes the first column and the rows are
    labelled 0 .. n-1 again.  pandas refuses to insert a column whose name is
    already there. *)
Definition reset_index (df : DataFrame) : result DataFrame :=
  let name := index_column_name df in
  if bool_decide (name ∈ columns df) then Raise ValueError
  else OK {| index_name := None;
             columns := name :: columns df;
             rows := label_from 0 (map (fun p => VInt p.1 :: p.2) (rows df)) |}.

(** ** The object store and the monad of the script *)

(** Python variables hold references to data-frame objects. *)
Abbreviation ref := nat.
Abbreviation store := (list DataFrame).

Definition M (A : Type) : Type := store -> result (A * store).

Definition ret {A} (a : A) : M A := fun st => OK (a, st).

Definition bind {A B} (m : M A) (k : A -> M B) : M B :=
  fun st =>
    match m st with
    | OK (a, st') => k a st'
    | Raise e => Raise e
    end.

Declare Scope py_scope.
Delimit Scope py_scope with py.
Notation "x <- c ;; k" := (bind c (fun x => k))
  (at level 100, c at next level, right associativity) : py_scope.
Notation "c ;;; k" := (bind c (fun _ => k))
  (at level 100, right associativity) : py_scope.
Open Scope py_scope.

(** A pandas call that returns a new frame which the script binds to a
    variable: the frame is allocated at the end of the store.  A frame that
    is only handed on to the next pandas call stays a value. *)
Definition new (df : DataFrame) : M ref :=
  fun st => OK (length st, st ++ [df]).

(** Reading the object behind a reference. *)
Definition load (r : ref) : M DataFrame :=
  fun st =>
    match st !! r with
    | Some df => OK (df, st)
    | None => Raise InvalidRef
    end.

(** Lifting a pandas result into the monad. *)
Definition lift {A} (r : result A) : M A :=
  fun st =>
    match r with
    | OK a => OK (a, st)
    | Raise e => Raise e
    end.

(** A pandas call made with [inplace=True], or an assignment to an attribute
    or a column of the object: the object behind [r] is replaced by [f] of
    it. *)
Definition inplace (r : ref) (f : DataFrame -> result DataFrame) : M unit :=
  fun st =>
    match st !! r with
    | Some df =>
        match f df with
        | OK df' => OK (tt, <[r := df']> st)
        | Raise e => Raise e
        end
    | None => Raise InvalidRef
    end.

(** ** [create_index] (lines 10-26) *)

Definition create_index (df : ref) (name : string) : M ref :=
  inplace df (fun d => OK (reset_index_drop d)) ;;;
  inplace df (fun d => OK (index_add 1 d)) ;;;
  inplace df (fun d => OK (set_index_name name d)) ;;;
  inplace df reset_index ;;;
  ret df.

(** ** Strings *)

(** [str.lower] on the ASCII letters; a string is its sequence of UTF-8
    bytes, and bytes above 127 are left as they are. *)
Definition lower_ascii (c : ascii) : ascii :=
  let n := nat_of_ascii c in
  if ((65 <=? n) && (n <=? 90))%nat then ascii_of_nat (n + 32) else c.

Fixpoint lower (s : string) : string :=
  match s with
  | EmptyString => EmptyString
  | String c s' => String (lower_ascii c) (lower s')
  end.

(** [lambda x: x.lower()]: only a [str] has the method. *)
Definition py_lower (v : value) : result value :=
  match v with
  | VStr s => OK (VStr (lower s))
  | _ => Raise AttributeError
  end.

(** ** Lists without repetition, first occurrence kept *)

Fixpoint dedup_by {A B} `{EqDecision B} (f : A -> B) (l : list A) : list A :=
  match l with
  | [] => []
  | x :: l' => x :: filter (fun y => f y <> f x) (dedup_by f l')
  end.

Definition dedup {A} `{EqDecision A} (l : list A) : list A := dedup_by id l.

(** ** pandas operations that build or reshape a frame *)

(** The values of a catalog entry are strings, numbers or null. *)
Inductive json :=
  | JNull
  | JNum (z : Z)
  | JStr (s : string).

(** A JSON object as [json.loads] returns it: keys in document order. *)
Definition json_object := list (string * json).

Definition json_value (j : json) : value :=
  match j with
  | JNull => VNull
  | JNum z => VInt z
  | JStr s => VStr s
  end.

Fixpoint assoc {A} (k : string) (l : list (string * A)) : option A :=
  match l with
  | [] => None
  | (k', a) :: l' => if bool_decide (k = k') then Some a else assoc k l'
  end.

(** The cell an entry gives to column [c]: null when it has no such key. *)
Definition entry_cell (e : json_object) (c : string) : value :=
  match assoc c e with
  | Some j => json_value j
  | None => VNull
  end.

(** [pd.json_normalize(entries)]: one row per entry, one column per key met,
    a missing key giving a null cell. *)
Definition json_normalize (entries : list json_object) : DataFrame :=
  let cols := dedup (flat_map (map fst) entries) in
  {| index_name := None;
     columns := cols;
     rows := label_from 0 (map (fun e => map (entry_cell e) cols) entries) |}.

(** [df[cols]] with a list of names: the named columns in the order asked
    for; [KeyError] when one is missing. *)
Definition project (cols : list string) (df : DataFrame) : result DataFrame :=
  rbind (mapM (fun c => match col_pos c (columns df) with
                        | Some i => OK i
                        | None => Raise KeyError
                        end) cols)
        (fun ps =>
           OK {| index_name := index_name df;
                 columns := cols;
                 rows := map (fun p => (p.1, map (fun i => cell i p.2) ps))
                             (rows df) |}).

(** [df.applymap(f)] *)
Definition applymap (f : value -> result value) (df : DataFrame)
  : result DataFrame :=
  rbind (mapM (fun p => rmap (pair p.1) (mapM f p.2)) (rows df))
        (fun rs =>
           OK {| index_name := index_name df;
                 columns := columns df;
                 rows := rs |}).

(** [df.columns = names]: as many names as there are columns. *)
Definition set_columns (names : list string) (df : DataFrame)
  : result DataFrame :=
  if bool_decide (length names = length (columns df)) then
    OK {| index_name := index_name df;
          columns := names;
          rows := rows df |}
  else Raise ValueError.

(** A row of a frame with columns [from], laid out on the columns [to]. *)
Definition reindex (from to : list string) (r : list value) : list value :=
  map (fun c => match col_pos c from with
                | Some i => cell i r
                | None => VNull
                end) to.

(** The name of a concatenated index: the common name, if there is one. *)
Definition common_name (dfs : list DataFrame) : option string :=
  match dfs with
  | [] => None
  | d :: ds =>
      if forallb (fun d' => bool_decide (index_name d' = index_name d)) ds
      then index_name d else None
  end.

(** [pd.concat(dfs)]: the rows of the frames one after the other, with
    their index labels, on the union of the columns.  pandas refuses an
    empty list ("No objects to concatenate"). *)
Definition pd_concat (dfs : list DataFrame) : result DataFrame :=
  match dfs with
  | [] => Raise ValueError
  | _ =>
      let cols := dedup (flat_map columns dfs) in
      OK {| index_name := common_name dfs;
            columns := cols;
            rows := flat_map
                      (fun d => map (fun p => (p.1, reindex (columns d) cols p.2))
                                    (rows d))
                      dfs |}
  end.

(** [df.drop_duplicates()]: a row equal to an earlier one is dropped; the
    rows kept keep their labels. *)
Definition drop_duplicates (df : DataFrame) : DataFrame :=
  {| index_name := index_name df;
     columns := columns df;
     rows := dedup_by snd (rows df) |}.

(** *** Sorting *)

Definition isna (v : value) : bool :=
  match v with
  | VNull | VFloat S754_nan => true
  | _ => false
  end.

Definition is_str (v : value) : bool :=
  match v with VStr _ => true | _ => false end.

Definition is_num (v : value) : bool :=
  match v with VInt _ | VFloat _ => true | _ => false end.

(** A number of a numeric column as a binary64 float. *)
Definition as_float (v : value) : spec_float :=
  match v with
  | VInt z => binary_normalize 53 1024 z 0 false
  | VFloat f => f
  | _ => S754_nan
  end.

(** [a <= b] on sort keys: strings by their bytes (which is the order of
    their code points), numbers by value, missing values last. *)
Definition key_leb (a b : value) : bool :=
  if isna b then true
  else if isna a then false
  else match a, b with
       | VStr s, VStr t => String.leb s t
       | VInt x, VInt y => Z.leb x y
       | VStr _, _ | _, VStr _ => false
       | _, _ => SFleb (as_float a) (as_float b)
       end.

(** Row [p] may stay in front of row [q]: its key is not above the key of
    [q]. *)
Definition row_le (i : nat) (p q : Z * list value) : Prop :=
  key_leb (cell i p.2) (cell i q.2) || negb (key_leb (cell i q.2) (cell i p.2)).

#[global] Instance row_le_dec i p q : Decision (row_le i p q).
Proof. unfold row_le. apply _. Defined.

(** A column can be sorted when its values are comparable with one another:
    all strings or all numbers, missing values apart. *)
Definition sortable (keys : list value) : bool :=
  forallb (fun v => isna v || is_str v) keys ||
  forallb (fun v => isna v || is_num v) keys.

(** [df.sort_values(by=c)]: the rows in ascending order of column [c], each
    with its label.  The order in which rows of equal key come out is not
    fixed by pandas' default algorithm, nor is it meant here; the script
    sorts a column without repetitions. *)
Definition sort_values (by_ : string) (df : DataFrame) : result DataFrame :=
  match col_pos by_ (columns df) with
  | Some i =>
      if sortable (map (cell i) (data df)) then
        OK {| index_name := index_name df;
              columns := columns df;
              rows := merge_sort (row_le i) (rows df) |}
      else Raise TypeError
  | None => Raise KeyError
  end.

(** *** Joins *)

(** The part of the right frame that goes into the result: when the key has
    the same name on both sides, the right key column (at position [j]) is
    left out, the key being kept once. *)
Definition merge_keep {A} (left_on right_on : string) (j : nat) (l : list A)
  : list A :=
  if bool_decide (left_on = right_on) then delete j l else l.

(** The column names of the result: a name that both sides have, the
    common key apart, gets the suffix [_x] on the left and [_y] on the
    right. *)
Definition merge_columns (lcols rcols : list string)
    (left_on right_on : string) (j : nat) : list string :=
  let kept := merge_keep left_on right_on j rcols in
  let shared := filter (fun c => c ∈ kept) lcols in
  map (fun c => if bool_decide (c = left_on /\ left_on = right_on) then c
                else if bool_decide (c ∈ shared) then c +:+ "_x" else c)
      lcols
  ++ map (fun c => if bool_decide (c ∈ shared) then c +:+ "_y" else c) kept.

(** The rows one left row [l] gives: one for each right row of the same
    key, in the order of the right frame, or one with [width] null cells
    when there is none. *)
Definition join_row (left_on right_on : string) (i j width : nat)
    (right_rows : list (list value)) (l : list value) : list (list value) :=
  match filter (fun r => cell i l = cell j r) right_rows with
  | [] => [l ++ replicate width VNull]
  | ms => map (fun r => l ++ merge_keep left_on right_on j r) ms
  end.

(** [left.merge(right, left_on=.., right_on=.., how="left")]: every left row
    in turn, joined with the right rows of the same key.  Keys are compared
    as values; the test pandas makes on the types of the two key columns is
    left out, the tables joined by the script having strings on both
    sides. *)
Definition merge_left (left right : DataFrame) (left_on right_on : string)
  : result DataFrame :=
  match col_pos left_on (columns left), col_pos right_on (columns right) with
  | Some i, Some j =>
      let width := length (merge_keep left_on right_on j (columns right)) in
      OK {| index_name := None;
            columns := merge_columns (columns left) (columns right)
                                     left_on right_on j;
            rows := label_from 0
                      (flat_map (join_row left_on right_on i j width (data right))
                                (data left)) |}
  | _, _ => Raise KeyError
  end.

(** [df[c] = df[c].apply(f)] *)
Definition apply_column (c : string) (f : value -> result value)
    (df : DataFrame) : result DataFrame :=
  match col_pos c (columns df) with
  | Some i =>
      rbind (mapM (fun p => rmap (fun v => (p.1, <[i := v]> p.2))
                                 (f (cell i p.2)))
                  (rows df))
            (fun rs =>
               OK {| index_name := index_name df;
                     columns := columns df;
                     rows := rs |})
  | None => Raise KeyError
  end.

(** [df.rename(columns={old: new})]; a name that is not there is ignored. *)
Definition rename_column (old new : string) (df : DataFrame) : DataFrame :=
  {| index_name := index_name df;
     columns := map (fun c => if bool_decide (c = old) then new else c)
                    (columns df);
     rows := rows df |}.

(** ** Python string functions of the inventory builder *)

(** [x.split(" ")[0]]: up to the first space. *)
Fixpoint first_token (s : string) : string :=
  match s with
  | EmptyString => EmptyString
  | String c s' =>
      if bool_decide (c = " "%char) then EmptyString
      else String c (first_token s')
  end.

Definition is_space (c : ascii) : bool :=
  let n := nat_of_ascii c in
  ((n =? 32) || ((9 <=? n) && (n <=? 13)))%nat.

Definition is_digit (c : ascii) : bool :=
  let n := nat_of_ascii c in
  ((48 <=? n) && (n <=? 57))%nat.

Definition digit_value (c : ascii) : Z := Z.of_nat (nat_of_ascii c) - 48.

Fixpoint lstrip (s : string) : string :=
  match s with
  | EmptyString => EmptyString
  | String c s' => if is_space c then lstrip s' else s
  end.

Fixpoint rstrip (s : string) : string :=
  match s with
  | EmptyString => EmptyString
  | String c s' =>
      match rstrip s' with
      | EmptyString => if is_space c then EmptyString else String c EmptyString
      | r => String c r
      end
  end.

(** The digits of an integer literal, [acc] being the value read so far and
    [after_digit] telling whether the last character was a digit: an
    underscore may only stand between two digits. *)
Fixpoint parse_digits (s : string) (acc : Z) (after_digit : bool) : option Z :=
  match s with
  | EmptyString => if after_digit then Some acc else None
  | String c s' =>
      if is_digit c then parse_digits s' (10 * acc + digit_value c) true
      else if bool_decide (c = "_"%char) && after_digit
           then parse_digits s' acc false
           else None
  end.

(** [int(s)] for a string: white space around, a sign, decimal digits. *)
Definition int_of_string (s : string) : result Z :=
  let t := rstrip (lstrip s) in
  let r := match t with
           | String "+" t' => parse_digits t' 0 false
           | String "-" t' => option_map Z.opp (parse_digits t' 0 false)
           | _ => parse_digits t 0 false
           end in
  match r with
  | Some z => OK z
  | None => Raise ValueError
  end.

(** [lambda x: int(x.split(" ")[0])] *)
Definition parse_stock (x : value) : result value :=
  match x with
  | VStr s => rmap VInt (int_of_string (first_token s))
  | _ => Raise AttributeError
  end.

(** [s.replace(old, new)], every occurrence from left to right; [skip]
    counts the characters of a replaced occurrence still to pass over. *)
Fixpoint replace_from (old new : string) (skip : nat) (s : string) : string :=
  match s with
  | EmptyString => EmptyString
  | String c s' =>
      match skip with
      | S k => replace_from old new k s'
      | O =>
          if String.prefix old s
          then new +:+ replace_from old new (String.length old - 1) s'
          else String c (replace_from old new 0 s')
      end
  end.

Fixpoint interleave (new s : string) : string :=
  match s with
  | EmptyString => EmptyString
  | String c s' => String c (new +:+ interleave new s')
  end.

Definition replace (old new s : string) : string :=
  match old with
  | EmptyString => new +:+ interleave new s
  | _ => replace_from old new 0 s
  end.

(** [lambda x: x.replace("coper mug", "copper mug")] *)
Definition fix_glass_type (x : value) : result value :=
  match x with
  | VStr s => OK (VStr (replace "coper mug" "copper mug" s))
  | _ => Raise AttributeError
  end.

(** ** [get_drinks_data] (lines 29-48) *)

(** The catalog, as far as the script sees it: for a URL, the [drinks] field
    of the JSON document, [None] when it is null. *)
Definition catalog := string -> option (list json_object).

Definition get_drinks_data (http : catalog) (url : string) : M (option ref) :=
  match http url with
  | Some drinks =>
      d <- lift (project ["idDrink"; "strDrink"; "strGlass"]
                         (json_normalize drinks)) ;;
      d <- lift (applymap py_lower d) ;;
      df <- new d ;;
      inplace df (set_columns ["cocktail_db_id"; "drink_name"; "glass_name"]) ;;;
      ret (Some df)
  | None => ret None
  end.

(** ** [build_drinks_dataframe] (lines 51-71) *)

(** [string.ascii_lowercase], letter by letter. *)
Definition ascii_lowercase : list string :=
  ["a"; "b"; "c"; "d"; "e"; "f"; "g"; "h"; "i"; "j"; "k"; "l"; "m";
   "n"; "o"; "p"; "q"; "r"; "s"; "t"; "u"; "v"; "w"; "x"; "y"; "z"].

Definition search_url (letter : string) : string :=
  "https://www.thecocktaildb.com/api/json/v1/1/search.php?f=" +:+ letter.

(** The loop of lines 60-65 over the letters still to do, [df_list] being
    the list built so far. *)
Fixpoint fetch_letters (http : catalog) (letters : list string)
    (df_list : list ref) : M (list ref) :=
  match letters with
  | [] => ret df_list
  | letter :: letters' =>
      df <- get_drinks_data http (search_url letter) ;;
      fetch_letters http letters'
        (match df with
         | Some r => df_list ++ [r]
         | None => df_list
         end)
  end.

(** The frames behind a Python list of references. *)
Definition load_all (df_list : list ref) : M (list DataFrame) :=
  fun st =>
    match mapM (fun r => match st !! r with
                         | Some d => OK d
                         | None => Raise InvalidRef
                         end) df_list with
    | OK dfs => OK (dfs, st)
    | Raise e => Raise e
    end.

(** [pd.concat(df_list)] *)
Definition concat (df_list : list ref) : M ref :=
  dfs <- load_all df_list ;;
  d <- lift (pd_concat dfs) ;;
  new d.

Definition build_drinks_dataframe (http : catalog) : M ref :=
  df_list <- fetch_letters http ascii_lowercase [] ;;
  df_drinks <- concat df_list ;;
  df_drinks <- create_index df_drinks "drink_id" ;;
  ret df_drinks.

(** ** [build_glasses_dataframe] (lines 74-89) *)

Definition build_glasses_dataframe (df_drinks : ref) : M ref :=
  d <- load df_drinks ;;
  d <- lift (project ["glass_name"] d) ;;
  df_glasses <- new d ;;
  inplace df_glasses (fun d => OK (drop_duplicates d)) ;;;
  inplace df_glasses (sort_values "glass_name") ;;;
  df_glasses <- create_index df_glasses "glass_id" ;;
  ret df_glasses.

(** ** [build_bars_dataframe] (lines 92-102) *)

Definition bars_data : list (list value) :=
  [[VInt 1; VStr "budapest"]; [VInt 2; VStr "new york"]; [VInt 3; VStr "london"]].

Definition build_bars_dataframe : M ref :=
  df_bars <- new {| index_name := None;
                    columns := ["bar_id"; "location"];
                    rows := label_from 0 bars_data |} ;;
  ret df_bars.

(** ** [build_inventory_dataframe] (lines 105-134) *)

(** [left.merge(right, ..., how="left")] on two objects of the store. *)
Definition merge (left right : ref) (left_on right_on : string) : M ref :=
  l <- load left ;;
  r <- load right ;;
  d <- lift (merge_left l r left_on right_on) ;;
  new d.

(** [csv] is the frame [pd.read_csv(raw_csv_path)] returns. *)
Definition build_inventory_dataframe (csv : DataFrame) (df_bars df_glasses : ref)
  : M ref :=
  df_inventory <- new csv ;;
  inplace df_inventory (apply_column "stock" parse_stock) ;;;
  inplace df_inventory (apply_column "glass_type" fix_glass_type) ;;;
  df_inventory <- merge df_inventory df_bars "bar" "location" ;;
  df_inventory <- merge df_inventory df_glasses "glass_type" "glass_name" ;;
  inplace df_inventory
    (fun d => OK (rename_column "stock" "number_in_stock" d)) ;;;
  df_inventory <- create_index df_inventory "inventory_id" ;;
  ret df_inventory.

(** ** [build_orders_dataframe] (lines 172-196) *)

(** The columns [clean_raw_orders] (lines 156-167) leaves in a cleaned
    order set. *)
Definition order_columns : list string :=
  ["order_datetime"; "drink_name"; "order_amount"; "location"].

(** [df_drinks] and [df_bars] are the module-level variables of the script,
    which the function reads without having them as parameters. *)
Definition build_orders_dataframe (df_drinks df_bars : ref)
    (df_budapest df_london df_ny : ref) : M ref :=
  df_orders <- concat [df_budapest; df_london; df_ny] ;;
  df_orders <- merge df_orders df_drinks "drink_name" "drink_name" ;;
  df_orders <- merge df_orders df_bars "location" "location" ;;
  df_orders <- create_index df_orders "order_id" ;;
  ret df_orders.

(** ** [clean_dataframe] (lines 220-237) *)

(** The Python types used as data types in the data maps. *)
Inductive dtype := Int | Str | Float.

Record DataMap := mkMap {
  datatypes : list (string * dtype);
  index_column : string
}.

Definition int64_min : Z := - 2 ^ 63.
Definition int64_max : Z := 2 ^ 63 - 1.
Definition in_int64 (z : Z) : bool := (int64_min <=? z) && (z <=? int64_max).

(** The integer part of a float, [None] for an infinity or a NaN. *)
Definition trunc_float (f : spec_float) : option Z :=
  match f with
  | S754_zero _ => Some 0
  | S754_finite s m e =>
      let a := Z.shiftl (Zpos m) e in
      Some (if s then - a else a)
  | _ => None
  end.

(** [str(z)] *)
Definition string_of_Z (z : Z) : string := NilZero.string_of_int (Z.to_int z).

Section Astype.

(** Reading and printing a float in decimal are taken as given:
    [float(s)], [None] when [s] is no float literal, and [str(f)]. *)
Variable float_of_string : string -> option spec_float.
Variable string_of_float : spec_float -> string.

(** What [Series.astype(t)] makes of one cell.  Integer columns are
    64-bit; a finite float too large for them is cast to the smallest
    64-bit integer, as the C cast does on x86-64. *)
Definition astype (t : dtype) (v : value) : result value :=
  match t with
  | Int =>
      match v with
      | VInt z => if in_int64 z then OK (VInt z) else Raise OverflowError
      | VFloat f =>
          match trunc_float f with
          | Some z => OK (VInt (if in_int64 z then z else int64_min))
          | None => Raise ValueError
          end
      | VStr s =>
          rbind (int_of_string s)
                (fun z => if in_int64 z then OK (VInt z)
                          else Raise OverflowError)
      | VNull => Raise ValueError
      end
  | Str =>
      OK (VStr match v with
               | VStr s => s
               | VInt z => string_of_Z z
               | VFloat f => string_of_float f
               | VNull => "nan"
               end)
  | Float =>
      match v with
      | VInt z =>
          match binary_normalize 53 1024 z 0 false with
          | S754_infinity _ => Raise OverflowError
          | f => OK (VFloat f)
          end
      | VFloat f => OK (VFloat f)
      | VStr s =>
          match float_of_string s with
          | Some f => OK (VFloat f)
          | None => Raise ValueError
          end
      | VNull => OK VNull
      end
  end.

(** The loop of lines 233-235 over the columns still to cast. *)
Fixpoint cast_columns (df : ref) (data_map : DataMap) (cols : list string)
  : M unit :=
  match cols with
  | [] => ret tt
  | column :: cols' =>
      match assoc column (datatypes data_map) with
      | Some datatype =>
          inplace df (apply_column column (astype datatype)) ;;;
          cast_columns df data_map cols'
      | None => lift (Raise KeyError)
      end
  end.

Definition clean_dataframe (df : ref) (data_map : DataMap) : M ref :=
  let cols := map fst (datatypes data_map) in
  d <- load df ;;
  d <- lift (project cols d) ;;
  df <- new d ;;
  cast_columns df data_map cols ;;;
  ret df.

End Astype.

(** The data maps of lines 255-287. *)
Definition DRINKS_MAP : DataMap :=
  {| datatypes := [("drink_id", Int); ("drink_name", Str); ("glass_id", Int);
                   ("cocktail_db_id", Int)];
     index_column := "drink_id" |}.

Definition GLASSES_MAP : DataMap :=
  {| datatypes := [("glass_id", Int); ("glass_name", Str)];
     index_column := "glass_id" |}.

Definition BARS_MAP : DataMap :=
  {| datatypes := [("bar_id", Int); ("location", Str)];
     index_column := "bar_id" |}.

Definition INVENTORY_MAP : DataMap :=
  {| datatypes := [("inventory_id", Int); ("glass_id", Int);
                   ("number_in_stock", Int); ("bar_id", Int)];
     index_column := "inventory_id" |}.

Definition ORDERS_MAP : DataMap :=
  {| datatypes := [("order_id", Int); ("order_datetime", Str);
                   ("drink_id", Int); ("bar_id", Int); ("order_amount", Float)];
     index_column := "order_id" |}.

(** ** [add_glass_id_to_drinks_dataframe] (lines 199-217) *)

(** [df.drop(columns=c, axis=1)]: the column and its cells are taken out;
    [KeyError] when there is no such column. *)
Definition drop_column (c : string) (df : DataFrame) : result DataFrame :=
  match col_pos c (columns df) with
  | Some i =>
      OK {| index_name := index_name df;
            columns := delete i (columns df);
            rows := map (fun p => (p.1, delete i p.2)) (rows df) |}
  | None => Raise KeyError
  end.

Definition add_glass_id_to_drinks_dataframe (df_drinks df_glasses : ref)
  : M ref :=
  df_drinks <- merge df_drinks df_glasses "glass_name" "glass_name" ;;
  inplace df_drinks (drop_column "glass_name") ;;;
  ret df_drinks.

(** ** [clean_raw_orders] (lines 137-169) *)

(** [df[c] = v] with one value for every row: the cells of the column are
    overwritten, or the column is added at the end. *)
Definition assign_column (c : string) (v : value) (df : DataFrame) : DataFrame :=
  match col_pos c (columns df) with
  | Some i =>
      {| index_name := index_name df;
         columns := columns df;
         rows := map (fun p => (p.1, <[i := v]> p.2)) (rows df) |}
  | None =>
      {| index_name := index_name df;
         columns := columns df ++ [c];
         rows := map (fun p => (p.1, p.2 ++ [v])) (rows df) |}
  end.

(** [column_names] of line 156. *)
Definition column_names : list string :=
  ["index"; "order_datetime"; "drink_name"; "order_amount"].

Section OrdersCleaning.

(** Reading a date and time in a given format and printing it as
    ["%Y-%m-%d %H:%M:%S"] is taken as given: [reformat fmt s] is the text
    printed, [None] when [s] does not have the format [fmt].  So are the
    decimal reading and printing of floats. *)
Variable reformat : string -> string -> option string.
Variable float_of_string : string -> option spec_float.
Variable string_of_float : spec_float -> string.

(** [lambda x: datetime.strptime(x, fmt).strftime("%Y-%m-%d %H:%M:%S")];
    [strptime] takes a [str] only. *)
Definition normalize_datetime (fmt : string) (x : value) : result value :=
  match x with
  | VStr s =>
      match reformat fmt s with
      | Some t => OK (VStr t)
      | None => Raise ValueError
      end
  | _ => Raise TypeError
  end.

(** [csv] is the frame [pd.read_csv(raw_csv_path, header=header,
    sep=seperator, names=column_names)] returns. *)
Definition clean_raw_orders (csv : DataFrame) (datetime_format location : string)
  : M ref :=
  df <- new csv ;;
  inplace df (drop_column "index") ;;;
  inplace df (apply_column "order_datetime"
                (normalize_datetime datetime_format)) ;;;
  inplace df (apply_column "drink_name" py_lower) ;;;
  inplace df (apply_column "order_amount"
                (astype float_of_string string_of_float Float)) ;;;
  inplace df (fun d => OK (assign_column "location" (VStr location) d)) ;;;
  ret df.

End OrdersCleaning.

(** ** The script (lines 289-322) *)

Section Script.

(** The catalog, the frames [pd.read_csv] returns for the four files, and
    the reading and printing of dates and floats are what the script takes
    from outside. *)
Variable http : catalog.
Variable reformat : string -> string -> option string.
Variable float_of_string : string -> option spec_float.
Variable string_of_float : spec_float -> string.
Variables inventory_csv budapest_csv london_csv ny_csv : DataFrame.

(** The five tables handed to the loader, in the order of lines 336-340. *)
Record tables := mkTables {
  t_glasses : ref;
  t_bars : ref;
  t_drinks : ref;
  t_inventory : ref;
  t_orders : ref
}.

(** Lines 290-322.  [build_orders_dataframe] reads the globals [df_drinks]
    and [df_bars]; at line 314 [df_drinks] is still the table without
    [glass_id]. *)
Definition main : M tables :=
  df_drinks <- build_drinks_dataframe http ;;
  df_glasses <- build_glasses_dataframe df_drinks ;;
  df_bars <- build_bars_dataframe ;;
  df_inventory <- build_inventory_dataframe inventory_csv df_bars df_glasses ;;
  df_budapest <- clean_raw_orders reformat float_of_string string_of_float
                   budapest_csv "%Y-%m-%d %H:%M:%S" "budapest" ;;
  df_london <- clean_raw_orders reformat float_of_string string_of_float
                 london_csv "%Y-%m-%d %H:%M:%S" "london" ;;
  df_ny <- clean_raw_orders reformat float_of_string string_of_float
             ny_csv "%m-%d-%Y %H:%M" "new york" ;;
  df_orders <- build_orders_dataframe df_drinks df_bars
                 df_budapest df_london df_ny ;;
  df_drinks <- add_glass_id_to_drinks_dataframe df_drinks df_glasses ;;
  df_drinks <- clean_dataframe float_of_string string_of_float
                 df_drinks DRINKS_MAP ;;
  df_orders <- clean_dataframe float_of_string string_of_float
                 df_orders ORDERS_MAP ;;
  df_glasses <- clean_dataframe float_of_string string_of_float
                  df_glasses GLASSES_MAP ;;
  df_inventory <- clean_dataframe float_of_string string_of_float
                    df_inventory INVENTORY_MAP ;;
  df_bars <- clean_dataframe float_of_string string_of_float
               df_bars BARS_MAP ;;
  ret (mkTables df_glasses df_bars df_drinks df_inventory df_orders).

End Script.

(** ** Vocabulary of the statements *)

(** The keys 1 .. n, as cells. *)
Definition keys (n : nat) : list value :=
  map (fun i => VInt (Z.of_nat i)) (seq 1 n).

(** Rows with a number put in front of each: k, k+1, ... *)
Fixpoint number_from (k : Z) (rs : list (list value)) : list (list value) :=
  match rs with
  | [] => []
  | r :: rs' => (VInt k :: r) :: number_from (k + 1) rs'
  end.

(** The frame [create_index] leaves in the place of [d]. *)
Definition indexed (name : string) (d : DataFrame) : DataFrame :=
  {| index_name := None;
     columns := name :: columns d;
     rows := label_from 0 (number_from 1 (data d)) |}.

(** [create_index] as a function on the frame it is handed. *)
Definition create_index_df (name : string) (d : DataFrame) : result DataFrame :=
  if bool_decide (name ∈ columns d) then Raise ValueError
  else OK (indexed name d).

(** The frame [build_bars_dataframe] builds. *)
Definition bars_frame : DataFrame :=
  {| index_name := None;
     columns := ["bar_id"; "location"];
     rows := label_from 0 bars_data |}.

(** Every character of a string passes a test. *)
Fixpoint all_chars (P : ascii -> bool) (s : string) : bool :=
  match s with
  | EmptyString => true
  | String c s' => P c && all_chars P s'
  end.

(** The columns of the drinks table as [build_drinks_dataframe] leaves it,
    and of the bars table. *)
Definition drinks_columns : list string :=
  ["drink_id"; "cocktail_db_id"; "drink_name"; "glass_name"].

Definition bars_columns : list string := ["bar_id"; "location"].

(** A cleaned order set: the four columns of [clean_raw_orders], one cell
    for each in every row. *)
Definition cleaned_orders (d : DataFrame) : Prop :=
  columns d = order_columns /\
  Forall (fun p : Z * list value => length p.2 = 4%nat) (rows d).

(** The frames [build_orders_dataframe] makes on the way: the concatenation,
    the join with the drinks, and the indexed join with the bars. *)
Definition orders_frames (d bars b l n : DataFrame)
  : result (DataFrame * DataFrame * DataFrame) :=
  rbind (pd_concat [b; l; n]) (fun c =>
  rbind (merge_left c d "drink_name" "drink_name") (fun m1 =>
  rbind (merge_left m1 bars "location" "location") (fun m2 =>
  rbind (create_index_df "order_id" m2) (fun o => OK (c, m1, o))))).

(** The cell of a row under the column named [c], the row being laid out
    on the columns [cols]. *)
Definition field (cols : list string) (c : string) (r : list value) : value :=
  match col_pos c cols with
  | Some i => cell i r
  | None => VNull
  end.

(** The columns of the frame [get_drinks_data] returns. *)
Definition letter_columns : list string :=
  ["cocktail_db_id"; "drink_name"; "glass_name"].

(** The frame [get_drinks_data] makes of a non-null response. *)
Definition letter_frame (drinks : list json_object) : result DataFrame :=
  rbind (project ["idDrink"; "strDrink"; "strGlass"] (json_normalize drinks))
        (fun d => rbind (applymap py_lower d) (set_columns letter_columns)).

(** The responses that are not null, in the order of the letters. *)
Definition responses (http : catalog) (letters : list string)
  : list (list json_object) :=
  omap (fun letter => http (search_url letter)) letters.

(** The row an entry gives: its id, name and glass, in lower case. *)
Definition entry_row (e : json_object) : result (list value) :=
  mapM py_lower (map (entry_cell e) ["idDrink"; "strDrink"; "strGlass"]).

(** A frame on the columns [cols], one cell for each in every row. *)
Definition same_columns (cols : list string) (f : DataFrame) : Prop :=
  columns f = cols /\
  Forall (fun p : Z * list value => length p.2 = length cols) (rows f).

(** The order of the code points, on cells that hold strings. *)
Definition value_lt (a b : value) : Prop :=
  match a, b with
  | VStr s, VStr t => String.ltb s t = true
  | _, _ => False
  end.

(** The frame [build_glasses_dataframe] makes of the drinks table. *)
Definition glasses_frame (d : DataFrame) : result DataFrame :=
  rbind (project ["glass_name"] d) (fun d1 =>
  rbind (sort_values "glass_name" (drop_duplicates d1))
        (create_index_df "glass_id")).

(** A row of one cell, a string. *)
Definition one_string (p : Z * list value) : Prop :=
  exists s, p.2 = [VStr s].

(** The columns of the glasses table. *)
Definition glasses_columns : list string := ["glass_id"; "glass_name"].

(** The frames [build_inventory_dataframe] makes on the way: the CSV frame
    with its stock parsed and its glass types corrected, its join with the
    bars, and the indexed join of that with the glasses. *)
Definition inventory_frames (csv bars glasses : DataFrame)
  : result (DataFrame * DataFrame * DataFrame) :=
  rbind (apply_column "stock" parse_stock csv) (fun a0 =>
  rbind (apply_column "glass_type" fix_glass_type a0) (fun a =>
  rbind (merge_left a bars "bar" "location") (fun m1 =>
  rbind (merge_left m1 glasses "glass_type" "glass_name") (fun m2 =>
  rbind (create_index_df "inventory_id"
           (rename_column "stock" "number_in_stock" m2))
        (fun o => OK (a, m1, o)))))).

(** The loop of [clean_dataframe] as a function on the frame it casts. *)
Fixpoint cast_columns_df (fs : string -> option spec_float)
    (sf : spec_float -> string) (dts : list (string * dtype))
    (cols : list string) (d : DataFrame) : result DataFrame :=
  match cols with
  | [] => OK d
  | c :: cols' =>
      match assoc c dts with
      | Some t =>
          rbind (apply_column c (astype fs sf t) d)
                (cast_columns_df fs sf dts cols')
      | None => Raise KeyError
      end
  end.

(** One row cast from position [k] on, a type for each position. *)
Fixpoint cast_row (fs : string -> option spec_float)
    (sf : spec_float -> string) (k : nat) (ts : list dtype)
    (r : list value) : result (list value) :=
  match ts with
  | [] => OK r
  | t :: ts' =>
      rbind (astype fs sf t (cell k r))
            (fun v => cast_row fs sf (S k) ts' (<[k := v]> r))
  end.

(** What the Schema Enforcer makes of one row of a frame with the columns
    [cols]: for each declared column in turn, the cell under that name cast
    to the declared type. *)
Definition enforce_row (fs : string -> option spec_float)
    (sf : spec_float -> string) (dts : list (string * dtype))
    (cols : list string) (p : Z * list value) : result (Z * list value) :=
  rmap (pair p.1)
       (mapM (fun ct : string * dtype => astype fs sf ct.2 (field cols ct.1 p.2))
             dts).

(** The exceptions of a failed conversion. *)
Definition coercion_error (e : exn) : Prop :=
  e = ValueError \/ e = OverflowError.

(** [clean_raw_orders] as a function on the frame read from the file. *)
Definition cleaned_frame (reformat : string -> string -> option string)
    (fs : string -> option spec_float) (sf : spec_float -> string)
    (csv : DataFrame) (fmt location : string) : result DataFrame :=
  rbind (drop_column "index" csv) (fun d1 =>
  rbind (apply_column "order_datetime" (normalize_datetime reformat fmt) d1)
        (fun d2 =>
  rbind (apply_column "drink_name" py_lower d2) (fun d3 =>
  rbind (apply_column "order_amount" (astype fs sf Float) d3) (fun d4 =>
  OK (assign_column "location" (VStr location) d4))))).

(** [add_glass_id_to_drinks_dataframe] as a function on the two frames. *)
Definition drinks_with_glass_id (d g : DataFrame) : result DataFrame :=
  rbind (merge_left d g "glass_name" "glass_name") (drop_column "glass_name").





(** ** Sample tables *)

Definition two_drinks : DataFrame :=
  {| index_name := None;
     columns := ["drink_name"];
     rows := [(7, [VStr "mojito"]); (7, [VStr "negroni"])] |}.

Definition sample_drinks : DataFrame :=
  {| index_name := None;
     columns := drinks_columns;
     rows := label_from 0
       [[VInt 1; VStr "11000"; VStr "mojito"; VStr "highball glass"];
        [VInt 2; VStr "11001"; VStr "negroni"; VStr "old-fashioned glass"]] |}.

(** A drinks table in which one name is held by two drinks. *)
Definition twin_drinks : DataFrame :=
  {| index_name := None;
     columns := drinks_columns;
     rows := label_from 0
       [[VInt 1; VStr "11000"; VStr "mojito"; VStr "highball glass"];
        [VInt 2; VStr "178336"; VStr "mojito"; VStr "collins glass"]] |}.

Definition three_halves : spec_float := S754_finite false 6755399441055744 (-52).

Definition sample_order (drink loc : string) : list value :=
  [VStr "2021-03-04 18:30:00"; VStr drink; VFloat three_halves; VStr loc].

Definition sample_budapest : DataFrame :=
  {| index_name := None;
     columns := order_columns;
     rows := label_from 0 [sample_order "mojito" "budapest";
                           sample_order "tap water" "budapest"] |}.

Definition sample_london : DataFrame :=
  {| index_name := None;
     columns := order_columns;
     rows := label_from 0 [sample_order "negroni" "london"] |}.

Definition sample_ny : DataFrame :=
  {| index_name := None; columns := order_columns; rows := [] |}.

Definition sample_store : list DataFrame :=
  [sample_drinks; bars_frame; sample_budapest; sample_london; sample_ny].

Definition twin_store : list DataFrame :=
  [twin_drinks; bars_frame; sample_budapest; sample_london; sample_ny].

(** A catalog with entries for the letters a and m only. *)
Definition sample_catalog : catalog := fun url =>
  if bool_decide (url = search_url "a") then
    Some [[("idDrink", JStr "17222"); ("strDrink", JStr "A1");
           ("strGlass", JStr "Cocktail glass")]]
  else if bool_decide (url = search_url "m") then
    Some [[("idDrink", JStr "11000"); ("strDrink", JStr "Mojito");
           ("strGlass", JStr "Highball glass")];
          [("idDrink", JStr "11728"); ("strDrink", JStr "Martini");
           ("strGlass", JStr "Cocktail Glass")]]
  else None.

Definition sample_frames : list DataFrame :=
  [ {| index_name := None;
       columns := letter_columns;
       rows := label_from 0 [[VStr "17222"; VStr "a1"; VStr "cocktail glass"]] |};
    {| index_name := None;
       columns := letter_columns;
       rows := label_from 0
                 [[VStr "11000"; VStr "mojito"; VStr "highball glass"];
                  [VStr "11728"; VStr "martini"; VStr "cocktail glass"]] |} ].

(** A drinks table in which two drinks are served in the same glass. *)
Definition shared_glass_drinks : DataFrame :=
  {| index_name := None;
     columns := drinks_columns;
     rows := label_from 0
       [[VInt 1; VStr "11000"; VStr "mojito"; VStr "highball glass"];
        [VInt 2; VStr "11007"; VStr "margarita"; VStr "cocktail glass"];
        [VInt 3; VStr "11410"; VStr "gin fizz"; VStr "highball glass"]] |}.

Definition sample_csv : DataFrame :=
  {| index_name := None;
     columns := ["glass_type"; "stock"; "bar"];
     rows := label_from 0
       [[VStr "coper mug"; VStr "12 bottles"; VStr "london"];
        [VStr "highball glass"; VStr "3 glasses"; VStr "budapest"]] |}.

Definition sample_glasses : DataFrame :=
  {| index_name := None;
     columns := glasses_columns;
     rows := label_from 0
       [[VInt 1; VStr "copper mug"]; [VInt 2; VStr "highball glass"]] |}.



(** A frame with the columns of GLASSES_MAP and one more, and one whose
    [glass_id] holds text instead of a number. *)
Definition glasses_with_note : DataFrame :=
  {| index_name := None;
     columns := ["note"; "glass_name"; "glass_id"];
     rows := label_from 0
       [[VStr "tall"; VStr "highball glass"; VStr " 2 "];
        [VNull; VStr "copper mug"; VFloat three_halves]] |}.

Definition glasses_with_bad_id : DataFrame :=
  {| index_name := None;
     columns := ["glass_id"; "glass_name"];
     rows := label_from 0
       [[VInt 1; VStr "highball glass"]; [VStr "two"; VStr "copper mug"]] |}.

(** Stand-ins for the decimal reading and printing of floats, for the
    examples. *)
Definition no_float_text (s : string) : option spec_float := None.
Definition float_as_text (f : spec_float) : string := "float".

(** The two drinks again, under other labels and an index name. *)
Definition two_drinks_relabelled : DataFrame :=
  {| index_name := Some "old";
     columns := ["drink_name"];
     rows := [(42, [VStr "mojito"]); (-1, [VStr "negroni"])] |}.

(** A response with one well-formed entry, and responses with an entry
    whose glass is null or absent. *)
Definition entry_mojito : json_object :=
  [("idDrink", JStr "11000"); ("strDrink", JStr "Mojito");
   ("strGlass", JStr "Highball glass"); ("strIBA", JNull)].

Definition entry_without_glass : json_object :=
  [("idDrink", JStr "15"); ("strDrink", JStr "Mystery"); ("strGlass", JNull)].

Definition one_letter_catalog (drinks : list json_object) : catalog :=
  fun _ => Some drinks.

(** A catalog whose letter m has an entry without a glass. *)
Definition flawed_catalog : catalog := fun url =>
  if bool_decide (url = search_url "a") then Some [entry_mojito]
  else if bool_decide (url = search_url "m") then
    Some [entry_mojito; entry_without_glass]
  else None.

(** An order file as read with the four column names, and a way of
    reading its dates that knows one date only. *)
Definition sample_orders_csv : DataFrame :=
  {| index_name := None;
     columns := column_names;
     rows := label_from 0
       [[VInt 0; VStr "03-04-2021 18:30"; VStr "Mojito"; VInt 2];
        [VInt 1; VStr "03-04-2021 18:30"; VStr "TAP Water"; VFloat three_halves]] |}.

Definition one_date (fmt s : string) : option string :=
  if bool_decide (fmt = "%m-%d-%Y %H:%M" /\ s = "03-04-2021 18:30")
  then Some "2021-03-04 18:30:00" else None.

Definition two_as_float : spec_float := S754_finite false 4503599627370496 (-51).


(** Order files for one run of the script, a reading of dates that knows
    the date of these files in both formats, and an inventory file. *)
Definition two_dates (fmt s : string) : option string :=
  if bool_decide (fmt = "%Y-%m-%d %H:%M:%S" /\ s = "2021-03-04 18:30:00")
  then Some s
  else one_date fmt s.

Definition budapest_orders_csv : DataFrame :=
  {| index_name := None;
     columns := column_names;
     rows := label_from 0
       [[VInt 0; VStr "2021-03-04 18:30:00"; VStr "Mojito"; VInt 2];
        [VInt 1; VStr "2021-03-04 18:30:00"; VStr "A1"; VFloat three_halves]] |}.

Definition london_orders_csv : DataFrame :=
  {| index_name := None;
     columns := column_names;
     rows := label_from 0
       [[VInt 0; VStr "2021-03-04 18:30:00"; VStr "martini"; VInt 1]] |}.

Definition ny_orders_csv : DataFrame :=
  {| index_name := None;
     columns := column_names;
     rows := label_from 0
       [[VInt 0; VStr "03-04-2021 18:30"; VStr "MOJITO"; VInt 3]] |}.

Definition small_inventory_csv : DataFrame :=
  {| index_name := None;
     columns := ["glass_type"; "stock"; "bar"];
     rows := label_from 0
       [[VStr "highball glass"; VStr "3 glasses"; VStr "budapest"];
        [VStr "cocktail glass"; VStr "12 glasses"; VStr "new york"]] |}.

(** An inventory file with a line for a glass that no drink is served in,
    and the same once [stock] is parsed. *)
Definition flute_csv : DataFrame :=
  {| index_name := None;
     columns := ["glass_type"; "stock"; "bar"];
     rows := label_from 0
       [[VStr "highball glass"; VStr "3 glasses"; VStr "budapest"];
        [VStr "champagne flute"; VStr "4 glasses"; VStr "london"]] |}.

Definition flute_csv_parsed : DataFrame :=
  {| index_name := None;
     columns := ["glass_type"; "stock"; "bar"];
     rows := label_from 0
       [[VStr "highball glass"; VInt 3; VStr "budapest"];
        [VStr "champagne flute"; VInt 4; VStr "london"]] |}.

(** A store in which every order is of a drink of the drinks table. *)
Definition known_budapest : DataFrame :=
  {| index_name := None;
     columns := order_columns;
     rows := label_from 0 [sample_order "mojito" "budapest";
                           sample_order "negroni" "budapest"] |}.

Definition known_store : list DataFrame :=
  [sample_drinks; bars_frame; known_budapest; sample_london; sample_ny].

(** * Properties *)

(** ** Running the monad *)

Lemma bind_ok {A B} (m : M A) (k : A -> M B) st a st1 :
  m st = OK (a, st1) -> bind m k st = k a st1.
Proof. intros H. unfold bind. now rewrite H. Qed.

Lemma bind_raise {A B} (m : M A) (k : A -> M B) st e :
  m st = Raise e -> bind m k st = Raise e.
Proof. intros H. unfold bind. now rewrite H. Qed.

Lemma bind_inv {A B} (m : M A) (k : A -> M B) st x :
  bind m k st = OK x -> exists a st1, m st = OK (a, st1) /\ k a st1 = OK x.
Proof.
  unfold bind. destruct (m st) as [[a st1]|e]; [|discriminate].
  intros H. now exists a, st1.
Qed.

Lemma bind_inv_raise_second {A B} (m : M A) (k : A -> M B) st a st1 e :
  m st = OK (a, st1) -> k a st1 = Raise e -> bind m k st = Raise e.
Proof. intros H1 H2. unfold bind. now rewrite H1. Qed.

Lemma new_inv d st r st' :
  new d st = OK (r, st') -> r = length st /\ st' = st ++ [d].
Proof. unfold new. intros H. now inversion H. Qed.

Lemma load_ok r st d : st !! r = Some d -> load r st = OK (d, st).
Proof. intros H. unfold load. now rewrite H. Qed.

Lemma load_inv r st d st' :
  load r st = OK (d, st') -> st' = st /\ st !! r = Some d.
Proof.
  unfold load. destruct (st !! r); [|discriminate].
  intros H. now inversion H.
Qed.

Lemma lift_inv {A} (x : result A) st a st' :
  lift x st = OK (a, st') -> x = OK a /\ st' = st.
Proof.
  unfold lift. destruct x; [|discriminate].
  intros H. now inversion H.
Qed.

Lemma inplace_ok r f st d d' :
  st !! r = Some d -> f d = OK d' -> inplace r f st = OK (tt, <[r := d']> st).
Proof. intros H1 H2. unfold inplace. now rewrite H1, H2. Qed.

Lemma inplace_inv r f st u st' :
  inplace r f st = OK (u, st') ->
  exists d d', st !! r = Some d /\ f d = OK d' /\ st' = <[r := d']> st.
Proof.
  unfold inplace. destruct (st !! r) as [d|]; [|discriminate].
  destruct (f d) as [d'|] eqn:Hf; [|discriminate].
  intros H. inversion H. now exists d, d'.
Qed.

Lemma ret_inv {A} (a : A) st b st' : ret a st = OK (b, st') -> b = a /\ st' = st.
Proof. unfold ret. intros H. now inversion H. Qed.

(** Taking a successful run apart, call by call. *)
Ltac run_inv H :=
  repeat match type of H with
  | bind _ _ _ = OK _ =>
      let a := fresh "a" in let s := fresh "st" in
      let H1 := fresh "Hrun" in
      apply bind_inv in H; destruct H as (a & s & H1 & H)
  end.

(** ** Labels and numbers *)

Lemma data_label_from k rs : map snd (label_from k rs) = rs.
Proof. revert k. induction rs as [|r rs IH]; intros k; simpl; [|rewrite IH]; done. Qed.

Lemma length_label_from k rs : length (label_from k rs) = length rs.
Proof. revert k. induction rs as [|r rs IH]; intros k; simpl; [|rewrite IH]; done. Qed.

Lemma length_number_from k rs : length (number_from k rs) = length rs.
Proof. revert k. induction rs as [|r rs IH]; intros k; simpl; [|rewrite IH]; done. Qed.

Lemma index_to_column k rs :
  map (fun p : Z * list value => VInt p.1 :: p.2)
      (map (fun p : Z * list value => (p.1 + 1, p.2)) (label_from k rs))
  = number_from (k + 1) rs.
Proof.
  revert k. induction rs as [|r rs IH]; intros k; simpl; [done|].
  now rewrite IH.
Qed.

Lemma number_from_keys a rs :
  map (cell 0) (number_from (Z.of_nat a) rs)
  = map (fun i => VInt (Z.of_nat i)) (seq a (length rs)).
Proof.
  revert a. induction rs as [|r rs IH]; intros a; simpl; [done|].
  f_equal. rewrite <- IH. do 2 f_equal. lia.
Qed.

Lemma number_from_tail k rs : map (drop 1) (number_from k rs) = rs.
Proof.
  revert k. induction rs as [|r rs IH]; intros k; simpl; [done|].
  now rewrite IH.
Qed.

(** ** [create_index] *)

Lemma reset_index_named name d :
  name ∉ columns d ->
  reset_index (set_index_name name (index_add 1 (reset_index_drop d)))
  = OK (indexed name d).
Proof.
  intros Hfresh. unfold reset_index, index_column_name. simpl.
  rewrite bool_decide_eq_false_2 by done.
  unfold indexed. do 2 f_equal.
  f_equal. apply (index_to_column 0).
Qed.

Lemma create_index_ok st df d name :
  st !! df = Some d -> name ∉ columns d ->
  create_index df name st = OK (df, <[df := indexed name d]> st).
Proof.
  intros Hd Hfresh. unfold create_index.
  assert (Hlt : (df < length st)%nat) by (eapply lookup_lt_Some; eauto).
  erewrite bind_ok by (eapply inplace_ok; eauto).
  erewrite bind_ok
    by (eapply inplace_ok; [apply list_lookup_insert_eq; done|reflexivity]).
  rewrite list_insert_insert_eq.
  erewrite bind_ok
    by (eapply inplace_ok; [apply list_lookup_insert_eq; done|reflexivity]).
  rewrite list_insert_insert_eq.
  erewrite bind_ok
    by (eapply inplace_ok;
        [apply list_lookup_insert_eq; done|apply reset_index_named; done]).
  now rewrite list_insert_insert_eq.
Qed.

Lemma create_index_clash st df d name :
  st !! df = Some d -> name ∈ columns d ->
  create_index df name st = Raise ValueError.
Proof.
  intros Hd Hin. unfold create_index.
  assert (Hlt : (df < length st)%nat) by (eapply lookup_lt_Some; eauto).
  erewrite bind_ok by (eapply inplace_ok; eauto).
  erewrite bind_ok
    by (eapply inplace_ok; [apply list_lookup_insert_eq; done|reflexivity]).
  rewrite list_insert_insert_eq.
  erewrite bind_ok
    by (eapply inplace_ok; [apply list_lookup_insert_eq; done|reflexivity]).
  rewrite list_insert_insert_eq.
  apply bind_raise. unfold inplace.
  rewrite list_lookup_insert_eq by done.
  unfold reset_index, index_column_name. simpl.
  now rewrite bool_decide_eq_true_2.
Qed.

Lemma create_index_inv st df name r st' :
  create_index df name st = OK (r, st') ->
  r = df /\ exists d, st !! df = Some d /\ (name ∉ columns d) /\
                      st' = <[df := indexed name d]> st.
Proof.
  intros H. destruct (st !! df) as [d|] eqn:Hd.
  - destruct (decide (name ∈ columns d)) as [Hin|Hfresh].
    + rewrite (create_index_clash _ _ _ _ Hd Hin) in H. discriminate.
    + rewrite (create_index_ok _ _ _ _ Hd Hfresh) in H. inversion H.
      split; [done|]. now exists d.
  - unfold create_index, bind, inplace in H. rewrite Hd in H. discriminate.
Qed.

Lemma indexed_keys name d :
  name ∉ columns d -> get_column (indexed name d) name = OK (keys (len d)).
Proof.
  intros _. unfold get_column, indexed, data. simpl.
  rewrite bool_decide_eq_true_2 by done.
  rewrite data_label_from. f_equal.
  unfold keys, len. rewrite (number_from_keys 1). now rewrite length_map.
Qed.

Lemma len_indexed name d : len (indexed name d) = len d.
Proof.
  unfold len, indexed, data. simpl.
  now rewrite length_label_from, length_number_from, length_map.
Qed.

(** *** The object a function has just allocated *)

Lemma lookup_last (s : list DataFrame) x : (s ++ [x]) !! length s = Some x.
Proof. rewrite lookup_app_r by lia. now rewrite Nat.sub_diag. Qed.

Lemma insert_last (s : list DataFrame) x y :
  <[length s := y]> (s ++ [x]) = s ++ [y].
Proof. rewrite insert_app_r_alt by lia. now rewrite Nat.sub_diag. Qed.

Lemma inplace_last f (s : list DataFrame) x :
  inplace (length s) f (s ++ [x])
  = match f x with
    | OK y => OK (tt, s ++ [y])
    | Raise e => Raise e
    end.
Proof.
  unfold inplace. rewrite lookup_last. destruct (f x); [|done].
  now rewrite insert_last.
Qed.

Lemma create_index_last name (s : list DataFrame) x :
  create_index (length s) name (s ++ [x])
  = match create_index_df name x with
    | OK y => OK (length s, s ++ [y])
    | Raise e => Raise e
    end.
Proof.
  unfold create_index_df. case_bool_decide as Hin.
  - apply create_index_clash with x; [apply lookup_last|done].
  - rewrite (create_index_ok _ _ x) by (done || apply lookup_last).
    now rewrite insert_last.
Qed.

Lemma build_bars_run st :
  build_bars_dataframe st = OK (length st, st ++ [bars_frame]).
Proof. reflexivity. Qed.

(** C3.  The Indexer gives a table of N rows a key column holding 1 .. N in
    row order, for every N (zero included) and every key name the table
    does not have yet; the columns and rows it had follow the key unchanged.
    The bars table, built from constants, has the keys 1, 2, 3 in its
    [bar_id] column. *)
Theorem create_index_keys_1_to_N st df d name :
  st !! df = Some d -> name ∉ columns d ->
  (exists d',
     create_index df name st = OK (df, <[df := d']> st) /\
     len d' = len d /\
     get_column d' name = OK (keys (len d)) /\
     columns d' = name :: columns d /\
     map (drop 1) (data d') = data d)
  /\
  (exists b,
     build_bars_dataframe st = OK (length st, st ++ [b]) /\
     len b = 3%nat /\
     get_column b "bar_id" = OK (keys (len b))).
Proof.
  intros Hd Hfresh. split.
  - exists (indexed name d). split; [now apply create_index_ok|].
    split; [apply len_indexed|]. split; [now apply indexed_keys|].
    split; [done|].
    unfold indexed, data. simpl. rewrite data_label_from.
    apply number_from_tail.
  - exists bars_frame. split; [apply build_bars_run|]. split; reflexivity.
Qed.

Lemma create_index_keys_1_to_N_witness :
  (exists d',
     create_index 0 "drink_id" [two_drinks] = OK (0%nat, <[0%nat := d']> [two_drinks]) /\
     len d' = len two_drinks /\
     get_column d' "drink_id" = OK (keys (len two_drinks)) /\
     columns d' = "drink_id" :: columns two_drinks /\
     map (drop 1) (data d') = data two_drinks)
  /\
  (exists b,
     build_bars_dataframe [two_drinks] = OK (1%nat, [two_drinks] ++ [b]) /\
     len b = 3%nat /\
     get_column b "bar_id" = OK (keys (len b))).
Proof.
  apply (create_index_keys_1_to_N [two_drinks] 0%nat two_drinks "drink_id").
  - reflexivity.
  - vm_compute. intros H. inversion H as [|? ? ? H']; inversion H'.
Defined.

(** ** What [create_index] does to the store *)

Lemma indexed_neq name d : indexed name d <> d.
Proof.
  intros H. apply (f_equal (fun x => length (columns x))) in H.
  simpl in H. lia.
Qed.

(** The claim of C4 fails: after the call the caller's table object is no
    longer the table the caller passed. *)
Lemma create_index_changes_the_callers_table :
  exists st',
    create_index 0 "drink_id" [two_drinks] = OK (0%nat, st') /\
    st' !! 0%nat <> [two_drinks] !! 0%nat.
Proof.
  eexists. split; [reflexivity|]. vm_compute. discriminate.
Qed.

(** The glasses builder hands the Indexer a copy: the drinks table and every
    other object of the store are as before, the glasses table is a new
    object. *)
Lemma build_glasses_frame df_drinks st r st' :
  build_glasses_dataframe df_drinks st = OK (r, st') ->
  r = length st /\ exists g, st' = st ++ [g].
Proof.
  unfold build_glasses_dataframe. intros H. run_inv H.
  apply load_inv in Hrun as [-> _].
  apply lift_inv in Hrun0 as [_ ->].
  apply new_inv in Hrun1 as [-> ->].
  rewrite inplace_last in Hrun2. inversion Hrun2; subst. clear Hrun2.
  rewrite inplace_last in Hrun3.
  destruct (sort_values _ _) as [g1|]; [|discriminate].
  inversion Hrun3; subst. clear Hrun3.
  rewrite create_index_last in Hrun4.
  destruct (create_index_df _ _) as [g2|]; [|discriminate].
  inversion Hrun4; subst. clear Hrun4.
  apply ret_inv in H as [Hr Hst]. inversion Hr; subst. eauto.
Qed.

(** C4, amended.  The Indexer works in place: it returns the reference it
    was given, the object behind it is now the table with the key column in
    front (so it differs from the table passed), and every other object of
    the store is unchanged.  A caller keeps its table by passing a copy, as
    the glasses builder does: after it has run, the drinks table and all
    objects that existed before are unchanged. *)
Theorem create_index_in_place st df d name :
  st !! df = Some d -> name ∉ columns d ->
  exists d',
    create_index df name st = OK (df, <[df := d']> st) /\
    <[df := d']> st !! df = Some d' /\
    d' <> d /\
    columns d' = name :: columns d /\
    (forall r, r <> df -> <[df := d']> st !! r = st !! r) /\
    (forall df_drinks r st',
       build_glasses_dataframe df_drinks st = OK (r, st') ->
       forall q, (q < length st)%nat -> st' !! q = st !! q).
Proof.
  intros Hd Hfresh. exists (indexed name d).
  split; [now apply create_index_ok|].
  split; [apply list_lookup_insert_eq; eapply lookup_lt_Some; eauto|].
  split; [apply indexed_neq|]. split; [done|]. split.
  - intros r Hr. now apply list_lookup_insert_ne.
  - intros df_drinks r st' Hrun q Hq.
    apply build_glasses_frame in Hrun as (_ & g & ->).
    now apply lookup_app_l.
Qed.

Lemma create_index_in_place_witness :
  exists d',
    create_index 0 "drink_id" [two_drinks] = OK (0%nat, <[0%nat := d']> [two_drinks]) /\
    <[0%nat := d']> [two_drinks] !! 0%nat = Some d' /\
    d' <> two_drinks /\
    columns d' = "drink_id" :: columns two_drinks /\
    (forall r, r <> 0%nat -> <[0%nat := d']> [two_drinks] !! r = [two_drinks] !! r) /\
    (forall df_drinks r st',
       build_glasses_dataframe df_drinks [two_drinks] = OK (r, st') ->
       forall q, (q < length [two_drinks])%nat -> st' !! q = [two_drinks] !! q).
Proof.
  apply (create_index_in_place [two_drinks] 0%nat two_drinks "drink_id").
  - reflexivity.
  - vm_compute. intros H. inversion H as [|? ? ? H']; inversion H'.
Defined.

(** ** Parsing a stock string *)


Lemma lstrip_id c s : is_space c = false -> lstrip (String c s) = String c s.
Proof. intros H. simpl. now rewrite H. Qed.

Lemma rstrip_id s :
  all_chars (fun c => negb (is_space c)) s = true -> rstrip s = s.
Proof.
  induction s as [|c s IH]; simpl; [done|].
  intros H. apply andb_true_iff in H as [Hc Hs].
  rewrite IH by done. destruct s; [|done].
  now destruct (is_space c).
Qed.

Lemma all_chars_impl (P Q : ascii -> bool) s :
  (forall c, P c = true -> Q c = true) ->
  all_chars P s = true -> all_chars Q s = true.
Proof.
  intros HPQ. induction s as [|c s IH]; simpl; [done|].
  intros H. apply andb_true_iff in H as [Hc Hs].
  now rewrite HPQ, IH.
Qed.

Lemma digits_of_uint d : all_chars is_digit (NilEmpty.string_of_uint d) = true.
Proof. induction d; simpl; auto. Qed.

Lemma digit_not_blank c : is_digit c = true -> negb (is_space c) = true.
Proof.
  unfold is_digit, is_space. intros H.
  apply andb_true_iff in H as [H1 H2].
  apply Nat.leb_le in H1. apply Nat.leb_le in H2.
  apply negb_true_iff, orb_false_iff. split.
  - apply Nat.eqb_neq. lia.
  - apply andb_false_iff. right. apply Nat.leb_gt. lia.
Qed.

Lemma digit_not_space c :
  is_digit c = true -> negb (bool_decide (c = " "%char)) = true.
Proof.
  intros H. apply negb_true_iff, bool_decide_eq_false_2.
  intros ->. discriminate.
Qed.

Lemma parse_digits_digit c s acc b :
  is_digit c = true ->
  parse_digits (String c s) acc b = parse_digits s (10 * acc + digit_value c) true.
Proof. intros H. simpl. now rewrite H. Qed.

Ltac eval_digit :=
  match goal with
  | |- context [digit_value ?c] =>
      let v := eval vm_compute in (digit_value c) in
      change (digit_value c) with v
  end.

(** Reading the digits of a positive number that has a digit read already. *)
Lemma parse_digits_acc d acc :
  parse_digits (NilEmpty.string_of_uint d) (Zpos acc) true
  = Some (Zpos (Pos.of_uint_acc d acc)).
Proof.
  revert acc. induction d; intros acc; [done|..];
    simpl NilEmpty.string_of_uint; simpl Pos.of_uint_acc;
    rewrite parse_digits_digit by reflexivity;
    rewrite <- IHd; f_equal; eval_digit; lia.
Qed.

(** Reading a numeral from its first digit, leading zeros included. *)
Lemma parse_digits_uint d :
  parse_digits (NilEmpty.string_of_uint d) 0 true = Some (Z.of_N (Pos.of_uint d)).
Proof.
  induction d; [done|..];
    simpl NilEmpty.string_of_uint; simpl Pos.of_uint;
    rewrite parse_digits_digit by reflexivity; eval_digit;
    [apply IHd|..]; apply parse_digits_acc.
Qed.

Lemma parse_digits_first c s acc b :
  is_digit c = true ->
  parse_digits (String c s) acc b = parse_digits (String c s) acc true.
Proof. intros H. simpl. now rewrite H. Qed.

Lemma numeral_nonempty p :
  exists c s, NilEmpty.string_of_uint (Pos.to_uint p) = String c s /\
              is_digit c = true /\ all_chars is_digit s = true.
Proof.
  pose proof (digits_of_uint (Pos.to_uint p)) as Hd.
  pose proof (DecimalPos.Unsigned.to_uint_nonnil p) as Hnil.
  destruct (Pos.to_uint p); [done|..]; simpl in *; eauto.
Qed.

Lemma numeral_NilZero p :
  NilZero.string_of_uint (Pos.to_uint p) = NilEmpty.string_of_uint (Pos.to_uint p).
Proof.
  pose proof (DecimalPos.Unsigned.to_uint_nonnil p) as Hnil.
  unfold NilZero.string_of_uint. now destruct (Pos.to_uint p).
Qed.

Lemma parse_digits_pos p b :
  parse_digits (NilEmpty.string_of_uint (Pos.to_uint p)) 0 b = Some (Zpos p).
Proof.
  pose proof (parse_digits_uint (Pos.to_uint p)) as Hparse.
  rewrite DecimalPos.Unsigned.of_to in Hparse.
  destruct (numeral_nonempty p) as (c & s & Hs & Hc & _).
  rewrite Hs in *. now rewrite parse_digits_first.
Qed.

Lemma strip_numeral s :
  all_chars is_digit s = true -> s <> EmptyString -> rstrip (lstrip s) = s.
Proof.
  intros Hd Hne. destruct s as [|c s]; [done|].
  simpl in Hd. apply andb_true_iff in Hd as [Hc Hs].
  rewrite lstrip_id by (apply negb_true_iff, digit_not_blank, Hc).
  apply rstrip_id. simpl. rewrite digit_not_blank by done.
  eapply all_chars_impl; [apply digit_not_blank|done].
Qed.

Lemma int_of_string_pos p :
  int_of_string (NilEmpty.string_of_uint (Pos.to_uint p)) = OK (Zpos p).
Proof.
  pose proof (parse_digits_pos p false) as Hparse.
  pose proof (digits_of_uint (Pos.to_uint p)) as Hd.
  destruct (numeral_nonempty p) as (c & s & Hs & Hc & _).
  unfold int_of_string. rewrite strip_numeral by (done || now rewrite Hs).
  rewrite Hs in *.
  assert (c <> "+"%char) by (intros ->; discriminate).
  assert (c <> "-"%char) by (intros ->; discriminate).
  destruct c as [[] [] [] [] [] [] [] []]; try congruence;
    rewrite Hparse; reflexivity.
Qed.

Lemma int_of_string_neg p :
  int_of_string (String "-" (NilEmpty.string_of_uint (Pos.to_uint p)))
  = OK (Zneg p).
Proof.
  pose proof (digits_of_uint (Pos.to_uint p)) as Hd.
  unfold int_of_string. rewrite lstrip_id by reflexivity.
  rewrite rstrip_id.
  2:{ simpl. eapply all_chars_impl; [apply digit_not_blank|done]. }
  now rewrite parse_digits_pos.
Qed.

Lemma int_of_string_of_Z z : int_of_string (string_of_Z z) = OK z.
Proof.
  destruct z as [|p|p]; [reflexivity|..]; unfold string_of_Z; simpl;
    rewrite numeral_NilZero.
  - apply int_of_string_pos.
  - apply int_of_string_neg.
Qed.

Lemma string_of_Z_no_space z :
  all_chars (fun c => negb (bool_decide (c = " "%char))) (string_of_Z z) = true.
Proof.
  destruct z as [|p|p]; [reflexivity|..]; unfold string_of_Z; simpl;
    rewrite numeral_NilZero; [|simpl];
    (eapply all_chars_impl; [apply digit_not_space|apply digits_of_uint]).
Qed.


(** ** Joins *)

Lemma join_row_nonempty lo ro i j w rs l :
  (1 <= length (join_row lo ro i j w rs l))%nat.
Proof.
  unfold join_row. destruct (filter _ rs) as [|m ms]; simpl; lia.
Qed.

Lemma join_row_unmatched lo ro i j w rs l :
  cell i l ∉ map (cell j) rs ->
  join_row lo ro i j w rs l = [l ++ replicate w VNull].
Proof.
  intros Hno. unfold join_row.
  destruct (filter _ rs) as [|m ms] eqn:Hf; [done|].
  exfalso. apply Hno.
  assert (Hm : m ∈ filter (fun r => cell i l = cell j r) rs)
    by (rewrite Hf; left).
  apply list_elem_of_filter in Hm as [-> Hm].
  apply list_elem_of_fmap. eauto.
Qed.

(** Every row a left row gives starts with that left row. *)
Lemma join_row_prefix lo ro i j w rs l x :
  x ∈ join_row lo ro i j w rs l -> exists t, x = l ++ t.
Proof.
  unfold join_row. destruct (filter _ rs) as [|m ms].
  - intros ->%list_elem_of_singleton. eauto.
  - intros (r & -> & _)%list_elem_of_fmap. eauto.
Qed.

Lemma filter_key_NoDup (k : value) j (rs : list (list value)) :
  NoDup (map (cell j) rs) ->
  (length (filter (fun r => k = cell j r) rs) <= 1)%nat.
Proof.
  induction rs as [|r rs IH]; simpl; [lia|].
  intros Hnd. apply NoDup_cons in Hnd as [Hr Hnd].
  rewrite filter_cons. case_decide as Hk; [|auto].
  simpl. destruct (filter _ rs) as [|m ms] eqn:Hf; [simpl; lia|].
  exfalso. apply Hr.
  assert (Hm : m ∈ filter (fun r => k = cell j r) rs) by (rewrite Hf; left).
  apply list_elem_of_filter in Hm as [Hkm Hm].
  apply list_elem_of_fmap. exists m. split; [congruence|done].
Qed.

Lemma join_row_single lo ro i j w rs l :
  NoDup (map (cell j) rs) -> length (join_row lo ro i j w rs l) = 1%nat.
Proof.
  intros Hnd. pose proof (filter_key_NoDup (cell i l) j rs Hnd) as Hle.
  unfold join_row. destruct (filter _ rs) as [|m ms]; [done|].
  rewrite length_map. simpl in *. lia.
Qed.

Lemma flat_map_length_ge {A B} (f : A -> list B) (l : list A) :
  (forall x, 1 <= length (f x))%nat ->
  (length l <= length (flat_map f l))%nat.
Proof.
  intros Hf. induction l as [|x l IH]; simpl; [lia|].
  rewrite length_app. specialize (Hf x). lia.
Qed.

Lemma flat_map_length_eq {A B} (f : A -> list B) (l : list A) :
  (forall x, length (f x) = 1%nat) ->
  length (flat_map f l) = length l.
Proof.
  intros Hf. induction l as [|x l IH]; simpl; [lia|].
  rewrite length_app, Hf. lia.
Qed.

Lemma elem_of_flat_map {A B} (f : A -> list B) (l : list A) y :
  y ∈ flat_map f l <-> exists x, x ∈ l /\ y ∈ f x.
Proof.
  rewrite list_elem_of_In, in_flat_map.
  split; intros (x & Hx & Hy); exists x; now rewrite ?list_elem_of_In in *.
Qed.

Lemma number_from_elem k rs x :
  x ∈ rs -> exists q, VInt q :: x ∈ number_from k rs.
Proof.
  revert k. induction rs as [|r rs IH]; intros k; [by intros ?%elem_of_nil|].
  intros [->|Hx]%elem_of_cons; simpl.
  - exists k. left.
  - destruct (IH (k + 1) Hx) as [q Hq]. exists q. now right.
Qed.

(** ** [build_orders_dataframe] *)

Lemma merge_run st left right l r lo ro :
  st !! left = Some l -> st !! right = Some r ->
  merge left right lo ro st
  = match merge_left l r lo ro with
    | OK d => OK (length st, st ++ [d])
    | Raise e => Raise e
    end.
Proof.
  intros Hl Hr. unfold merge.
  erewrite bind_ok by (apply load_ok; eauto).
  erewrite bind_ok by (apply load_ok; eauto).
  unfold bind, lift. now destruct (merge_left l r lo ro).
Qed.

Lemma concat3_run st r1 r2 r3 d1 d2 d3 :
  st !! r1 = Some d1 -> st !! r2 = Some d2 -> st !! r3 = Some d3 ->
  concat [r1; r2; r3] st
  = match pd_concat [d1; d2; d3] with
    | OK d => OK (length st, st ++ [d])
    | Raise e => Raise e
    end.
Proof.
  intros H1 H2 H3. unfold concat, bind, load_all. simpl.
  now rewrite H1, H2, H3.
Qed.

Lemma build_orders_run st df_drinks df_bars df_budapest df_london df_ny
    d bars b l n :
  st !! df_drinks = Some d -> st !! df_bars = Some bars ->
  st !! df_budapest = Some b -> st !! df_london = Some l ->
  st !! df_ny = Some n ->
  build_orders_dataframe df_drinks df_bars df_budapest df_london df_ny st
  = match orders_frames d bars b l n with
    | OK (c, m1, o) => OK ((length st + 2)%nat, st ++ [c; m1; o])
    | Raise e => Raise e
    end.
Proof.
  intros Hd Hbars Hb Hl Hn.
  unfold build_orders_dataframe, orders_frames.
  unfold bind at 1. rewrite (concat3_run _ _ _ _ b l n) by done.
  destruct (pd_concat [b; l; n]) as [c|]; [simpl|done].
  unfold bind at 1.
  rewrite (merge_run _ _ _ c d)
    by (apply lookup_last || now apply lookup_app_l_Some).
  destruct (merge_left c d _ _) as [m1|]; [simpl|done].
  unfold bind at 1.
  rewrite (merge_run _ _ _ m1 bars)
    by (apply lookup_last || now do 2 apply lookup_app_l_Some).
  destruct (merge_left m1 bars _ _) as [m2|]; [simpl|done].
  unfold bind at 1. rewrite create_index_last.
  destruct (create_index_df _ m2) as [o|]; [simpl|done].
  unfold ret. rewrite !length_app. simpl.
  rewrite <- !app_assoc. simpl. do 2 f_equal. lia.
Qed.

Lemma reindex_orders r :
  length r = 4%nat -> reindex order_columns order_columns r = r.
Proof.
  intros H. destruct r as [|v1 [|v2 [|v3 [|v4 [|]]]]]; try discriminate.
  reflexivity.
Qed.

Lemma data_cleaned cols b :
  cols = order_columns -> cleaned_orders b ->
  map snd (map (fun p : Z * list value => (p.1, reindex (columns b) cols p.2))
               (rows b))
  = data b.
Proof.
  intros -> [Hc Hr]. rewrite Hc. unfold data. rewrite map_map. simpl.
  apply map_ext_Forall. eapply Forall_impl; [exact Hr|].
  intros p Hp. now apply reindex_orders.
Qed.

Lemma concat_cleaned b l n :
  cleaned_orders b -> cleaned_orders l -> cleaned_orders n ->
  exists c, pd_concat [b; l; n] = OK c /\
            columns c = order_columns /\
            data c = data b ++ data l ++ data n.
Proof.
  intros Hb Hl Hn. eexists. split; [reflexivity|].
  assert (Hcols : dedup (flat_map columns [b; l; n]) = order_columns).
  { cbn [flat_map]. rewrite (proj1 Hb), (proj1 Hl), (proj1 Hn).
    vm_compute. reflexivity. }
  split; [exact Hcols|].
  unfold data at 1. cbn [rows]. unfold flat_map at 1.
  rewrite app_nil_r, !map_app.
  now rewrite (data_cleaned _ b Hcols Hb), (data_cleaned _ l Hcols Hl),
    (data_cleaned _ n Hcols Hn).
Qed.

Lemma merge_left_at l r lo ro i j :
  col_pos lo (columns l) = Some i -> col_pos ro (columns r) = Some j ->
  merge_left l r lo ro
  = OK {| index_name := None;
          columns := merge_columns (columns l) (columns r) lo ro j;
          rows := label_from 0
                    (flat_map
                       (join_row lo ro i j
                          (length (merge_keep lo ro j (columns r))) (data r))
                       (data l)) |}.
Proof. intros Hi Hj. unfold merge_left. now rewrite Hi, Hj. Qed.

(** The columns of the orders table before the Schema Enforcer. *)
Lemma orders_frames_ok d bars b l n :
  cleaned_orders b -> cleaned_orders l -> cleaned_orders n ->
  columns d = drinks_columns -> columns bars = bars_columns ->
  exists c m1 o,
    orders_frames d bars b l n = OK (c, m1, o) /\
    data c = data b ++ data l ++ data n /\
    data m1 = flat_map (join_row "drink_name" "drink_name" 1 2 3 (data d))
                       (data c) /\
    columns o = "order_id" :: order_columns
                ++ ["drink_id"; "cocktail_db_id"; "glass_name"; "bar_id"] /\
    data o = number_from 1
               (flat_map (join_row "location" "location" 3 1 1 (data bars))
                         (data m1)).
Proof.
  intros Hb Hl Hn Hd Hbars.
  destruct (concat_cleaned b l n Hb Hl Hn) as (c & Hc & Hcc & Hdc).
  unfold orders_frames. rewrite Hc. cbn [rbind].
  rewrite (merge_left_at c d _ _ 1 2) by (rewrite ?Hcc, ?Hd; reflexivity).
  cbn [rbind]. rewrite Hcc, Hd.
  match goal with
  | |- context [merge_left ?m bars _ _] => set (m1 := m)
  end.
  rewrite (merge_left_at m1 bars _ _ 3 1) by (rewrite ?Hbars; reflexivity).
  cbn [rbind]. rewrite Hbars.
  match goal with
  | |- context [create_index_df _ ?m] => set (m2 := m)
  end.
  assert (Hfresh : create_index_df "order_id" m2 = OK (indexed "order_id" m2))
    by (unfold create_index_df; rewrite bool_decide_eq_false_2; [done|];
        vm_compute; intros H; repeat (inversion H as [|? ? ? H']; clear H; rename H' into H)).
  rewrite Hfresh. cbn [rbind].
  exists c, m1, (indexed "order_id" m2). split; [done|]. split; [done|].
  split; [unfold m1, data; cbn [rows]; now rewrite data_label_from|].
  split; [vm_compute; reflexivity|].
  unfold indexed, data at 1. cbn [rows]. rewrite data_label_from.
  f_equal. unfold m2, data at 1. cbn [rows]. now rewrite data_label_from.
Qed.

Lemma len_data d : len d = length (data d).
Proof. unfold len, data. now rewrite length_map. Qed.

Lemma get_column_at d c i :
  col_pos c (columns d) = Some i -> get_column d c = OK (map (cell i) (data d)).
Proof. intros H. unfold get_column. now rewrite H. Qed.

(** The claim of C5 fails for a drinks table in which a name occurs twice:
    three orders go in, four rows come out. *)
Lemma orders_join_adds_rows_for_twin_drinks :
  exists o st',
    build_orders_dataframe 0 1 2 3 4 twin_store = OK (7%nat, st') /\
    st' !! 7%nat = Some o /\
    (len sample_budapest + len sample_london + len sample_ny = 3)%nat /\
    len o = 4%nat.
Proof.
  do 2 eexists. split; [reflexivity|]. split; [reflexivity|].
  split; reflexivity.
Qed.

(** C5, amended.  The joins of the orders builder drop no row: the orders
    table has at least as many rows as the three cleaned sets together, and
    exactly as many when no drink name occurs twice in the drinks table and
    no location twice in the bars table. *)
Theorem orders_join_keeps_every_row st df_drinks df_bars df_budapest df_london
    df_ny d bars b l n names locations :
  st !! df_drinks = Some d -> st !! df_bars = Some bars ->
  st !! df_budapest = Some b -> st !! df_london = Some l ->
  st !! df_ny = Some n ->
  cleaned_orders b -> cleaned_orders l -> cleaned_orders n ->
  columns d = drinks_columns -> columns bars = bars_columns ->
  get_column d "drink_name" = OK names ->
  get_column bars "location" = OK locations ->
  exists c m1 o,
    build_orders_dataframe df_drinks df_bars df_budapest df_london df_ny st
    = OK ((length st + 2)%nat, st ++ [c; m1; o]) /\
    (len b + len l + len n <= len o)%nat /\
    (NoDup names -> NoDup locations -> len o = (len b + len l + len n)%nat).
Proof.
  intros Hd Hbars Hb Hl Hn Cb Cl Cn Hdc Hbc Hnames Hlocs.
  destruct (orders_frames_ok d bars b l n Cb Cl Cn Hdc Hbc)
    as (c & m1 & o & Hrun & Hc & Hm1 & Hoc & Ho).
  exists c, m1, o. split.
  { rewrite (build_orders_run _ _ _ _ _ _ d bars b l n) by done.
    now rewrite Hrun. }
  rewrite (get_column_at d "drink_name" 2) in Hnames by now rewrite Hdc.
  rewrite (get_column_at bars "location" 1) in Hlocs by now rewrite Hbc.
  inversion Hnames; subst names. inversion Hlocs; subst locations.
  assert (Hin : (len b + len l + len n)%nat = length (data c))
    by (rewrite Hc, !length_app, !len_data; lia).
  rewrite Hin, (len_data o), Ho, length_number_from, Hm1. split.
  - etransitivity; [|apply flat_map_length_ge, join_row_nonempty].
    apply flat_map_length_ge, join_row_nonempty.
  - intros Hnd1 Hnd2.
    rewrite flat_map_length_eq by (intros; now apply join_row_single).
    apply flat_map_length_eq. intros. now apply join_row_single.
Qed.

Lemma orders_join_keeps_every_row_witness :
  exists c m1 o,
    build_orders_dataframe 0 1 2 3 4 sample_store
    = OK ((length sample_store + 2)%nat, sample_store ++ [c; m1; o]) /\
    (len sample_budapest + len sample_london + len sample_ny <= len o)%nat /\
    (NoDup [VStr "mojito"; VStr "negroni"] ->
     NoDup [VStr "budapest"; VStr "new york"; VStr "london"] ->
     len o = (len sample_budapest + len sample_london + len sample_ny)%nat).
Proof.
  apply (orders_join_keeps_every_row sample_store 0 1 2 3 4
           sample_drinks bars_frame sample_budapest sample_london sample_ny);
    try reflexivity; (split; [reflexivity|repeat constructor]).
Defined.

Lemma cleaned_row_length b r :
  cleaned_orders b -> r ∈ data b -> length r = 4%nat.
Proof.
  intros [_ Hr] Hin. unfold data in Hin.
  apply list_elem_of_fmap in Hin as (p & -> & Hp).
  rewrite Forall_forall in Hr. now apply Hr.
Qed.

Lemma join_row_some lo ro i j w rs l :
  exists t, l ++ t ∈ join_row lo ro i j w rs l.
Proof.
  pose proof (join_row_nonempty lo ro i j w rs l) as Hlen.
  destruct (join_row lo ro i j w rs l) as [|x xs] eqn:Hj; [simpl in Hlen; lia|].
  assert (Hx : x ∈ join_row lo ro i j w rs l) by (rewrite Hj; left).
  destruct (join_row_prefix _ _ _ _ _ _ _ _ Hx) as [t ->].
  exists t. left.
Qed.



(** ** [get_drinks_data] and [build_drinks_dataframe] *)

Lemma get_drinks_data_run http url st :
  get_drinks_data http url st
  = match http url with
    | None => OK (None, st)
    | Some drinks =>
        match letter_frame drinks with
        | OK f => OK (Some (length st), st ++ [f])
        | Raise e => Raise e
        end
    end.
Proof.
  unfold get_drinks_data, letter_frame. destruct (http url) as [drinks|]; [|done].
  unfold bind at 1, lift at 1.
  destruct (project _ _) as [d1|]; [cbn [rbind]|done].
  unfold bind at 1, lift at 1.
  destruct (applymap _ _) as [d2|]; [cbn [rbind]|done].
  unfold bind at 1. cbn [new]. unfold bind at 1.
  rewrite inplace_last. now destruct (set_columns _ d2).
Qed.

Lemma responses_cons http letter letters :
  responses http (letter :: letters)
  = match http (search_url letter) with
    | Some drinks => drinks :: responses http letters
    | None => responses http letters
    end.
Proof. reflexivity. Qed.

Lemma fetch_letters_run http letters df_list st :
  fetch_letters http letters df_list st
  = match mapM letter_frame (responses http letters) with
    | OK fs => OK (df_list ++ seq (length st) (length fs), st ++ fs)
    | Raise e => Raise e
    end.
Proof.
  revert df_list st. induction letters as [|letter letters IH]; intros df_list st.
  - simpl. unfold ret. now rewrite !app_nil_r.
  - cbn [fetch_letters]. rewrite responses_cons.
    unfold bind. rewrite get_drinks_data_run.
    destruct (http (search_url letter)) as [drinks|]; [|apply IH].
    cbn [mapM]. destruct (letter_frame drinks) as [f|]; [cbn [rbind]|done].
    rewrite IH. destruct (mapM letter_frame _) as [fs|]; [cbn [rbind]|done].
    rewrite length_app, <- !app_assoc. simpl. now rewrite Nat.add_1_r.
Qed.

Lemma load_all_fresh (st fs : list DataFrame) :
  load_all (seq (length st) (length fs)) (st ++ fs) = OK (fs, st ++ fs).
Proof.
  unfold load_all.
  enough (H : mapM (fun r => match (st ++ fs) !! r with
                             | Some d => OK d
                             | None => Raise InvalidRef
                             end) (seq (length st) (length fs)) = OK fs)
    by now rewrite H.
  revert st. induction fs as [|f fs IH]; intros st; [done|].
  cbn [length seq mapM]. rewrite list_lookup_middle by done. cbn [rbind].
  specialize (IH (st ++ [f])). rewrite <- app_assoc, length_app in IH.
  simpl in IH. rewrite Nat.add_1_r in IH. now rewrite IH.
Qed.

(** C10.  When the catalog has no entry for any of the letters, the drinks
    builder raises the exception of [pd.concat] on an empty list: no drinks
    table, empty or not, is returned. *)
Theorem build_drinks_without_entries_raises (http : catalog) st :
  (forall letter, letter ∈ ascii_lowercase -> http (search_url letter) = None) ->
  build_drinks_dataframe http st = Raise ValueError.
Proof.
  intros Hnull. unfold build_drinks_dataframe.
  apply bind_inv_raise_second with (a := []) (st1 := st).
  - rewrite fetch_letters_run.
    assert (Hr : responses http ascii_lowercase = []).
    { generalize ascii_lowercase Hnull.
      induction l as [|x l IH]; intros H; [done|].
      rewrite responses_cons, H by left. apply IH. intros y Hy. apply H. now right. }
    rewrite Hr. simpl. now rewrite app_nil_r.
  - reflexivity.
Qed.

Lemma build_drinks_without_entries_raises_witness :
  build_drinks_dataframe (fun _ => None) [] = Raise ValueError.
Proof.
  apply (build_drinks_without_entries_raises (fun _ => None) []).
  intros letter _. reflexivity.
Defined.

(** ** Removing repetitions *)

Section Dedup.
Context {A B : Type} `{EqDecision B} (f : A -> B).

Lemma filter_all (P : A -> Prop) `{forall x, Decision (P x)} (l : list A) :
  (forall x, x ∈ l -> P x) -> filter P l = l.
Proof.
  induction l as [|x l IH]; intros HP; [done|].
  rewrite filter_cons_True by (apply HP; left).
  rewrite IH; [done|]. intros y Hy. apply HP. now right.
Qed.

Lemma filter_none (P : A -> Prop) `{forall x, Decision (P x)} (l : list A) :
  (forall x, x ∈ l -> ~ P x) -> filter P l = [].
Proof.
  induction l as [|x l IH]; intros HP; [done|].
  rewrite filter_cons_False by (apply HP; left).
  apply IH. intros y Hy. apply HP. now right.
Qed.

Lemma dedup_by_elem l x : x ∈ dedup_by f l -> x ∈ l.
Proof.
  induction l as [|y l IH]; simpl; [done|].
  intros [->|Hx]%elem_of_cons; [left|right].
  apply list_elem_of_filter in Hx as [_ Hx]. now apply IH.
Qed.

Lemma dedup_by_keys l x : x ∈ l -> f x ∈ map f (dedup_by f l).
Proof.
  induction l as [|y l IH]; [by intros ?%elem_of_nil|].
  intros Hx. simpl. destruct (decide (f x = f y)) as [->|Hne]; [left|].
  right. apply elem_of_cons in Hx as [->|Hx]; [done|].
  apply list_elem_of_fmap in IH as (z & Hz & Hin); [|done].
  apply list_elem_of_fmap. exists z. split; [done|].
  apply list_elem_of_filter. split; [congruence|done].
Qed.

Lemma map_filter_NoDup (P : A -> Prop) `{forall x, Decision (P x)} (l : list A) :
  NoDup (map f l) -> NoDup (map f (filter P l)).
Proof.
  induction l as [|x l IH]; simpl; [done|].
  intros [Hx Hnd]%NoDup_cons. rewrite filter_cons.
  destruct (decide (P x)); [|auto]. simpl. apply NoDup_cons. split; [|auto].
  intros (z & Hz & Hin)%list_elem_of_fmap.
  apply list_elem_of_filter in Hin as [_ Hin].
  apply Hx, list_elem_of_fmap. eauto.
Qed.

Lemma dedup_by_NoDup l : NoDup (map f (dedup_by f l)).
Proof.
  induction l as [|y l IH]; simpl; [constructor|].
  apply NoDup_cons. split; [|now apply map_filter_NoDup].
  intros (z & Hz & Hin)%list_elem_of_fmap.
  apply list_elem_of_filter in Hin as [Hne _]. congruence.
Qed.

Lemma dedup_by_id l : NoDup (map f l) -> dedup_by f l = l.
Proof.
  induction l as [|y l IH]; simpl; [done|].
  intros [Hy Hnd]%NoDup_cons. rewrite IH by done. f_equal.
  apply filter_all. intros z Hz Heq. apply Hy, list_elem_of_fmap. eauto.
Qed.

Lemma dedup_by_app l m :
  dedup_by f (l ++ m)
  = dedup_by f l ++ filter (fun y => f y ∉ map f l) (dedup_by f m).
Proof.
  induction l as [|x l IH]; simpl.
  - symmetry. apply filter_all. intros y _. apply not_elem_of_nil.
  - f_equal. rewrite IH, filter_app. f_equal.
    rewrite list_filter_filter. apply list_filter_iff.
    intros y. rewrite not_elem_of_cons. tauto.
Qed.

End Dedup.

Lemma dedup_repeated (cols rest : list string) :
  NoDup cols -> (forall c, c ∈ rest -> c ∈ cols) -> dedup (cols ++ rest) = cols.
Proof.
  intros Hnd Hsub. unfold dedup. rewrite dedup_by_app.
  rewrite dedup_by_id by now rewrite map_id.
  rewrite filter_none; [apply app_nil_r|].
  intros c Hc Hno. apply Hno. rewrite map_id.
  apply Hsub. now apply dedup_by_elem in Hc.
Qed.

(** ** Results of [mapM] *)

Lemma mapM_length {A B} (f : A -> result B) l l' :
  mapM f l = OK l' -> length l' = length l.
Proof.
  revert l'. induction l as [|x l IH]; intros l' H; simpl in H.
  - now inversion H.
  - destruct (f x); [|done]. simpl in H.
    destruct (mapM f l) as [ys|]; [|done]. inversion H. simpl.
    now rewrite (IH ys).
Qed.

Lemma mapM_OK_map {A B} (f : A -> B) l : mapM (fun x => OK (f x)) l = OK (map f l).
Proof. induction l as [|x l IH]; simpl; [done|]. now rewrite IH. Qed.

Lemma mapM_ext {A B} (f g : A -> result B) l :
  (forall x, x ∈ l -> f x = g x) -> mapM f l = mapM g l.
Proof.
  induction l as [|x l IH]; intros H; [done|]. simpl.
  rewrite H by left. rewrite IH; [done|]. intros y Hy. apply H. now right.
Qed.

Lemma mapM_map {A B C} (g : A -> B) (f : B -> result C) l :
  mapM f (map g l) = mapM (fun x => f (g x)) l.
Proof. induction l as [|x l IH]; simpl; [done|]. now rewrite IH. Qed.

(** ** Frames with the same columns, concatenated *)

Lemma reindex_id cols r :
  NoDup cols -> length r = length cols -> reindex cols cols r = r.
Proof.
  unfold reindex. revert r. induction cols as [|c cols IH]; intros r Hnd Hlen.
  - now destruct r.
  - destruct r as [|v r]; [done|]. apply NoDup_cons in Hnd as [Hc Hnd].
    cbn [map col_pos]. rewrite bool_decide_eq_true_2 by done. f_equal.
    transitivity (map (fun c0 => match col_pos c0 cols with
                                 | Some i => cell i r
                                 | None => VNull
                                 end) cols);
      [|apply IH; [done|simpl in Hlen; lia]].
    apply map_ext_in. intros c' Hc'%list_elem_of_In.
    rewrite bool_decide_eq_false_2 by (intros ->; done).
    now destruct (col_pos c' cols).
Qed.

Lemma map_label_from k (g : list value -> list value) rs :
  map (fun p : Z * list value => (p.1, g p.2)) (label_from k rs)
  = label_from k (map g rs).
Proof.
  revert k. induction rs as [|r rs IH]; intros k; simpl; [done|].
  now rewrite IH.
Qed.

Lemma mapM_label_from k (g : list value -> result (list value)) rs :
  mapM (fun p : Z * list value => rmap (pair p.1) (g p.2)) (label_from k rs)
  = rmap (label_from k) (mapM g rs).
Proof.
  revert k. induction rs as [|r rs IH]; intros k; simpl; [done|].
  rewrite IH. destruct (g r); [|done]. simpl.
  now destruct (mapM g rs).
Qed.

Lemma concat_same_columns cols fs :
  NoDup cols -> fs <> [] -> Forall (same_columns cols) fs ->
  exists c, pd_concat fs = OK c /\ columns c = cols /\
            data c = flat_map data fs.
Proof.
  intros Hnd Hne Hfs.
  assert (Hcols : dedup (flat_map columns fs) = cols).
  { destruct fs as [|f fs]; [done|]. simpl.
    apply Forall_cons in Hfs as [[Hf _] Hfs]. rewrite Hf.
    apply dedup_repeated; [done|].
    intros c (g & Hg & Hc)%elem_of_flat_map.
    rewrite Forall_forall in Hfs. destruct (Hfs g Hg) as [<- _]. done. }
  destruct fs as [|f0 fs0] eqn:Efs; [done|]. rewrite <- Efs in *.
  exists {| index_name := common_name fs;
            columns := dedup (flat_map columns fs);
            rows := flat_map
                      (fun d => map (fun p : Z * list value =>
                                       (p.1, reindex (columns d)
                                               (dedup (flat_map columns fs)) p.2))
                                    (rows d)) fs |}.
  split; [now rewrite Efs|]. split; [done|].
  unfold data at 1. cbn [rows]. rewrite Hcols. clear Efs Hne Hcols.
  induction Hfs as [|f fs [Hf Hr] Hfs IH]; [done|].
  simpl. rewrite map_app, IH. f_equal.
  rewrite Hf. unfold data. rewrite map_map. simpl.
  apply map_ext_Forall. eapply Forall_impl; [exact Hr|].
  intros p Hp. now apply reindex_id.
Qed.

(** ** The frame of one letter *)

Lemma cell_at_col_pos (g : string -> value) cols c i :
  col_pos c cols = Some i -> cell i (map g cols) = g c.
Proof.
  revert i. induction cols as [|c' cols IH]; intros i; simpl; [done|].
  case_bool_decide as Hc; [intros [= <-]; now subst|].
  destruct (col_pos c cols) as [k|]; [|done]. intros [= <-]. now apply IH.
Qed.

Lemma positions_cells (g : string -> value) cols names ps :
  mapM (fun c => match col_pos c cols with
                 | Some i => OK i
                 | None => Raise KeyError
                 end) names = OK ps ->
  map (fun i => cell i (map g cols)) ps = map g names.
Proof.
  revert ps. induction names as [|c names IH]; intros ps H; simpl in H.
  - now inversion H.
  - destruct (col_pos c cols) as [i|] eqn:Hi; [simpl in H|done].
    destruct (mapM _ names) as [ps'|]; [|done]. inversion H. simpl.
    now rewrite (cell_at_col_pos g cols c i Hi), (IH ps').
Qed.

Lemma project_normalize names drinks d :
  project names (json_normalize drinks) = OK d ->
  d = {| index_name := None;
         columns := names;
         rows := label_from 0 (map (fun e => map (entry_cell e) names) drinks) |}.
Proof.
  unfold project, json_normalize. cbn [columns rows index_name].
  set (cols := dedup (flat_map (map fst) drinks)).
  destruct (mapM _ names) as [ps|] eqn:Hps; [|done]. simpl.
  intros [= <-]. f_equal.
  rewrite (map_label_from 0 (fun r => map (fun i => cell i r) ps)).
  f_equal. rewrite map_map. apply map_ext. intros e.
  now apply positions_cells.
Qed.

Lemma letter_frame_inv drinks f :
  letter_frame drinks = OK f ->
  exists rs, mapM entry_row drinks = OK rs /\
             f = {| index_name := None;
                    columns := letter_columns;
                    rows := label_from 0 rs |}.
Proof.
  unfold letter_frame.
  destruct (project _ _) as [d|] eqn:Hd; [|done].
  apply project_normalize in Hd. subst d. cbn [rbind].
  unfold applymap. cbn [rows columns index_name].
  rewrite mapM_label_from, mapM_map.
  fold entry_row.
  change (fun x : json_object =>
            mapM py_lower (map (entry_cell x) ["idDrink"; "strDrink"; "strGlass"]))
    with entry_row.
  destruct (mapM entry_row drinks) as [rs|]; [|done].
  simpl. intros [= <-]. now exists rs.
Qed.

Lemma entry_row_length e r : entry_row e = OK r -> length r = 3%nat.
Proof. intros H. now apply mapM_length in H. Qed.

Lemma mapM_Forall {A B} (f : A -> result B) (P : B -> Prop) l l' :
  (forall x y, f x = OK y -> P y) -> mapM f l = OK l' -> Forall P l'.
Proof.
  intros Hf. revert l'. induction l as [|x l IH]; intros l' H; simpl in H.
  - inversion H. constructor.
  - destruct (f x) as [y|] eqn:Hy; [simpl in H|done].
    destruct (mapM f l) as [ys|]; [|done]. inversion H.
    constructor; eauto.
Qed.

Lemma Forall_label_from (P : list value -> Prop) k rs :
  Forall P rs -> Forall (fun p : Z * list value => P p.2) (label_from k rs).
Proof.
  intros H. revert k. induction H; intros k; simpl; constructor; auto.
Qed.

Lemma letter_frame_columns drinks f :
  letter_frame drinks = OK f -> same_columns letter_columns f.
Proof.
  intros (rs & Hrs & ->)%letter_frame_inv. split; [done|]. simpl.
  apply (Forall_label_from (fun r => length r = 3%nat)).
  eapply mapM_Forall; [|exact Hrs]. apply entry_row_length.
Qed.

Lemma build_drinks_run http st :
  build_drinks_dataframe http st
  = match mapM letter_frame (responses http ascii_lowercase) with
    | OK fs =>
        match pd_concat fs with
        | OK c =>
            match create_index_df "drink_id" c with
            | OK d => OK ((length st + length fs)%nat, st ++ fs ++ [d])
            | Raise e => Raise e
            end
        | Raise e => Raise e
        end
    | Raise e => Raise e
    end.
Proof.
  unfold build_drinks_dataframe. unfold bind at 1.
  rewrite fetch_letters_run.
  destruct (mapM letter_frame _) as [fs|]; [|done]. cbn [app].
  unfold bind at 1, concat. unfold bind at 1. rewrite load_all_fresh.
  unfold bind at 1, lift. destruct (pd_concat fs) as [c|]; [|done].
  cbn [new]. unfold bind at 1. rewrite create_index_last.
  destruct (create_index_df _ c) as [d|]; [|done].
  unfold ret. now rewrite length_app, <- app_assoc.
Qed.

Lemma mapM_Forall2 {A B} (f : A -> result B) l l' :
  mapM f l = OK l' -> Forall2 (fun x y => f x = OK y) l l'.
Proof.
  revert l'. induction l as [|x l IH]; intros l' H; simpl in H.
  - inversion H. constructor.
  - destruct (f x) as [y|] eqn:Hy; [simpl in H|done].
    destruct (mapM f l) as [ys|]; [|done]. inversion H.
    constructor; auto.
Qed.

Lemma build_drinks_ok (http : catalog) st frames :
  mapM letter_frame (responses http ascii_lowercase) = OK frames ->
  frames <> [] ->
  exists d,
    build_drinks_dataframe http st
    = OK ((length st + length frames)%nat, st ++ frames ++ [d]) /\
    columns d = drinks_columns /\
    get_column d "drink_id" = OK (keys (len d)) /\
    data d = number_from 1 (flat_map data frames).
Proof.
  intros Hfs Hne.
  assert (Hsame : Forall (same_columns letter_columns) frames)
    by (eapply mapM_Forall; [|exact Hfs]; apply letter_frame_columns).
  destruct (concat_same_columns letter_columns frames)
    as (c & Hc & Hcc & Hdc); [by compute_done|done|done|].
  assert (Hfresh : "drink_id" ∉ columns c) by (rewrite Hcc; compute_done).
  exists (indexed "drink_id" c). split; [|split; [|split]].
  - rewrite build_drinks_run, Hfs, Hc. unfold create_index_df.
    now rewrite bool_decide_eq_false_2.
  - simpl. now rewrite Hcc.
  - rewrite len_indexed. now apply indexed_keys.
  - unfold indexed, data at 1. cbn [rows]. rewrite data_label_from.
    now rewrite Hdc.
Qed.

(** C7.  A letter whose response has a null [drinks] field makes
    [get_drinks_data] return [None] without an exception and without a new
    frame, and it is left out of the list that is concatenated: when the
    frames of the other letters can be built and there is one at least, the
    drinks table is returned and its rows are, behind the [drink_id] key,
    the rows of those frames in the order of the letters, every frame
    holding the lower-cased id, name and glass of the entries of its
    response. *)
Theorem letters_without_entries_add_nothing (http : catalog) st frames :
  mapM letter_frame (responses http ascii_lowercase) = OK frames ->
  frames <> [] ->
  (forall letter st0,
     http (search_url letter) = None ->
     get_drinks_data http (search_url letter) st0 = OK (None, st0)) /\
  Forall2 (fun drinks f => mapM entry_row drinks = OK (data f))
          (responses http ascii_lowercase) frames /\
  exists d,
    build_drinks_dataframe http st
    = OK ((length st + length frames)%nat, st ++ frames ++ [d]) /\
    columns d = drinks_columns /\
    get_column d "drink_id" = OK (keys (len d)) /\
    map (drop 1) (data d) = flat_map data frames.
Proof.
  intros Hfs Hne. split; [|split].
  - intros letter st0 Hnull. rewrite get_drinks_data_run. now rewrite Hnull.
  - apply mapM_Forall2 in Hfs. eapply Forall2_impl; [exact Hfs|].
    intros drinks f (rs & Hrs & ->)%letter_frame_inv.
    unfold data. simpl. now rewrite data_label_from.
  - destruct (build_drinks_ok http st frames Hfs Hne)
      as (d & Hrun & Hcols & Hkeys & Hdata).
    exists d. split; [done|]. split; [done|]. split; [done|].
    rewrite Hdata. apply number_from_tail.
Qed.

Lemma letters_without_entries_add_nothing_witness :
  (forall letter st0,
     sample_catalog (search_url letter) = None ->
     get_drinks_data sample_catalog (search_url letter) st0 = OK (None, st0)) /\
  Forall2 (fun drinks f => mapM entry_row drinks = OK (data f))
          (responses sample_catalog ascii_lowercase) sample_frames /\
  exists d,
    build_drinks_dataframe sample_catalog []
    = OK ((length (@nil DataFrame) + length sample_frames)%nat,
          [] ++ sample_frames ++ [d]) /\
    columns d = drinks_columns /\
    get_column d "drink_id" = OK (keys (len d)) /\
    map (drop 1) (data d) = flat_map data sample_frames.
Proof.
  apply (letters_without_entries_add_nothing sample_catalog [] sample_frames).
  - vm_compute. reflexivity.
  - discriminate.
Defined.

(** ** Sorting string keys *)

#[local] Instance row_le_total i : Total (row_le i).
Proof.
  intros p q. unfold row_le.
  destruct (key_leb (cell i q.2) (cell i p.2)),
    (key_leb (cell i p.2) (cell i q.2)); simpl; auto.
Qed.

Lemma ltb_of_leb a b :
  (String.leb a b || negb (String.leb b a)) = true -> a <> b ->
  String.ltb a b = true.
Proof.
  unfold String.leb, String.ltb. rewrite (String.compare_antisym b a).
  destruct (String.compare a b) eqn:Hc; simpl; try done.
  intros _ Hne. now apply String.compare_eq_iff in Hc.
Qed.

Lemma ltb_trans a b c :
  String.ltb a b = true -> String.ltb b c = true -> String.ltb a c = true.
Proof.
  unfold String.ltb.
  destruct (String.compare a b) eqn:Hab; try done.
  destruct (String.compare b c) eqn:Hbc; try done. intros _ _.
  apply OrderedTypeEx.String_as_OT.cmp_lt in Hab, Hbc.
  pose proof (OrderedTypeEx.String_as_OT.lt_trans _ _ _ Hab Hbc) as Hac.
  apply OrderedTypeEx.String_as_OT.cmp_lt in Hac.
  unfold OrderedTypeEx.String_as_OT.cmp in Hac. now rewrite Hac.
Qed.

#[local] Instance value_lt_trans : Transitive value_lt.
Proof.
  intros [| |?|a] [| |?|b] [| |?|c]; simpl; try done. apply ltb_trans.
Qed.

Lemma row_le_strings i p q :
  row_le i p q -> is_str (cell i p.2) -> is_str (cell i q.2) ->
  cell i p.2 <> cell i q.2 -> value_lt (cell i p.2) (cell i q.2).
Proof.
  unfold row_le, key_leb.
  destruct (cell i p.2) as [| |?|a], (cell i q.2) as [| |?|b]; simpl; try done.
  intros H _ _ Hne. apply ltb_of_leb; [now apply Is_true_true|congruence].
Qed.

Lemma sorted_string_keys i (S : list (Z * list value)) :
  Sorted (row_le i) S ->
  Forall (fun p => is_str (cell i p.2)) S ->
  NoDup (map (fun p => cell i p.2) S) ->
  Sorted value_lt (map (fun p => cell i p.2) S).
Proof.
  induction 1 as [|p S HS IH Hhd]; intros Hstr Hnd; simpl; [constructor|].
  apply Forall_cons in Hstr as [Hp Hstr].
  simpl in Hnd. apply NoDup_cons in Hnd as [Hnp Hnd].
  constructor; [auto|].
  destruct Hhd as [|q S' Hpq]; simpl; constructor.
  apply Forall_cons in Hstr as [Hq _].
  apply row_le_strings; try done.
  intros Heq. apply Hnp. rewrite Heq. left.
Qed.

(** ** [build_glasses_dataframe] *)

Lemma build_glasses_run st df_drinks d :
  st !! df_drinks = Some d ->
  build_glasses_dataframe df_drinks st
  = match glasses_frame d with
    | OK g => OK (length st, st ++ [g])
    | Raise e => Raise e
    end.
Proof.
  intros Hd. unfold build_glasses_dataframe, glasses_frame.
  erewrite bind_ok by (apply load_ok; eauto).
  unfold bind at 1, lift. destruct (project _ d) as [d1|]; [cbn [rbind]|done].
  unfold bind at 1. cbn [new]. unfold bind at 1. rewrite inplace_last.
  unfold bind at 1. rewrite inplace_last.
  destruct (sort_values _ _) as [d2|]; [cbn [rbind]|done].
  unfold bind at 1. rewrite create_index_last.
  now destruct (create_index_df _ d2).
Qed.

Lemma one_string_key p : one_string p -> p.2 = [cell 0 p.2].
Proof. intros [s Hs]. now rewrite Hs. Qed.

Lemma one_string_is_str p : one_string p -> is_str (cell 0 p.2).
Proof. intros [s Hs]. now rewrite Hs. Qed.

Lemma one_string_rows (l : list (Z * list value)) :
  Forall one_string l ->
  map snd l = map (fun v => [v]) (map (fun p => cell 0 p.2) l).
Proof.
  induction 1 as [|p l Hp _ IH]; simpl; [done|].
  now rewrite <- IH, <- (one_string_key p Hp).
Qed.

Lemma sortable_strings (l : list (Z * list value)) :
  Forall one_string l -> sortable (map (cell 0) (map snd l)) = true.
Proof.
  intros H. unfold sortable. apply orb_true_iff. left.
  apply forallb_forall. intros v Hv. rewrite map_map in Hv.
  apply in_map_iff in Hv as (p & <- & Hp%list_elem_of_In).
  rewrite Forall_forall in H. destruct (H p Hp) as [s Hs].
  now rewrite Hs.
Qed.

Lemma glasses_frame_ok d names :
  get_column d "glass_name" = OK names ->
  Forall (fun v => is_str v) names ->
  exists g sorted,
    glasses_frame d = OK g /\
    columns g = ["glass_id"; "glass_name"] /\
    data g = number_from 1 (map (fun v => [v]) sorted) /\
    NoDup sorted /\
    (forall v, v ∈ sorted <-> v ∈ names) /\
    StronglySorted value_lt sorted.
Proof.
  unfold get_column. destruct (col_pos _ _) as [i|] eqn:Hi; [|done].
  intros [= <-] Hstr. unfold glasses_frame, project. cbn [mapM].
  rewrite Hi. cbn [rbind]. unfold sort_values, drop_duplicates, data.
  cbn [columns rows index_name map].
  set (rows1 := map (fun p : Z * list value => (p.1, [cell i p.2])) (rows d)).
  set (L := dedup_by snd rows1).
  set (S := merge_sort (row_le 0) L).
  assert (Hkeys1 : map (fun p : Z * list value => cell 0 p.2) rows1
                   = map (cell i) (map snd (rows d))).
  { unfold rows1. rewrite !map_map. now apply map_ext. }
  assert (H1 : Forall one_string rows1).
  { apply Forall_forall. intros p (q & -> & Hq)%list_elem_of_fmap.
    rewrite Forall_forall in Hstr.
    assert (Hc : cell i q.2 ∈ map (cell i) (map snd (rows d))).
    { rewrite map_map. apply list_elem_of_fmap. eauto. }
    specialize (Hstr _ Hc). unfold one_string. simpl.
    destruct (cell i q.2); try done. eauto. }
  assert (HL : Forall one_string L).
  { apply Forall_forall. intros p Hp%dedup_by_elem.
    rewrite Forall_forall in H1. auto. }
  assert (HP : S ≡ₚ L) by apply merge_sort_Permutation.
  assert (HS : Forall one_string S) by now rewrite HP.
  change (col_pos "glass_name" ["glass_name"]) with (Some 0%nat). cbv iota.
  rewrite (sortable_strings L HL). cbn [rbind].
  unfold create_index_df. cbn [columns].
  rewrite bool_decide_eq_false_2 by compute_done.
  exists (indexed "glass_id"
            {| index_name := index_name d; columns := ["glass_name"]; rows := S |}),
         (map (fun p : Z * list value => cell 0 p.2) S).
  split; [done|]. split; [done|]. split.
  { unfold indexed, data. cbn [rows columns]. rewrite data_label_from.
    now rewrite one_string_rows. }
  assert (HndL : NoDup (map (fun p : Z * list value => cell 0 p.2) L)).
  { apply (NoDup_fmap_1 (fun v => [v])). rewrite <- one_string_rows by done.
    apply dedup_by_NoDup. }
  assert (Hnd : NoDup (map (fun p : Z * list value => cell 0 p.2) S))
    by now rewrite HP.
  split; [done|]. split.
  - intros v. rewrite HP, <- Hkeys1. split.
    + intros (p & -> & Hp%dedup_by_elem)%list_elem_of_fmap.
      apply list_elem_of_fmap. eauto.
    + intros (p & -> & Hp)%list_elem_of_fmap.
      pose proof (dedup_by_keys snd rows1 p Hp) as Hk. fold L in Hk.
      apply list_elem_of_fmap in Hk as (q & Hq & HqL).
      apply list_elem_of_fmap. exists q. split; [|done]. now rewrite Hq.
  - apply Sorted_StronglySorted; [apply _|].
    apply sorted_string_keys; [apply Sorted_merge_sort, _| |done].
    eapply Forall_impl; [exact HS|]. apply one_string_is_str.
Qed.






Lemma build_glasses_ok st df_drinks d names :
  st !! df_drinks = Some d ->
  get_column d "glass_name" = OK names ->
  Forall (fun v => is_str v) names ->
  exists g sorted,
    build_glasses_dataframe df_drinks st = OK (length st, st ++ [g]) /\
    columns g = ["glass_id"; "glass_name"] /\
    get_column g "glass_name" = OK sorted /\
    get_column g "glass_id" = OK (keys (length sorted)) /\
    NoDup sorted /\
    (forall v, v ∈ sorted <-> v ∈ names) /\
    StronglySorted value_lt sorted.
Proof.
  intros Hd Hnames Hstr.
  destruct (glasses_frame_ok d names Hnames Hstr)
    as (g & sorted & Hg & Hcols & Hdata & Hnd & Hmem & Hsorted).
  exists g, sorted. split; [now rewrite (build_glasses_run _ _ d), Hg|].
  split; [done|].
  assert (Hlen : length (map (fun v : value => [v]) sorted) = length sorted)
    by apply length_map.
  split.
  { rewrite (get_column_at g "glass_name" 1) by now rewrite Hcols.
    rewrite Hdata. f_equal. clear. generalize 1.
    induction sorted as [|v l IH]; intros k; simpl; [done|].
    now rewrite IH. }
  split; [|done].
  rewrite (get_column_at g "glass_id" 0) by now rewrite Hcols.
  rewrite Hdata, (number_from_keys 1). unfold keys. now rewrite Hlen.
Qed.



(** On the sample catalog, "Cocktail glass" and "Cocktail Glass" are one row
    of the glasses table. *)
Example glasses_of_the_sample_catalog :
  match (df <- build_drinks_dataframe sample_catalog ;;
         build_glasses_dataframe df) [] with
  | OK (r, st') => data <$> st' !! r
  | Raise _ => None
  end
  = Some [[VInt 1; VStr "cocktail glass"]; [VInt 2; VStr "highball glass"]].
Proof. vm_compute. reflexivity. Qed.

(** ** [build_inventory_dataframe] *)

Lemma build_inventory_run st csv df_bars df_glasses bars glasses :
  st !! df_bars = Some bars -> st !! df_glasses = Some glasses ->
  build_inventory_dataframe csv df_bars df_glasses st
  = match inventory_frames csv bars glasses with
    | OK (a, m1, o) => OK ((length st + 2)%nat, st ++ [a; m1; o])
    | Raise e => Raise e
    end.
Proof.
  intros Hbars Hglasses. unfold build_inventory_dataframe, inventory_frames.
  unfold bind at 1. cbn [new]. unfold bind at 1. rewrite inplace_last.
  destruct (apply_column "stock" _ csv) as [a0|]; [cbn [rbind]|done].
  unfold bind at 1. rewrite inplace_last.
  destruct (apply_column "glass_type" _ a0) as [a|]; [cbn [rbind]|done].
  unfold bind at 1.
  rewrite (merge_run _ _ _ a bars)
    by (apply lookup_last || now apply lookup_app_l_Some).
  destruct (merge_left a bars _ _) as [m1|]; [cbn [rbind]|done].
  unfold bind at 1.
  rewrite (merge_run _ _ _ m1 glasses)
    by (apply lookup_last || now do 2 apply lookup_app_l_Some).
  destruct (merge_left m1 glasses _ _) as [m2|]; [cbn [rbind]|done].
  unfold bind at 1. rewrite inplace_last.
  unfold bind at 1. rewrite create_index_last.
  destruct (create_index_df _ _) as [o|]; [cbn [rbind]|done].
  unfold ret. rewrite !length_app. simpl.
  rewrite <- !app_assoc. simpl. do 2 f_equal. lia.
Qed.

(** *** Cells of a row *)



Lemma cell_app_l i (r t : list value) :
  (i < length r)%nat -> cell i (r ++ t) = cell i r.
Proof. intros H. unfold cell. now apply app_nth1. Qed.

Lemma cell_app_r i (r t : list value) :
  cell (length r + i) (r ++ t) = cell i t.
Proof.
  unfold cell. rewrite app_nth2 by lia. f_equal. lia.
Qed.

Lemma col_pos_lt c cols i : col_pos c cols = Some i -> (i < length cols)%nat.
Proof.
  revert i. induction cols as [|c' cols IH]; intros i; simpl; [done|].
  case_bool_decide; [intros [= <-]; lia|].
  destruct (col_pos c cols) as [k|]; [|done]. intros [= <-].
  specialize (IH k eq_refl). lia.
Qed.

Lemma col_pos_lookup c cols i : col_pos c cols = Some i -> cols !! i = Some c.
Proof.
  revert i. induction cols as [|c' cols IH]; intros i; simpl; [done|].
  case_bool_decide as Hc; [intros [= <-]; now subst|].
  destruct (col_pos c cols) as [k|]; [|done]. intros [= <-]. now apply IH.
Qed.

Lemma col_pos_app_l c cols more i :
  col_pos c cols = Some i -> col_pos c (cols ++ more) = Some i.
Proof.
  revert i. induction cols as [|c' cols IH]; intros i; simpl; [done|].
  case_bool_decide; [done|].
  destruct (col_pos c cols) as [k|]; [|done]. intros [= <-].
  now rewrite (IH k).
Qed.

Lemma col_pos_app_r c cols more j :
  c ∉ cols -> col_pos c more = Some j ->
  col_pos c (cols ++ more) = Some (length cols + j)%nat.
Proof.
  intros Hno Hj. induction cols as [|c' cols IH]; simpl; [done|].
  apply not_elem_of_cons in Hno as [Hne Hno].
  rewrite bool_decide_eq_false_2 by done. now rewrite IH.
Qed.

Lemma col_pos_elem c cols i : col_pos c cols = Some i -> c ∈ cols.
Proof.
  intros H%col_pos_lookup. apply list_elem_of_lookup. eauto.
Qed.

(** *** A function applied down a column *)

Lemma apply_column_inv c f d a :
  apply_column c f d = OK a ->
  exists i,
    col_pos c (columns d) = Some i /\
    columns a = columns d /\
    Forall2 (fun p p' : Z * list value =>
               exists v, f (cell i p.2) = OK v /\ p'.2 = <[i := v]> p.2)
            (rows d) (rows a).
Proof.
  unfold apply_column. destruct (col_pos c (columns d)) as [i|]; [|done].
  destruct (mapM _ (rows d)) as [rs|] eqn:Hrs; [|done].
  simpl. intros [= <-]. exists i. split; [done|]. split; [done|]. simpl.
  apply mapM_Forall2 in Hrs. eapply Forall2_impl; [exact Hrs|].
  intros p p' Hp. simpl in Hp. destruct (f (cell i p.2)) as [v|]; [|done].
  simpl in Hp. injection Hp as <-. now exists v.
Qed.

Lemma Forall2_data {P : list value -> list value -> Prop}
    (l l' : list (Z * list value)) :
  Forall2 (fun p p' => P p.2 p'.2) l l' -> Forall2 P (map snd l) (map snd l').
Proof. induction 1; simpl; constructor; auto. Qed.

(** *** Column names of a join of frames without common names *)

Lemma merge_columns_disjoint lcols rcols lo ro j :
  lo <> ro -> (forall c, c ∈ lcols -> c ∉ rcols) ->
  merge_columns lcols rcols lo ro j = lcols ++ rcols.
Proof.
  intros Hne Hdis. unfold merge_columns, merge_keep.
  rewrite bool_decide_eq_false_2 by done.
  rewrite (filter_none (fun c => c ∈ rcols) lcols) by exact Hdis.
  f_equal.
  - rewrite <- (map_id lcols) at 2. apply map_ext. intros c.
    rewrite bool_decide_eq_false_2 by (intros [_ ?]; done).
    now rewrite bool_decide_eq_false_2 by apply not_elem_of_nil.
  - rewrite <- (map_id rcols) at 2. apply map_ext. intros c.
    now rewrite bool_decide_eq_false_2 by apply not_elem_of_nil.
Qed.

Lemma merge_left_disjoint l r lo ro i j :
  lo <> ro -> (forall c, c ∈ columns l -> c ∉ columns r) ->
  col_pos lo (columns l) = Some i -> col_pos ro (columns r) = Some j ->
  merge_left l r lo ro
  = OK {| index_name := None;
          columns := columns l ++ columns r;
          rows := label_from 0
                    (flat_map
                       (join_row lo ro i j (length (columns r)) (data r))
                       (data l)) |}.
Proof.
  intros Hne Hdis Hi Hj. rewrite (merge_left_at l r lo ro i j) by done.
  rewrite merge_columns_disjoint by done.
  unfold merge_keep at 1. now rewrite bool_decide_eq_false_2.
Qed.


(** ** [clean_dataframe] *)

Section Enforcer.
Variable fs : string -> option spec_float.
Variable sf : spec_float -> string.

Lemma cast_columns_run dts ic cols (s : list DataFrame) x :
  cast_columns fs sf (length s) (mkMap dts ic) cols (s ++ [x])
  = match cast_columns_df fs sf dts cols x with
    | OK y => OK (tt, s ++ [y])
    | Raise e => Raise e
    end.
Proof.
  revert x. induction cols as [|c cols IH]; intros x; simpl; [done|].
  destruct (assoc c dts) as [t|]; [|done].
  unfold bind. rewrite inplace_last.
  destruct (apply_column c _ x) as [x1|]; [|done]. simpl. apply IH.
Qed.

Lemma clean_dataframe_run st df d dts ic :
  st !! df = Some d ->
  clean_dataframe fs sf df (mkMap dts ic) st
  = match rbind (project (map fst dts) d)
                (cast_columns_df fs sf dts (map fst dts)) with
    | OK y => OK (length st, st ++ [y])
    | Raise e => Raise e
    end.
Proof.
  intros Hd. unfold clean_dataframe. cbn [datatypes].
  erewrite bind_ok by (apply load_ok; eauto).
  unfold bind at 1, lift. destruct (project _ d) as [d1|]; [cbn [rbind]|done].
  unfold bind at 1. cbn [new]. unfold bind at 1. rewrite cast_columns_run.
  now destruct (cast_columns_df _ _ _ _ d1).
Qed.

Lemma int_of_string_raises s e : int_of_string s = Raise e -> e = ValueError.
Proof.
  unfold int_of_string.
  destruct (match rstrip (lstrip s) with
            | String "+" t' => parse_digits t' 0 false
            | String "-" t' => option_map Z.opp (parse_digits t' 0 false)
            | _ => parse_digits (rstrip (lstrip s)) 0 false
            end) as [z|]; [done|].
  now intros [= <-].
Qed.

Lemma astype_raises t v e :
  astype fs sf t v = Raise e -> coercion_error e.
Proof.
  unfold coercion_error. destruct t; destruct v as [|z|f|s]; simpl; try done.
  - intros [= <-]. now left.
  - destruct (in_int64 z); [done|]. intros [= <-]. now right.
  - destruct (trunc_float f); [done|]. intros [= <-]. now left.
  - destruct (int_of_string s) as [z|e'] eqn:Hs; simpl.
    + destruct (in_int64 z); [done|]. intros [= <-]. now right.
    + intros [= <-]. left. now apply (int_of_string_raises s).
  - destruct (binary_normalize 53 1024 z 0 false); try done;
      intros [= <-]; now right.
  - destruct (fs s); [done|]. intros [= <-]. now left.
Qed.

Lemma mapM_bind_ok {A B C} (f : A -> result B) (g : B -> result C) l z :
  mapM (fun a => rbind (f a) g) l = OK z <->
  exists y, mapM f l = OK y /\ mapM g y = OK z.
Proof.
  split.
  - revert z. induction l as [|a l IH]; intros z H; simpl in H.
    + injection H as <-. now exists [].
    + destruct (f a) as [b|] eqn:Ha; [simpl in H|done].
      destruct (g b) as [c|] eqn:Hb; [simpl in H|done].
      destruct (mapM _ l) as [zs|]; [simpl in H|done]. injection H as <-.
      destruct (IH zs eq_refl) as (ys & Hys & Hzs).
      exists (b :: ys). simpl. rewrite Ha, Hys. simpl. now rewrite Hb, Hzs.
  - intros (y & Hy & Hz). revert y z Hy Hz.
    induction l as [|a l IH]; intros y z Hy Hz; simpl in Hy.
    + injection Hy as <-. simpl in Hz. now injection Hz as <-.
    + destruct (f a) as [b|] eqn:Ha; [simpl in Hy|done].
      destruct (mapM f l) as [ys|]; [simpl in Hy|done]. injection Hy as <-.
      simpl in Hz. destruct (g b) as [c|] eqn:Hb; [simpl in Hz|done].
      destruct (mapM g ys) as [zs|] eqn:Hzs; [simpl in Hz|done].
      injection Hz as <-. simpl. rewrite Ha. simpl. rewrite Hb. simpl.
      now rewrite (IH ys zs eq_refl Hzs).
Qed.

Lemma mapM_raise_inv {A B} (f : A -> result B) l e :
  mapM f l = Raise e -> exists x, x ∈ l /\ f x = Raise e.
Proof.
  induction l as [|a l IH]; simpl; [done|].
  destruct (f a) as [b|e'] eqn:Ha; simpl.
  - destruct (mapM f l) as [ys|e'']; [done|]. simpl. intros [= <-].
    destruct (IH eq_refl) as (x & Hx & Hfx). exists x. split; [now right|done].
  - intros [= <-]. exists a. split; [left|done].
Qed.

Lemma mapM_id_pairs (l : list (Z * list value)) :
  mapM (fun p : Z * list value => rmap (pair p.1) (OK p.2)) l = OK l.
Proof.
  induction l as [|[i r] l IH]; [done|]. cbn [mapM]. now rewrite IH.
Qed.

Lemma cast_columns_df_rows dts cols ts :
  Forall2 (fun c t => assoc c dts = Some t) cols ts ->
  forall k x,
    (forall j c, cols !! j = Some c -> col_pos c (columns x) = Some (k + j)%nat) ->
    forall y,
      cast_columns_df fs sf dts cols x = OK y <->
      exists rs,
        mapM (fun p : Z * list value => rmap (pair p.1) (cast_row fs sf k ts p.2))
             (rows x) = OK rs /\
        y = mkDF (index_name x) (columns x) rs.
Proof.
  induction 1 as [|c t cols ts Hc _ IH]; intros k x Hpos y.
  - simpl. rewrite mapM_id_pairs. split.
    + intros [= <-]. exists (rows x). split; [done|]. now destruct x.
    + intros (rs & [= <-] & ->). now destruct x.
  - cbn [cast_columns_df]. rewrite Hc. unfold apply_column.
    rewrite (Hpos 0%nat c eq_refl), Nat.add_0_r.
    set (G := fun p : Z * list value =>
                rmap (fun v => (p.1, <[k := v]> p.2))
                     (astype fs sf t (cell k p.2))).
    set (H := fun p : Z * list value =>
                rmap (pair p.1) (cast_row fs sf (S k) ts p.2)).
    assert (Hext : mapM (fun p : Z * list value =>
                           rmap (pair p.1) (cast_row fs sf k (t :: ts) p.2))
                        (rows x)
                   = mapM (fun p => rbind (G p) H) (rows x)).
    { apply mapM_ext. intros p _. unfold G, H. cbn [cast_row].
      now destruct (astype fs sf t (cell k p.2)). }
    rewrite Hext.
    assert (Hpos' : forall x1, columns x1 = columns x ->
              forall j c0, cols !! j = Some c0 ->
                           col_pos c0 (columns x1) = Some (S k + j)%nat).
    { intros x1 -> j c0 Hj. rewrite (Hpos (S j) c0 Hj). f_equal. lia. }
    split.
    + destruct (mapM G (rows x)) as [rs1|] eqn:Hrs1; [cbn [rbind]|done].
      intros Hy. apply (IH (S k)) in Hy; [|now apply Hpos'].
      destruct Hy as (rs & Hrs & ->). exists rs. split; [|done].
      apply mapM_bind_ok. eauto.
    + intros (rs & Hrs & ->). apply mapM_bind_ok in Hrs as (rs1 & Hrs1 & Hrs).
      rewrite Hrs1. cbn [rbind]. apply (IH (S k)); [now apply Hpos'|].
      exists rs. now split.
Qed.

Lemma insert_middle (pre suf : list value) v v' :
  <[length pre := v']> (pre ++ v :: suf) = (pre ++ [v']) ++ suf.
Proof.
  rewrite insert_app_r_alt by lia. rewrite Nat.sub_diag. simpl.
  now rewrite <- app_assoc.
Qed.

Lemma cast_row_zip ts : forall k pre suf,
  length pre = k -> length suf = length ts ->
  cast_row fs sf k ts (pre ++ suf)
  = rmap (app pre) (mapM (fun tv : dtype * value => astype fs sf tv.1 tv.2)
                         (zip ts suf)).
Proof.
  induction ts as [|t ts IH]; intros k pre suf Hk Hlen.
  - destruct suf; [|done]. simpl. now rewrite app_nil_r.
  - destruct suf as [|v suf]; [done|]. cbn [cast_row zip zip_with mapM].
    subst k. rewrite <- (Nat.add_0_r (length pre)), cell_app_r.
    rewrite Nat.add_0_r. change (cell 0 (v :: suf)) with v. cbn [fst snd].
    destruct (astype fs sf t v) as [v'|]; [cbn [rbind]|done].
    rewrite insert_middle, (IH (S (length pre)) (pre ++ [v']) suf).
    + destruct (mapM _ (zip ts suf)); [|done]. simpl.
      now rewrite <- app_assoc.
    + rewrite length_app. simpl. lia.
    + simpl in Hlen. lia.
Qed.

Lemma cast_row_all ts suf :
  length suf = length ts ->
  cast_row fs sf 0 ts suf
  = mapM (fun tv : dtype * value => astype fs sf tv.1 tv.2) (zip ts suf).
Proof.
  intros Hlen. pose proof (cast_row_zip ts 0 [] suf eq_refl Hlen) as H.
  simpl in H. rewrite H. now destruct (mapM _ (zip ts suf)).
Qed.

Lemma positions_fields cols names ps (r : list value) :
  mapM (fun c => match col_pos c cols with
                 | Some i => OK i
                 | None => Raise KeyError
                 end) names = OK ps ->
  map (fun i => cell i r) ps = map (fun c => field cols c r) names.
Proof.
  revert ps. induction names as [|c names IH]; intros ps H; simpl in H.
  - now injection H as <-.
  - unfold field at 1. simpl.
    destruct (col_pos c cols) as [i|] eqn:Hi; [simpl in H|done].
    destruct (mapM _ names) as [ps'|]; [|done]. injection H as <-. simpl.
    now rewrite (IH ps').
Qed.

Lemma col_pos_is_Some c cols : c ∈ cols -> exists i, col_pos c cols = Some i.
Proof.
  induction cols as [|c' cols IH]; [by intros ?%elem_of_nil|].
  simpl. case_bool_decide; [eauto|].
  intros [->|Hc]%elem_of_cons; [done|].
  destruct (IH Hc) as [i ->]. simpl. eauto.
Qed.

Lemma positions_exist cols names :
  (forall c, c ∈ names -> c ∈ cols) ->
  exists ps, mapM (fun c => match col_pos c cols with
                            | Some i => OK i
                            | None => Raise KeyError
                            end) names = OK ps.
Proof.
  induction names as [|c names IH]; intros H; simpl; [eauto|].
  destruct (col_pos_is_Some c cols) as [i ->]; [apply H; left|].
  destruct IH as [ps ->]; [intros c' Hc'; apply H; now right|].
  simpl. eauto.
Qed.

Lemma col_pos_NoDup cols j c :
  NoDup cols -> cols !! j = Some c -> col_pos c cols = Some j.
Proof.
  intros Hnd. revert j. induction Hnd as [|c' cols Hc' _ IH]; intros j; [done|].
  destruct j as [|j]; simpl.
  - intros [= ->]. now rewrite bool_decide_eq_true_2.
  - intros Hj. rewrite bool_decide_eq_false_2.
    + now rewrite (IH j Hj).
    + intros ->. apply Hc'. apply list_elem_of_lookup. eauto.
Qed.

Lemma assoc_app_fresh {A} c (pre rest : list (string * A)) :
  c ∉ map fst pre -> assoc c (pre ++ rest) = assoc c rest.
Proof.
  induction pre as [|[c' a] pre IH]; simpl; [done|].
  intros [Hne Hno]%not_elem_of_cons.
  rewrite bool_decide_eq_false_2 by done. now apply IH.
Qed.

Lemma assoc_types (dts : list (string * dtype)) :
  NoDup (map fst dts) ->
  Forall2 (fun c t => assoc c dts = Some t) (map fst dts) (map snd dts).
Proof.
  intros Hnd.
  enough (H : forall pre rest, dts = pre ++ rest ->
            Forall2 (fun c t => assoc c dts = Some t)
                    (map fst rest) (map snd rest))
    by (apply (H [] dts); done).
  intros pre rest. revert pre.
  induction rest as [|[c t] rest IH]; intros pre Heq; simpl; [constructor|].
  constructor.
  - rewrite Heq, assoc_app_fresh; [simpl; now rewrite bool_decide_eq_true_2|].
    rewrite Heq, map_app in Hnd. simpl in Hnd.
    apply NoDup_app in Hnd as (_ & Hdis & _).
    intros Hc. apply (Hdis c Hc). left.
  - apply (IH (pre ++ [(c, t)])). now rewrite <- app_assoc.
Qed.

Lemma zip_types (dts : list (string * dtype)) cols (r : list value) :
  mapM (fun tv : dtype * value => astype fs sf tv.1 tv.2)
       (zip (map snd dts) (map (fun c => field cols c r) (map fst dts)))
  = mapM (fun ct : string * dtype => astype fs sf ct.2 (field cols ct.1 r)) dts.
Proof.
  induction dts as [|[c t] dts IH]; [done|].
  cbn [map zip zip_with mapM fst snd]. now rewrite <- IH.
Qed.

Lemma cast_columns_df_raises dts cols x e :
  (forall c, c ∈ cols -> c ∈ columns x /\ exists t, assoc c dts = Some t) ->
  cast_columns_df fs sf dts cols x = Raise e -> coercion_error e.
Proof.
  revert x. induction cols as [|c cols IH]; intros x Hcols; simpl; [done|].
  destruct (Hcols c) as [Hc [t Ht]]; [left|]. rewrite Ht.
  destruct (apply_column c _ x) as [x1|e'] eqn:Hx1; simpl.
  - apply IH. intros c' Hc'.
    apply apply_column_inv in Hx1 as (_ & _ & -> & _).
    apply Hcols. now right.
  - intros [= <-]. unfold apply_column in Hx1.
    destruct (col_pos_is_Some c _ Hc) as [i Hi]. rewrite Hi in Hx1.
    destruct (mapM _ (rows x)) as [rs|e''] eqn:Hrs; [done|].
    simpl in Hx1. injection Hx1 as <-.
    apply mapM_raise_inv in Hrs as (p & _ & Hp).
    destruct (astype fs sf t (cell i p.2)) as [v|e3] eqn:Hv; [done|].
    simpl in Hp. injection Hp as <-. now apply astype_raises in Hv.
Qed.

(** The Schema Enforcer, row by row: when every declared column is in the
    table, the outcome is that of casting each row on its own. *)
Lemma clean_dataframe_rows st df d dts ic :
  st !! df = Some d ->
  NoDup (map fst dts) ->
  (forall c, c ∈ map fst dts -> c ∈ columns d) ->
  match mapM (enforce_row fs sf dts (columns d)) (rows d) with
  | OK rs =>
      clean_dataframe fs sf df (mkMap dts ic) st
      = OK (length st, st ++ [mkDF (index_name d) (map fst dts) rs])
  | Raise _ =>
      exists e, clean_dataframe fs sf df (mkMap dts ic) st = Raise e /\
                coercion_error e
  end.
Proof.
  intros Hd Hnd Hcols. rewrite (clean_dataframe_run st df d) by done.
  destruct (positions_exist (columns d) (map fst dts) Hcols) as [ps Hps].
  unfold project. rewrite Hps. cbn [rbind].
  set (d1 := {| index_name := index_name d; columns := map fst dts;
                rows := map (fun p : Z * list value =>
                               (p.1, map (fun i => cell i p.2) ps)) (rows d) |}).
  pose proof (cast_columns_df_rows dts (map fst dts) (map snd dts)
                (assoc_types dts Hnd) 0 d1) as Hloop.
  assert (Hrows : mapM (fun p : Z * list value =>
                          rmap (pair p.1) (cast_row fs sf 0 (map snd dts) p.2))
                       (rows d1)
                  = mapM (enforce_row fs sf dts (columns d)) (rows d)).
  { unfold d1. cbn [rows]. rewrite mapM_map. apply mapM_ext. intros p _.
    unfold enforce_row. cbn [fst snd].
    rewrite cast_row_all.
    - now rewrite (positions_fields _ _ _ _ Hps), zip_types.
    - rewrite !length_map. apply mapM_length in Hps.
      now rewrite length_map in Hps. }
  rewrite Hrows in Hloop.
  assert (Hpos : forall j c, map fst dts !! j = Some c ->
                             col_pos c (columns d1) = Some (0 + j)%nat)
    by (intros j c Hj; now apply col_pos_NoDup).
  specialize (Hloop Hpos).
  destruct (mapM (enforce_row fs sf dts (columns d)) (rows d)) as [rs|e] eqn:Hrs.
  - assert (Hy : cast_columns_df fs sf dts (map fst dts) d1
                 = OK (mkDF (index_name d1) (columns d1) rs))
      by (apply Hloop; eauto).
    now rewrite Hy.
  - destruct (cast_columns_df fs sf dts (map fst dts) d1) as [y|e'] eqn:Hy.
    + destruct (proj1 (Hloop y) eq_refl) as (rs & Hrs' & _). discriminate.
    + exists e'. split; [done|].
      apply (cast_columns_df_raises dts (map fst dts) d1 e'); [|done].
      intros c Hc. split; [done|].
      apply list_elem_of_lookup in Hc as [j Hj].
      pose proof (assoc_types dts Hnd) as Hty.
      destruct (Forall2_lookup_l _ _ _ _ _ Hty Hj) as (t & _ & Ht). eauto.
Qed.

(** A declared column the table does not have: [KeyError], before any cast. *)
Lemma clean_dataframe_missing st df d dts ic c :
  st !! df = Some d -> c ∈ map fst dts -> c ∉ columns d ->
  clean_dataframe fs sf df (mkMap dts ic) st = Raise KeyError.
Proof.
  intros Hd Hc Hno. rewrite (clean_dataframe_run st df d) by done.
  unfold project.
  assert (H : mapM (fun c => match col_pos c (columns d) with
                             | Some i => OK i
                             | None => Raise KeyError
                             end) (map fst dts) = Raise KeyError).
  { induction (map fst dts) as [|c' l IH]; [by apply elem_of_nil in Hc|].
    simpl. destruct (col_pos c' (columns d)) as [i|] eqn:Hi; [|done].
    apply elem_of_cons in Hc as [->|Hc].
    - apply col_pos_elem in Hi. done.
    - simpl. now rewrite IH. }
  now rewrite H.
Qed.

End Enforcer.

Lemma mapM_elem_raises {A B} (f : A -> result B) l x e :
  x ∈ l -> f x = Raise e -> exists e', mapM f l = Raise e'.
Proof.
  induction l as [|a l IH]; [by intros ?%elem_of_nil|].
  intros [->|Hx]%elem_of_cons Hfx; simpl.
  - rewrite Hfx. eauto.
  - destruct (f a); [|eauto]. destruct (IH Hx Hfx) as [e' ->]. simpl. eauto.
Qed.



(** On the sample: the text " 2 " and the float 1.5 under [glass_id] become
    the integers 2 and 1, and the extra column is gone. *)
Example clean_glasses_with_note :
  match clean_dataframe no_float_text float_as_text 0 GLASSES_MAP
          [glasses_with_note] with
  | OK (r, st') => (fun d => (columns d, data d)) <$> st' !! r
  | Raise _ => None
  end
  = Some (["glass_id"; "glass_name"],
          [[VInt 2; VStr "highball glass"]; [VInt 1; VStr "copper mug"]]).
Proof. vm_compute. reflexivity. Qed.

Lemma clean_dataframe_fails
    (fs : string -> option spec_float) (sf : spec_float -> string)
    st df d dts ic p c t e :
  st !! df = Some d ->
  NoDup (map fst dts) ->
  (forall c, c ∈ map fst dts -> c ∈ columns d) ->
  p ∈ rows d -> (c, t) ∈ dts ->
  astype fs sf t (field (columns d) c p.2) = Raise e ->
  exists e', clean_dataframe fs sf df (mkMap dts ic) st = Raise e' /\
             coercion_error e'.
Proof.
  intros Hd Hnd Hcols Hp Hct He.
  pose proof (clean_dataframe_rows fs sf st df d dts ic Hd Hnd Hcols) as H.
  assert (Hrow : exists e1, enforce_row fs sf dts (columns d) p = Raise e1).
  { unfold enforce_row.
    destruct (mapM_elem_raises
                (fun ct : string * dtype =>
                   astype fs sf ct.2 (field (columns d) ct.1 p.2))
                dts (c, t) e Hct He) as [e1 ->].
    simpl. eauto. }
  destruct Hrow as [e1 He1].
  destruct (mapM_elem_raises _ _ _ _ Hp He1) as [e2 He2].
  now rewrite He2 in H.
Qed.

(** X2.  When the table lacks a column the data map declares, the Schema
    Enforcer raises KeyError before it casts anything, whatever the cells
    of the table hold. *)
Theorem clean_dataframe_missing_column
    (fs : string -> option spec_float) (sf : spec_float -> string)
    st df d dts ic c :
  st !! df = Some d -> c ∈ map fst dts -> c ∉ columns d ->
  clean_dataframe fs sf df (mkMap dts ic) st = Raise KeyError.
Proof. apply clean_dataframe_missing. Qed.

Lemma clean_dataframe_missing_column_witness :
  clean_dataframe no_float_text float_as_text 0 ORDERS_MAP [sample_drinks]
  = Raise KeyError.
Proof.
  apply (clean_dataframe_missing_column no_float_text float_as_text
           [sample_drinks] 0%nat sample_drinks (datatypes ORDERS_MAP)
           (index_column ORDERS_MAP) "order_id").
  - reflexivity.
  - compute_done.
  - compute_done.
Defined.

(** The row of the orders table that an order of an unknown drink leaves. *)
Lemma unknown_drink_row d bars b l n names r :
  cleaned_orders b -> cleaned_orders l -> cleaned_orders n ->
  columns d = drinks_columns -> columns bars = bars_columns ->
  get_column d "drink_name" = OK names ->
  r ∈ data b ++ data l ++ data n ->
  field order_columns "drink_name" r ∉ names ->
  exists c m1 o,
    orders_frames d bars b l n = OK (c, m1, o) /\
    columns o = "order_id" :: order_columns
                ++ ["drink_id"; "cocktail_db_id"; "glass_name"; "bar_id"] /\
    exists p, p ∈ data o /\ field (columns o) "drink_id" p = VNull.
Proof.
  intros Cb Cl Cn Hdc Hbc Hnames Hr Hno.
  destruct (orders_frames_ok d bars b l n Cb Cl Cn Hdc Hbc)
    as (c & m1 & o & Hrun & Hc & Hm1 & Hoc & Ho).
  exists c, m1, o. split; [done|]. split; [done|].
  rewrite (get_column_at d "drink_name" 2) in Hnames by now rewrite Hdc.
  injection Hnames as <-.
  assert (Hlen : length r = 4%nat).
  { apply elem_of_app in Hr as [Hr|Hr]; [now apply (cleaned_row_length b)|].
    apply elem_of_app in Hr as [Hr|Hr];
      [now apply (cleaned_row_length l)|now apply (cleaned_row_length n)]. }
  assert (Hx : r ++ replicate 3 VNull ∈ data m1).
  { rewrite Hm1. apply elem_of_flat_map. exists r. split; [now rewrite Hc|].
    rewrite join_row_unmatched by exact Hno. left. }
  destruct (join_row_some "location" "location" 3 1 1 (data bars)
              (r ++ replicate 3 VNull)) as [t Ht].
  assert (Hy : (r ++ replicate 3 VNull) ++ t
               ∈ flat_map (join_row "location" "location" 3 1 1 (data bars))
                          (data m1))
    by (apply elem_of_flat_map; eauto).
  destruct (number_from_elem 1 _ _ Hy) as [q Hq].
  exists (VInt q :: (r ++ replicate 3 VNull) ++ t).
  split; [now rewrite Ho|]. rewrite Hoc.
  destruct r as [|v1 [|v2 [|v3 [|v4 [|]]]]]; try discriminate.
  reflexivity.
Qed.

(** X3.  One order of a drink that is not in the drinks table stops the
    run: the orders builder returns a table with a null [drink_id], and the
    Schema Enforcer, which casts [drink_id] to an integer under ORDERS_MAP,
    raises ValueError or OverflowError on that table. *)
Theorem unknown_drink_stops_the_enforcer
    (fs : string -> option spec_float) (sf : spec_float -> string)
    st df_drinks df_bars df_budapest df_london df_ny d bars b l n names r :
  st !! df_drinks = Some d -> st !! df_bars = Some bars ->
  st !! df_budapest = Some b -> st !! df_london = Some l ->
  st !! df_ny = Some n ->
  cleaned_orders b -> cleaned_orders l -> cleaned_orders n ->
  columns d = drinks_columns -> columns bars = bars_columns ->
  get_column d "drink_name" = OK names ->
  r ∈ data b ++ data l ++ data n ->
  field order_columns "drink_name" r ∉ names ->
  exists df_orders st',
    build_orders_dataframe df_drinks df_bars df_budapest df_london df_ny st
    = OK (df_orders, st') /\
    exists e, clean_dataframe fs sf df_orders ORDERS_MAP st' = Raise e /\
              coercion_error e.
Proof.
  intros Hd Hbars Hb Hl Hn Cb Cl Cn Hdc Hbc Hnames Hr Hno.
  destruct (unknown_drink_row d bars b l n names r Cb Cl Cn Hdc Hbc Hnames Hr Hno)
    as (c & m1 & o & Hrun & Hoc & p & Hp & Hnull).
  exists (length st + 2)%nat, (st ++ [c; m1; o]). split.
  { rewrite (build_orders_run _ _ _ _ _ _ d bars b l n) by done.
    now rewrite Hrun. }
  assert (Hlook : (st ++ [c; m1; o]) !! (length st + 2)%nat = Some o).
  { rewrite lookup_app_r by lia.
    replace (length st + 2 - length st)%nat with 2%nat by lia. done. }
  unfold data in Hp. apply list_elem_of_fmap in Hp as (q & -> & Hq).
  apply (clean_dataframe_fails fs sf _ _ o (datatypes ORDERS_MAP)
           (index_column ORDERS_MAP) q "drink_id" Int ValueError Hlook).
  - compute_done.
  - rewrite Hoc. intros c0 Hc0. vm_compute in Hc0.
    repeat (inversion Hc0 as [|? ? ? Hc0']; subst; clear Hc0;
            [compute_done|rename Hc0' into Hc0]).
    inversion Hc0.
  - done.
  - do 2 right. left.
  - now rewrite Hnull.
Qed.

Lemma unknown_drink_stops_the_enforcer_witness :
  exists df_orders st',
    build_orders_dataframe 0 1 2 3 4 sample_store = OK (df_orders, st') /\
    exists e,
      clean_dataframe no_float_text float_as_text df_orders ORDERS_MAP st'
      = Raise e /\
      coercion_error e.
Proof.
  apply (unknown_drink_stops_the_enforcer no_float_text float_as_text
           sample_store 0 1 2 3 4
           sample_drinks bars_frame sample_budapest sample_london sample_ny
           [VStr "mojito"; VStr "negroni"]
           (sample_order "tap water" "budapest"));
    try reflexivity; try (split; [reflexivity|repeat constructor]).
  - right. left.
  - compute_done.
Defined.

(** ** The inventory table *)

Lemma apply_column_lengths c f d a n :
  apply_column c f d = OK a ->
  Forall (fun p : Z * list value => length p.2 = n) (rows d) ->
  Forall (fun p : Z * list value => length p.2 = n) (rows a).
Proof.
  intros (i & _ & _ & H2)%apply_column_inv Hd.
  induction H2 as [|p p' l l' (v & _ & Hp') _ IH]; [constructor|].
  apply Forall_cons in Hd as [Hp Hd]. constructor; [|auto].
  now rewrite Hp', length_insert.
Qed.


Lemma inventory_frames_ok csv bars glasses a0 a ib ig :
  columns bars = bars_columns -> columns glasses = glasses_columns ->
  (forall c, c ∈ columns csv ->
             c ∉ ["bar_id"; "location"; "glass_id"; "glass_name";
                  "inventory_id"]) ->
  col_pos "bar" (columns csv) = Some ib ->
  col_pos "glass_type" (columns csv) = Some ig ->
  apply_column "stock" parse_stock csv = OK a0 ->
  apply_column "glass_type" fix_glass_type a0 = OK a ->
  exists m1 o,
    inventory_frames csv bars glasses = OK (a, m1, o) /\
    columns a = columns csv /\
    data m1 = flat_map (join_row "bar" "location" ib 1 2 (data bars)) (data a) /\
    data o = number_from 1
               (flat_map (join_row "glass_type" "glass_name" ig 1 2
                            (data glasses))
                         (data m1)) /\
    columns o
    = "inventory_id"
      :: map (fun c => if bool_decide (c = "stock") then "number_in_stock"
                       else c)
             ((columns csv ++ bars_columns) ++ glasses_columns).
Proof.
  intros Hbc Hgc Hdis Hib Hig Ha0 Ha.
  assert (Hca0 : columns a0 = columns csv)
    by (apply apply_column_inv in Ha0 as (_ & _ & -> & _); done).
  assert (Hca : columns a = columns csv)
    by (apply apply_column_inv in Ha as (_ & _ & -> & _); done).
  unfold inventory_frames. rewrite Ha0. cbn [rbind]. rewrite Ha. cbn [rbind].
  rewrite (merge_left_disjoint a bars "bar" "location" ib 1); try done.
  2:{ rewrite Hca, Hbc. intros c Hc Hin. apply (Hdis c Hc).
      apply elem_of_cons in Hin as [->|Hin]; [left|].
      apply elem_of_cons in Hin as [->|Hin]; [right; left|].
      by apply elem_of_nil in Hin. }
  2:{ now rewrite Hca. }
  2:{ now rewrite Hbc. }
  cbn [rbind].
  match goal with
  | |- context [merge_left ?m glasses _ _] => set (m1 := m)
  end.
  rewrite (merge_left_disjoint m1 glasses "glass_type" "glass_name" ig 1);
    try done.
  2:{ unfold m1. cbn [columns]. rewrite Hca, Hbc, Hgc. intros c Hc Hin.
      apply elem_of_app in Hc as [Hc|Hc].
      - apply (Hdis c Hc).
        apply elem_of_cons in Hin as [->|Hin]; [do 2 right; left|].
        apply elem_of_cons in Hin as [->|Hin]; [do 3 right; left|].
        by apply elem_of_nil in Hin.
      - revert Hc Hin. clear. intros Hc Hin.
        apply elem_of_cons in Hc as [->|Hc];
          [|apply elem_of_cons in Hc as [->|Hc]; [|by apply elem_of_nil in Hc]];
          vm_compute in Hin;
          repeat (inversion Hin as [|? ? ? Hin']; subst; clear Hin;
                  rename Hin' into Hin). }
  2:{ unfold m1. cbn [columns]. rewrite Hca. now apply col_pos_app_l. }
  2:{ now rewrite Hgc. }
  cbn [rbind].
  match goal with
  | |- context [rename_column _ _ ?m] => set (m2 := m)
  end.
  assert (Hfresh : "inventory_id" ∉ columns (rename_column "stock" "number_in_stock" m2)).
  { unfold rename_column, m2, m1. cbn [columns]. rewrite Hca, Hbc, Hgc.
    intros (c & Hc & Hin)%list_elem_of_fmap.
    case_bool_decide; [done|]. subst c.
    apply elem_of_app in Hin as [Hin|Hin].
    - apply elem_of_app in Hin as [Hin|Hin].
      + apply (Hdis _ Hin). do 4 right. left.
      + vm_compute in Hin.
        repeat (inversion Hin as [|? ? ? Hin']; subst; clear Hin;
                rename Hin' into Hin).
    - vm_compute in Hin.
      repeat (inversion Hin as [|? ? ? Hin']; subst; clear Hin;
              rename Hin' into Hin). }
  unfold create_index_df. rewrite bool_decide_eq_false_2 by done. cbn [rbind].
  exists m1, (indexed "inventory_id" (rename_column "stock" "number_in_stock" m2)).
  split; [done|]. split; [done|]. split; [|split].
  - unfold m1, data at 1. cbn [rows]. rewrite data_label_from. now rewrite Hbc.
  - unfold indexed, data at 1. cbn [rows]. rewrite data_label_from. f_equal.
    unfold rename_column, data at 1. cbn [rows]. unfold m2. cbn [rows].
    rewrite data_label_from. now rewrite Hgc.
  - unfold indexed, rename_column, m2, m1. cbn [columns].
    now rewrite Hca, Hbc, Hgc.
Qed.



(** The inventory table of the sample: the "coper mug" row has found the
    copper mug, glass 1, in bar 3. *)
Example inventory_of_the_sample :
  match (df <- build_inventory_dataframe sample_csv 1 5 ;;
         clean_dataframe no_float_text float_as_text df INVENTORY_MAP)
          (sample_store ++ [sample_glasses]) with
  | OK (r, st') => data <$> st' !! r
  | Raise _ => None
  end
  = Some [[VInt 1; VInt 1; VInt 12; VInt 3]; [VInt 2; VInt 2; VInt 3; VInt 1]].
Proof. vm_compute. reflexivity. Qed.

(** ** More on [create_index] *)

(** X5.  The Indexer refuses a key name the table already has: it raises
    ValueError.  So a table cannot be indexed twice under one name: the
    second call raises, the first having put the column there. *)
Theorem create_index_refuses_existing_name st df d name :
  st !! df = Some d ->
  (name ∈ columns d -> create_index df name st = Raise ValueError) /\
  (create_index df name ;;; create_index df name) st = Raise ValueError.
Proof.
  intros Hd. split; [now apply create_index_clash|].
  destruct (decide (name ∈ columns d)) as [Hin|Hfresh].
  - apply bind_raise. now apply create_index_clash with d.
  - eapply bind_inv_raise_second; [apply (create_index_ok _ _ d); done|].
    apply create_index_clash with (indexed name d).
    + apply list_lookup_insert_eq. eapply lookup_lt_Some; eauto.
    + left.
Qed.

Lemma create_index_refuses_existing_name_witness :
  ("drink_name" ∈ columns two_drinks ->
   create_index 0 "drink_name" [two_drinks] = Raise ValueError) /\
  (create_index 0 "drink_name" ;;; create_index 0 "drink_name") [two_drinks]
  = Raise ValueError.
Proof.
  apply (create_index_refuses_existing_name [two_drinks] 0%nat two_drinks
           "drink_name").
  reflexivity.
Defined.

(** X6.  The Indexer forgets the index the table came with: two tables with
    the same columns and the same cells, whatever their row labels and index
    names, are indexed to the same table. *)
Theorem create_index_forgets_the_old_index st df d1 d2 name :
  st !! df = Some d1 ->
  columns d1 = columns d2 -> data d1 = data d2 ->
  create_index df name (<[df := d2]> st) = create_index df name st.
Proof.
  intros Hd Hcols Hdata.
  assert (Hlt : (df < length st)%nat) by (eapply lookup_lt_Some; eauto).
  assert (Hd2 : <[df := d2]> st !! df = Some d2)
    by now apply list_lookup_insert_eq.
  destruct (decide (name ∈ columns d1)) as [Hin|Hfresh].
  - rewrite (create_index_clash _ _ d2) by (done || now rewrite <- Hcols).
    now rewrite (create_index_clash _ _ d1).
  - rewrite (create_index_ok _ _ d2) by (done || now rewrite <- Hcols).
    rewrite (create_index_ok _ _ d1) by done.
    rewrite list_insert_insert_eq. unfold indexed. now rewrite Hcols, Hdata.
Qed.

Lemma create_index_forgets_the_old_index_witness :
  create_index 0 "drink_id" (<[0%nat := two_drinks_relabelled]> [two_drinks])
  = create_index 0 "drink_id" [two_drinks].
Proof.
  apply (create_index_forgets_the_old_index [two_drinks] 0%nat two_drinks
           two_drinks_relabelled "drink_id"); reflexivity.
Defined.

(** ** More on [get_drinks_data] *)




Lemma letter_frame_raises drinks e :
  letter_frame drinks = Raise e -> e = KeyError \/ e = AttributeError.
Proof.
  unfold letter_frame.
  destruct (project _ _) as [d|e1] eqn:Hproj.
  - apply project_normalize in Hproj. subst d. cbn [rbind].
    unfold applymap. cbn [rows columns index_name].
    rewrite mapM_label_from, mapM_map.
    destruct (mapM _ drinks) as [rs|e2] eqn:Hrs; [done|].
    simpl. intros [= <-]. right.
    apply mapM_raise_inv in Hrs as (x & _ & Hx).
    apply mapM_raise_inv in Hx as (v & _ & Hv).
    destruct v; simpl in Hv; congruence.
  - cbn [rbind]. intros [= <-]. left.
    unfold project in Hproj.
    destruct (mapM _ ["idDrink"; "strDrink"; "strGlass"]) as [ps|e2] eqn:Hps;
      [done|].
    simpl in Hproj. injection Hproj as <-.
    apply mapM_raise_inv in Hps as (c & _ & Hc).
    destruct (col_pos c _); congruence.
Qed.



Example entry_row_mojito :
  entry_row entry_mojito
  = OK [VStr "11000"; VStr "mojito"; VStr "highball glass"].
Proof. reflexivity. Qed.

Example entry_row_without_glass :
  get_drinks_data (one_letter_catalog [entry_mojito; entry_without_glass])
    (search_url "m") []
  = Raise AttributeError.
Proof. vm_compute. reflexivity. Qed.





(** ** More on [build_drinks_dataframe] *)

Lemma frames_row_count (rss : list (list json_object)) frames :
  Forall2 (fun drinks f => mapM entry_row drinks = OK (data f)) rss frames ->
  length (flat_map data frames) = length (List.concat rss).
Proof.
  induction 1 as [|drinks f rss frames Hf _ IH]; simpl; [done|].
  rewrite !length_app, IH. f_equal. now apply mapM_length in Hf.
Qed.

(** X9.  The drinks table has one row for each entry of the catalog, the
    entries of all letters counted together, and its [drink_id] runs from 1
    to that number. *)
Theorem drinks_table_has_a_row_per_entry (http : catalog) st frames :
  mapM letter_frame (responses http ascii_lowercase) = OK frames ->
  frames <> [] ->
  exists d,
    build_drinks_dataframe http st
    = OK ((length st + length frames)%nat, st ++ frames ++ [d]) /\
    len d = length (List.concat (responses http ascii_lowercase)) /\
    get_column d "drink_id"
    = OK (keys (length (List.concat (responses http ascii_lowercase)))).
Proof.
  intros Hfs Hne.
  destruct (build_drinks_ok http st frames Hfs Hne)
    as (d & Hrun & _ & Hkeys & Hdata).
  exists d. split; [done|].
  assert (Hlen : len d = length (List.concat (responses http ascii_lowercase))).
  { rewrite len_data, Hdata, length_number_from.
    apply frames_row_count. apply mapM_Forall2 in Hfs.
    eapply Forall2_impl; [exact Hfs|].
    intros drinks f (rs & Hrs & ->)%letter_frame_inv.
    unfold data. simpl. now rewrite data_label_from. }
  split; [done|]. now rewrite <- Hlen.
Qed.

Lemma drinks_table_has_a_row_per_entry_witness :
  exists d,
    build_drinks_dataframe sample_catalog []
    = OK ((length (@nil DataFrame) + length sample_frames)%nat,
          [] ++ sample_frames ++ [d]) /\
    len d = length (List.concat (responses sample_catalog ascii_lowercase)) /\
    get_column d "drink_id"
    = OK (keys (length (List.concat (responses sample_catalog ascii_lowercase)))).
Proof.
  apply (drinks_table_has_a_row_per_entry sample_catalog [] sample_frames).
  - vm_compute. reflexivity.
  - discriminate.
Defined.

(** X10.  One malformed entry stops the drinks builder: when the response
    of some letter holds an entry without a string under [idDrink],
    [strDrink] or [strGlass], the builder raises KeyError or AttributeError
    and no drinks table is returned, whatever the other letters hold. *)
Theorem malformed_entry_stops_the_drinks_builder (http : catalog) st drinks e err :
  drinks ∈ responses http ascii_lowercase ->
  e ∈ drinks -> entry_row e = Raise err ->
  exists e', build_drinks_dataframe http st = Raise e' /\
             (e' = KeyError \/ e' = AttributeError).
Proof.
  intros Hd He Herr. rewrite build_drinks_run.
  destruct (mapM letter_frame (responses http ascii_lowercase))
    as [frames|e'] eqn:Hfs.
  - exfalso. apply mapM_Forall2 in Hfs.
    apply list_elem_of_lookup in Hd as [k Hk].
    destruct (Forall2_lookup_l _ _ _ _ _ Hfs Hk) as (f & _ & Hf).
    apply letter_frame_inv in Hf as (rs & Hrs & _).
    destruct (mapM_elem_raises _ _ _ _ He Herr) as [e2 He2]. congruence.
  - exists e'. split; [done|].
    apply mapM_raise_inv in Hfs as (x & _ & Hx).
    now apply letter_frame_raises in Hx.
Qed.

Lemma malformed_entry_stops_the_drinks_builder_witness :
  exists e', build_drinks_dataframe flawed_catalog [] = Raise e' /\
             (e' = KeyError \/ e' = AttributeError).
Proof.
  apply (malformed_entry_stops_the_drinks_builder flawed_catalog []
           [entry_mojito; entry_without_glass] entry_without_glass
           AttributeError).
  - vm_compute. right. left.
  - right. left.
  - reflexivity.
Defined.

(** ** More on [build_glasses_dataframe] *)

Lemma col_pos_None c cols : c ∉ cols -> col_pos c cols = None.
Proof.
  intros Hno. destruct (col_pos c cols) as [i|] eqn:Hi; [|done].
  now apply col_pos_elem in Hi.
Qed.

(** X11.  The glasses builder needs the [glass_name] column: without it, it
    raises KeyError.  With it, and strings in it, the glasses table has at
    most as many rows as the drinks table, and none when the drinks table
    is empty. *)
Theorem glasses_need_glass_name_and_are_fewer st df_drinks d :
  st !! df_drinks = Some d ->
  ("glass_name" ∉ columns d ->
   build_glasses_dataframe df_drinks st = Raise KeyError) /\
  (forall names,
     get_column d "glass_name" = OK names ->
     Forall (fun v => is_str v) names ->
     exists g,
       build_glasses_dataframe df_drinks st = OK (length st, st ++ [g]) /\
       (len g <= len d)%nat).
Proof.
  intros Hd. split.
  - intros Hno. rewrite (build_glasses_run _ _ d) by done.
    unfold glasses_frame, project. cbn [mapM].
    now rewrite (col_pos_None _ _ Hno).
  - intros names Hnames Hstr.
    destruct (build_glasses_ok st df_drinks d names Hd Hnames Hstr)
      as (g & sorted & Hrun & Hcols & Hcol & _ & Hnd & Hmem & _).
    exists g. split; [done|].
    assert (Hg : len g = length sorted).
    { rewrite (get_column_at g "glass_name" 1) in Hcol by now rewrite Hcols.
      injection Hcol as <-. now rewrite length_map, len_data. }
    assert (Hn : len d = length names).
    { unfold get_column in Hnames.
      destruct (col_pos _ _); [|done]. injection Hnames as <-.
      now rewrite length_map, len_data. }
    rewrite Hg, Hn. apply submseteq_length, NoDup_submseteq; [done|].
    intros v. apply Hmem.
Qed.

Lemma glasses_need_glass_name_and_are_fewer_witness :
  ("glass_name" ∉ columns shared_glass_drinks ->
   build_glasses_dataframe 0 [shared_glass_drinks] = Raise KeyError) /\
  (forall names,
     get_column shared_glass_drinks "glass_name" = OK names ->
     Forall (fun v => is_str v) names ->
     exists g,
       build_glasses_dataframe 0 [shared_glass_drinks]
       = OK (length [shared_glass_drinks], [shared_glass_drinks] ++ [g]) /\
       (len g <= len shared_glass_drinks)%nat).
Proof.
  apply (glasses_need_glass_name_and_are_fewer [shared_glass_drinks] 0%nat
           shared_glass_drinks).
  reflexivity.
Defined.

(** ** [add_glass_id_to_drinks_dataframe] *)

Lemma add_glass_id_run st df_drinks df_glasses d g :
  st !! df_drinks = Some d -> st !! df_glasses = Some g ->
  add_glass_id_to_drinks_dataframe df_drinks df_glasses st
  = match drinks_with_glass_id d g with
    | OK o => OK (length st, st ++ [o])
    | Raise e => Raise e
    end.
Proof.
  intros Hd Hg. unfold add_glass_id_to_drinks_dataframe, drinks_with_glass_id.
  unfold bind at 1. rewrite (merge_run _ _ _ d g) by done.
  destruct (merge_left d g _ _) as [m|]; [cbn [rbind]|done].
  unfold bind at 1. rewrite inplace_last.
  now destruct (drop_column _ m).
Qed.

Lemma numbered_singletons_elem a (l : list value) m :
  m ∈ number_from a (map (fun v => [v]) l) ->
  exists v, v ∈ l /\ exists k, m = [VInt k; v].
Proof.
  revert a. induction l as [|v l IH]; intros a; simpl;
    [by intros ?%elem_of_nil|].
  intros [->|Hm]%elem_of_cons.
  - exists v. split; [left|eauto].
  - destruct (IH _ Hm) as (v' & Hv' & Hk). exists v'. split; [now right|done].
Qed.

Lemma numbered_singletons_names a (l : list value) :
  map (cell 1) (number_from a (map (fun v => [v]) l)) = l.
Proof.
  revert a. induction l as [|v l IH]; intros a; simpl; [done|].
  now rewrite IH.
Qed.

Lemma flat_map_singletons {A B} (f : A -> list B) (P : A -> B -> Prop) l :
  (forall x, x ∈ l -> exists y, f x = [y] /\ P x y) ->
  Forall2 P l (flat_map f l).
Proof.
  induction l as [|x l IH]; intros H; simpl; [constructor|].
  destruct (H x) as (y & -> & Hy); [left|]. simpl.
  constructor; [done|]. apply IH. intros x' Hx'. apply H. now right.
Qed.

(** A drink whose glass is in the glasses table is joined with the one row
    of that glass. *)
Lemma join_with_own_glass (sorted : list value) r :
  NoDup sorted -> cell 3 r ∈ sorted ->
  exists k,
    [VInt k; cell 3 r] ∈ number_from 1 (map (fun v => [v]) sorted) /\
    join_row "glass_name" "glass_name" 3 1 1
             (number_from 1 (map (fun v => [v]) sorted)) r
    = [r ++ [VInt k]].
Proof.
  intros Hnd Hin. set (rs := number_from 1 (map (fun v : value => [v]) sorted)).
  assert (Hnames : map (cell 1) rs = sorted) by apply numbered_singletons_names.
  pose proof (filter_key_NoDup (cell 3 r) 1 rs) as Hle.
  rewrite Hnames in Hle. specialize (Hle Hnd).
  assert (Hex : exists m, m ∈ rs /\ cell 3 r = cell 1 m).
  { rewrite <- Hnames in Hin.
    apply list_elem_of_fmap in Hin as (m & Hm & Hin). eauto. }
  destruct Hex as (m & Hm & Hkey).
  assert (Hf : m ∈ filter (fun g => cell 3 r = cell 1 g) rs)
    by (apply list_elem_of_filter; done).
  unfold join_row.
  destruct (filter (fun g => cell 3 r = cell 1 g) rs) as [|m0 [|m1 ms]] eqn:Hfl.
  - by apply elem_of_nil in Hf.
  - apply list_elem_of_singleton in Hf. subst m0.
    destruct (numbered_singletons_elem 1 sorted m Hm) as (v & _ & k & ->).
    change (cell 1 [VInt k; v]) with v in Hkey. subst v.
    exists k. split; [done|]. reflexivity.
  - simpl in Hle. lia.
Qed.

(** X12.  Every drink gets the key of its glass: when the glasses table is
    built from the drinks table and then joined back to it, the result has
    the columns drink_id, cocktail_db_id, drink_name, glass_id, one row for
    each drink in the same order with the same first three cells, and a
    [glass_id] that is never null: it is the key of the glasses row that
    holds the glass name of the drink. *)
Theorem every_drink_gets_its_glass_id st df_drinks d names :
  st !! df_drinks = Some d ->
  columns d = drinks_columns ->
  Forall (fun p : Z * list value => length p.2 = 4%nat) (rows d) ->
  get_column d "glass_name" = OK names ->
  Forall (fun v => is_str v) names ->
  exists g out,
    (df_glasses <- build_glasses_dataframe df_drinks ;;
     add_glass_id_to_drinks_dataframe df_drinks df_glasses) st
    = OK ((length st + 1)%nat, st ++ [g; out]) /\
    columns out = ["drink_id"; "cocktail_db_id"; "drink_name"; "glass_id"] /\
    Forall2 (fun r x => exists k, x = take 3%nat r ++ [VInt k] /\
                                  [VInt k; cell 3 r] ∈ data g)
            (data d) (data out).
Proof.
  intros Hd Hcols Hwf Hnames Hstr.
  destruct (glasses_frame_ok d names Hnames Hstr)
    as (g & sorted & Hg & Hgc & Hgd & Hnd & Hmem & _).
  rewrite (get_column_at d "glass_name" 3) in Hnames by now rewrite Hcols.
  injection Hnames as <-.
  assert (Hm : merge_left d g "glass_name" "glass_name"
               = OK {| index_name := None;
                       columns := ["drink_id"; "cocktail_db_id"; "drink_name";
                                   "glass_name"; "glass_id"];
                       rows := label_from 0
                         (flat_map (join_row "glass_name" "glass_name" 3 1 1
                                             (data g)) (data d)) |}).
  { rewrite (merge_left_at d g _ _ 3 1) by (rewrite ?Hcols, ?Hgc; reflexivity).
    now rewrite Hcols, Hgc. }
  set (X := flat_map (join_row "glass_name" "glass_name" 3 1 1 (data g)) (data d)).
  exists g, {| index_name := None;
               columns := ["drink_id"; "cocktail_db_id"; "drink_name"; "glass_id"];
               rows := map (fun p : Z * list value => (p.1, delete 3%nat p.2))
                           (label_from 0 X) |}.
  split; [|split; [done|]].
  - unfold bind. rewrite (build_glasses_run _ _ d), Hg by done.
    rewrite (add_glass_id_run _ _ _ d g)
      by (apply lookup_last || now apply lookup_app_l_Some).
    unfold drinks_with_glass_id. rewrite Hm. cbn [rbind].
    unfold drop_column. cbn [columns rows index_name].
    change (col_pos "glass_name"
              ["drink_id"; "cocktail_db_id"; "drink_name"; "glass_name";
               "glass_id"]) with (Some 3%nat).
    cbv iota. rewrite length_app, <- app_assoc. simpl. do 2 f_equal.
  - unfold data at 3. cbn [rows]. rewrite map_map. cbn [snd].
    rewrite <- (map_map snd (delete 3%nat)), data_label_from.
    apply Forall2_fmap_r.
    assert (H1 : Forall2 (fun r y => exists k, y = r ++ [VInt k] /\
                                               [VInt k; cell 3 r] ∈ data g)
                         (data d) X).
    { apply flat_map_singletons. intros r Hr. rewrite Hgd.
      destruct (join_with_own_glass sorted r Hnd) as (k & Hk & Hj).
      - apply Hmem. now apply list_elem_of_fmap_2.
      - rewrite Hj. eauto. }
    assert (Hlen : Forall (fun r => length r = 4%nat) (data d)).
    { unfold data. apply Forall_fmap. eapply Forall_impl; [exact Hwf|]. done. }
    clear -H1 Hlen. induction H1 as [|r y l l' (k & -> & Hk) _ IH];
      [constructor|].
    apply Forall_cons in Hlen as [Hr Hlen]. constructor; [|auto].
    exists k. split; [|done].
    destruct r as [|v1 [|v2 [|v3 [|v4 [|]]]]]; try discriminate. reflexivity.
Qed.

Lemma every_drink_gets_its_glass_id_witness :
  exists g out,
    (df_glasses <- build_glasses_dataframe 0 ;;
     add_glass_id_to_drinks_dataframe 0 df_glasses) [shared_glass_drinks]
    = OK ((length [shared_glass_drinks] + 1)%nat, [shared_glass_drinks] ++ [g; out]) /\
    columns out = ["drink_id"; "cocktail_db_id"; "drink_name"; "glass_id"] /\
    Forall2 (fun r x => exists k, x = take 3%nat r ++ [VInt k] /\
                                  [VInt k; cell 3 r] ∈ data g)
            (data shared_glass_drinks) (data out).
Proof.
  apply (every_drink_gets_its_glass_id [shared_glass_drinks] 0%nat
           shared_glass_drinks
           [VStr "highball glass"; VStr "cocktail glass"; VStr "highball glass"]);
    try reflexivity; repeat constructor.
Defined.

Example drinks_of_the_sample_with_glass_ids :
  match (df_glasses <- build_glasses_dataframe 0 ;;
         add_glass_id_to_drinks_dataframe 0 df_glasses) [shared_glass_drinks] with
  | OK (r, st') => data <$> st' !! r
  | Raise _ => None
  end
  = Some [[VInt 1; VStr "11000"; VStr "mojito"; VInt 2];
          [VInt 2; VStr "11007"; VStr "margarita"; VInt 1];
          [VInt 3; VStr "11410"; VStr "gin fizz"; VInt 2]].
Proof. vm_compute. reflexivity. Qed.

(** ** [clean_raw_orders] *)




Section Cleaning.
Variable reformat : string -> string -> option string.
Variable fs : string -> option spec_float.
Variable sf : spec_float -> string.

Lemma clean_raw_orders_run st csv fmt location :
  clean_raw_orders reformat fs sf csv fmt location st
  = match cleaned_frame reformat fs sf csv fmt location with
    | OK y => OK (length st, st ++ [y])
    | Raise e => Raise e
    end.
Proof.
  unfold clean_raw_orders, cleaned_frame.
  unfold bind at 1. cbn [new]. unfold bind at 1. rewrite inplace_last.
  destruct (drop_column _ csv) as [d1|]; [cbn [rbind]|done].
  unfold bind at 1. rewrite inplace_last.
  destruct (apply_column "order_datetime" _ d1) as [d2|]; [cbn [rbind]|done].
  unfold bind at 1. rewrite inplace_last.
  destruct (apply_column "drink_name" _ d2) as [d3|]; [cbn [rbind]|done].
  unfold bind at 1. rewrite inplace_last.
  destruct (apply_column "order_amount" _ d3) as [d4|]; [cbn [rbind]|done].
  unfold bind at 1. now rewrite inplace_last.
Qed.



End Cleaning.




(** X14.  A date that does not have the format of the file stops the
    cleaning: when the date cell of some row is a string that cannot be
    read in the given format, [clean_raw_orders] raises ValueError or
    TypeError (the latter for a date cell that is no string) and returns no
    table. *)
Theorem bad_date_stops_the_cleaning
    (reformat : string -> string -> option string)
    (fs : string -> option spec_float) (sf : spec_float -> string)
    st csv fmt location p dt :
  columns csv = column_names ->
  p ∈ rows csv ->
  field column_names "order_datetime" p.2 = VStr dt ->
  reformat fmt dt = None ->
  exists e,
    clean_raw_orders reformat fs sf csv fmt location st = Raise e /\
    (e = ValueError \/ e = TypeError).
Proof.
  intros Hcols Hp Hdt Hbad. rewrite clean_raw_orders_run.
  unfold cleaned_frame, drop_column. rewrite Hcols.
  change (col_pos "index" column_names) with (Some 0%nat). cbv iota. cbn [rbind].
  unfold apply_column at 1. cbn [columns rows].
  change (col_pos "order_datetime" (delete 0%nat column_names))
    with (Some 0%nat). cbv iota.
  set (G := fun q : Z * list value =>
              rmap (fun v => (q.1, <[0%nat := v]> q.2))
                   (normalize_datetime reformat fmt (cell 0 q.2))).
  assert (Hq : G (p.1, delete 0%nat p.2) = Raise ValueError).
  { unfold G. cbn [fst snd].
    assert (Hc : cell 0 (delete 0%nat p.2) = VStr dt).
    { rewrite <- Hdt. unfold field. simpl. now destruct p.2. }
    rewrite Hc. simpl. now rewrite Hbad. }
  assert (Hin : (p.1, delete 0%nat p.2)
                ∈ map (fun q : Z * list value => (q.1, delete 0%nat q.2))
                      (rows csv))
    by (apply list_elem_of_fmap; eauto).
  destruct (mapM_elem_raises G _ _ _ Hin Hq) as [e He].
  fold G. rewrite He. cbn [rbind]. exists e. split; [done|].
  apply mapM_raise_inv in He as (x & _ & Hx). unfold G in Hx.
  destruct (cell 0 x.2) as [| | |s]; simpl in Hx; try (right; congruence).
  destruct (reformat fmt s); simpl in Hx; [done|]. left. congruence.
Qed.

Lemma bad_date_stops_the_cleaning_witness :
  exists e,
    clean_raw_orders one_date no_float_text float_as_text sample_orders_csv
      "%Y-%m-%d %H:%M:%S" "london" [] = Raise e /\
    (e = ValueError \/ e = TypeError).
Proof.
  apply (bad_date_stops_the_cleaning one_date no_float_text float_as_text
           [] sample_orders_csv "%Y-%m-%d %H:%M:%S" "london"
           (0, [VInt 0; VStr "03-04-2021 18:30"; VStr "Mojito"; VInt 2])
           "03-04-2021 18:30").
  - reflexivity.
  - left.
  - reflexivity.
  - reflexivity.
Defined.

(** ** More on [build_orders_dataframe] *)

Lemma join_row_elem lo ro i j w rs l x :
  x ∈ join_row lo ro i j w rs l ->
  exists t, x = l ++ t /\
            (t = replicate w VNull \/
             exists g, g ∈ rs /\ cell i l = cell j g /\
                       t = merge_keep lo ro j g).
Proof.
  unfold join_row.
  destruct (filter (fun r => cell i l = cell j r) rs) as [|m ms] eqn:Hf.
  - intros ->%list_elem_of_singleton. eauto.
  - intros (g & -> & Hg)%list_elem_of_fmap. exists (merge_keep lo ro j g).
    split; [done|]. right. exists g. rewrite <- Hf in Hg.
    apply list_elem_of_filter in Hg as [Hkey Hg]. done.
Qed.

Lemma join_bars_row x :
  cell 3 x ∈ [VStr "budapest"; VStr "new york"; VStr "london"] ->
  exists k,
    [VInt k; cell 3 x] ∈ bars_data /\
    join_row "location" "location" 3 1 1 bars_data x = [x ++ [VInt k]].
Proof.
  intros Hloc. unfold join_row.
  apply elem_of_cons in Hloc as [Hc|Hloc];
    [|apply elem_of_cons in Hloc as [Hc|Hloc];
      [|apply elem_of_cons in Hloc as [Hc|Hloc];
        [|by apply elem_of_nil in Hloc]]];
    rewrite Hc; eexists; (split; [|reflexivity]); compute_done.
Qed.

(** X15.  Every order gets the key of its bar: with the bars table of the
    script, cleaned order sets whose locations are "budapest", "new york"
    or "london", and any drinks table, the orders builder returns a table
    whose [order_id] is 1 .. N and whose [bar_id] is never null: it is the
    key that the bars table gives to the location of the order. *)
Theorem every_order_gets_its_bar_id st df_drinks df_bars df_budapest df_london
    df_ny d b l n :
  st !! df_drinks = Some d -> st !! df_bars = Some bars_frame ->
  st !! df_budapest = Some b -> st !! df_london = Some l ->
  st !! df_ny = Some n ->
  cleaned_orders b -> cleaned_orders l -> cleaned_orders n ->
  columns d = drinks_columns ->
  Forall (fun p : Z * list value => length p.2 = 4%nat) (rows d) ->
  Forall (fun r => field order_columns "location" r
                   ∈ [VStr "budapest"; VStr "new york"; VStr "london"])
         (data b ++ data l ++ data n) ->
  exists c m1 o,
    build_orders_dataframe df_drinks df_bars df_budapest df_london df_ny st
    = OK ((length st + 2)%nat, st ++ [c; m1; o]) /\
    get_column o "order_id" = OK (keys (len o)) /\
    Forall (fun p => exists k,
              field (columns o) "bar_id" p = VInt k /\
              [VInt k; field (columns o) "location" p] ∈ bars_data)
           (data o).
Proof.
  intros Hd Hbars Hb Hl Hn Cb Cl Cn Hdc Hdwf Hlocs.
  destruct (orders_frames_ok d bars_frame b l n Cb Cl Cn Hdc eq_refl)
    as (c & m1 & o & Hrun & Hc & Hm1 & Hoc & Ho).
  exists c, m1, o. split; [|split].
  - rewrite (build_orders_run _ _ _ _ _ _ d bars_frame b l n) by done.
    now rewrite Hrun.
  - rewrite (get_column_at o "order_id" 0) by now rewrite Hoc.
    rewrite Ho, (number_from_keys 1), len_data, Ho, length_number_from. done.
  - assert (Hx : Forall (fun x => length x = 7%nat /\
                    cell 3 x ∈ [VStr "budapest"; VStr "new york"; VStr "london"])
                        (data m1)).
    { rewrite Hm1. apply Forall_forall.
      intros x (r & Hr & Hxr)%elem_of_flat_map.
      assert (Hlen : length r = 4%nat).
      { rewrite Hc in Hr.
        apply elem_of_app in Hr as [Hr|Hr]; [now apply (cleaned_row_length b)|].
        apply elem_of_app in Hr as [Hr|Hr];
          [now apply (cleaned_row_length l)|now apply (cleaned_row_length n)]. }
      assert (Hloc : cell 3 r ∈ [VStr "budapest"; VStr "new york"; VStr "london"]).
      { rewrite Forall_forall in Hlocs. rewrite Hc in Hr. apply (Hlocs r Hr). }
      apply join_row_elem in Hxr as (t & -> & Ht).
      assert (Hlt : length t = 3%nat).
      { destruct Ht as [->|(g & Hg & _ & ->)]; [done|].
        unfold merge_keep. rewrite bool_decide_eq_true_2 by done.
        unfold data in Hg. apply list_elem_of_fmap in Hg as (p & -> & Hp).
        rewrite Forall_forall in Hdwf. specialize (Hdwf p Hp).
        destruct p.2 as [|v1 [|v2 [|v3 [|v4 [|]]]]]; try discriminate. done. }
      split; [rewrite length_app; lia|].
      rewrite cell_app_l by lia. done. }
    rewrite Ho. change (data bars_frame) with bars_data.
    assert (Hall : Forall (fun y => exists x k,
                       y = x ++ [VInt k] /\ length x = 7%nat /\
                       [VInt k; cell 3 x] ∈ bars_data)
                     (flat_map (join_row "location" "location" 3 1 1 bars_data)
                               (data m1))).
    { apply Forall_forall. intros y (x & Hxin & Hy)%elem_of_flat_map.
      rewrite Forall_forall in Hx. destruct (Hx x Hxin) as [Hlen Hloc].
      destruct (join_bars_row x Hloc) as (k & Hk & Hj). rewrite Hj in Hy.
      apply list_elem_of_singleton in Hy. subst y. eauto. }
    rewrite Hoc. clear -Hall. revert Hall. generalize 1.
    induction (flat_map _ _) as [|y ys IH]; intros q Hall; simpl;
      [constructor|].
    apply Forall_cons in Hall as [(x & k & -> & Hlen & Hk) Hall].
    constructor; [|auto].
    exists k.
    destruct x as [|v1 [|v2 [|v3 [|v4 [|v5 [|v6 [|v7 [|]]]]]]]];
      try discriminate.
    split; [reflexivity|exact Hk].
Qed.

Lemma every_order_gets_its_bar_id_witness :
  exists c m1 o,
    build_orders_dataframe 0 1 2 3 4 sample_store
    = OK ((length sample_store + 2)%nat, sample_store ++ [c; m1; o]) /\
    get_column o "order_id" = OK (keys (len o)) /\
    Forall (fun p => exists k,
              field (columns o) "bar_id" p = VInt k /\
              [VInt k; field (columns o) "location" p] ∈ bars_data)
           (data o).
Proof.
  apply (every_order_gets_its_bar_id sample_store 0 1 2 3 4
           sample_drinks sample_budapest sample_london sample_ny);
    try reflexivity; try (split; [reflexivity|repeat constructor]).
  - repeat constructor.
  - repeat constructor; compute_done.
Defined.

(** ** Edges of the stock parser *)

Lemma first_token_whole s :
  all_chars (fun c => negb (bool_decide (c = " "%char))) s = true ->
  first_token s = s.
Proof.
  induction s as [|c s IH]; simpl; [done|].
  intros H. apply andb_true_iff in H as [Hc Hs].
  destruct (bool_decide (c = " "%char)); [done|]. now rewrite IH.
Qed.

(** X16.  Edges of the stock parser.  A stock string that begins with a
    space raises ValueError whatever follows, its first piece being empty
    (although [int] would have skipped the space).  A stock string that is
    a number and nothing else is that number.  A stock cell that is not a
    string raises AttributeError. *)
Theorem parse_stock_edges :
  (forall s, parse_stock (VStr (String " " s)) = Raise ValueError) /\
  (forall z, parse_stock (VStr (string_of_Z z)) = OK (VInt z)) /\
  (forall v, is_str v = false -> parse_stock v = Raise AttributeError).
Proof.
  split; [|split].
  - intros s. reflexivity.
  - intros z. unfold parse_stock.
    rewrite first_token_whole by apply string_of_Z_no_space.
    now rewrite int_of_string_of_Z.
  - intros [| | |s]; done.
Qed.

Lemma parse_stock_edges_witness :
  parse_stock (VStr " 12 bottles") = Raise ValueError /\
  parse_stock (VStr (string_of_Z 12)) = OK (VInt 12) /\
  parse_stock VNull = Raise AttributeError.
Proof.
  split; [|split].
  - apply (proj1 parse_stock_edges).
  - apply (proj1 (proj2 parse_stock_edges)).
  - apply (proj2 (proj2 parse_stock_edges)). reflexivity.
Defined.

(** ** Tables handed to the builders stay as they are *)

(** X17.  Apart from the Indexer, no function of the script changes a table
    it is given or reads: whenever the orders builder, the inventory
    builder, the glass-id join or the Schema Enforcer returns, the store
    holds every earlier object unchanged, followed by the new tables, the
    last of which is the one returned. *)
Theorem builders_leave_their_inputs_alone
    (fs : string -> option spec_float) (sf : spec_float -> string)
    st df_drinks df_bars df_glasses df_budapest df_london df_ny
    d bars g b l n :
  st !! df_drinks = Some d -> st !! df_bars = Some bars ->
  st !! df_glasses = Some g ->
  st !! df_budapest = Some b -> st !! df_london = Some l ->
  st !! df_ny = Some n ->
  (forall r st',
     build_orders_dataframe df_drinks df_bars df_budapest df_london df_ny st
     = OK (r, st') ->
     exists c m1 o, st' = st ++ [c; m1; o] /\ st' !! r = Some o)
  /\
  (forall csv r st',
     build_inventory_dataframe csv df_bars df_glasses st = OK (r, st') ->
     exists a m1 o, st' = st ++ [a; m1; o] /\ st' !! r = Some o)
  /\
  (forall r st',
     add_glass_id_to_drinks_dataframe df_drinks df_glasses st = OK (r, st') ->
     exists o, st' = st ++ [o] /\ st' !! r = Some o)
  /\
  (forall data_map r st',
     clean_dataframe fs sf df_drinks data_map st = OK (r, st') ->
     exists o, st' = st ++ [o] /\ st' !! r = Some o).
Proof.
  intros Hd Hbars Hg Hb Hl Hn.
  assert (Hlast3 : forall x y z : DataFrame,
            (st ++ [x; y; z]) !! (length st + 2)%nat = Some z).
  { intros x y z. rewrite lookup_app_r by lia.
    now replace (length st + 2 - length st)%nat with 2%nat by lia. }
  split; [|split; [|split]].
  - intros r st'. rewrite (build_orders_run _ _ _ _ _ _ d bars b l n) by done.
    destruct (orders_frames d bars b l n) as [[[c m1] o]|]; [|done].
    intros [= <- <-]. exists c, m1, o. split; [done|apply Hlast3].
  - intros csv r st'. rewrite (build_inventory_run _ _ _ _ bars g) by done.
    destruct (inventory_frames csv bars g) as [[[a m1] o]|]; [|done].
    intros [= <- <-]. exists a, m1, o. split; [done|apply Hlast3].
  - intros r st'. rewrite (add_glass_id_run _ _ _ d g) by done.
    destruct (drinks_with_glass_id d g) as [o|]; [|done].
    intros [= <- <-]. exists o. split; [done|apply lookup_last].
  - intros [dts ic] r st'. rewrite (clean_dataframe_run fs sf _ _ d) by done.
    destruct (rbind _ _) as [o|]; [|done].
    intros [= <- <-]. exists o. split; [done|apply lookup_last].
Qed.

Lemma builders_leave_their_inputs_alone_witness :
  (forall r st',
     build_orders_dataframe 0 1 2 3 4 (sample_store ++ [sample_glasses])
     = OK (r, st') ->
     exists c m1 o, st' = (sample_store ++ [sample_glasses]) ++ [c; m1; o] /\
                    st' !! r = Some o)
  /\
  (forall csv r st',
     build_inventory_dataframe csv 1 5 (sample_store ++ [sample_glasses])
     = OK (r, st') ->
     exists a m1 o, st' = (sample_store ++ [sample_glasses]) ++ [a; m1; o] /\
                    st' !! r = Some o)
  /\
  (forall r st',
     add_glass_id_to_drinks_dataframe 0 5 (sample_store ++ [sample_glasses])
     = OK (r, st') ->
     exists o, st' = (sample_store ++ [sample_glasses]) ++ [o] /\
               st' !! r = Some o)
  /\
  (forall data_map r st',
     clean_dataframe no_float_text float_as_text 0 data_map
       (sample_store ++ [sample_glasses]) = OK (r, st') ->
     exists o, st' = (sample_store ++ [sample_glasses]) ++ [o] /\
               st' !! r = Some o).
Proof.
  apply (builders_leave_their_inputs_alone no_float_text float_as_text
           (sample_store ++ [sample_glasses]) 0 1 5 2 3 4
           sample_drinks bars_frame sample_glasses sample_budapest
           sample_london sample_ny); reflexivity.
Defined.

(** ** The script *)





Lemma lookup_last3 (s : list DataFrame) x y z :
  (s ++ [x; y; z]) !! (length s + 2)%nat = Some z.
Proof.
  rewrite lookup_app_r by lia.
  now replace (length s + 2 - length s)%nat with 2%nat by lia.
Qed.



(** The run on the sample files: with known drinks only it returns the five
    tables, the orders among them; with the order of tap water it ends in
    the ValueError of the Schema Enforcer. *)
Example orders_of_the_sample_run :
  match main sample_catalog two_dates no_float_text float_as_text
             small_inventory_csv budapest_orders_csv london_orders_csv
             ny_orders_csv [] with
  | OK (t, st') => data <$> st' !! t_orders t
  | Raise _ => None
  end
  = Some [[VInt 1; VStr "2021-03-04 18:30:00"; VInt 2; VInt 1;
           VFloat two_as_float];
          [VInt 2; VStr "2021-03-04 18:30:00"; VInt 1; VInt 1;
           VFloat three_halves];
          [VInt 3; VStr "2021-03-04 18:30:00"; VInt 3; VInt 3;
           VFloat (S754_finite false 4503599627370496 (-52))];
          [VInt 4; VStr "2021-03-04 18:30:00"; VInt 2; VInt 2;
           VFloat (S754_finite false 6755399441055744 (-51))]].
Proof. vm_compute. reflexivity. Qed.

Example the_run_with_tap_water :
  main sample_catalog two_dates no_float_text float_as_text
       small_inventory_csv budapest_orders_csv london_orders_csv
       sample_orders_csv []
  = Raise ValueError.
Proof. vm_compute. reflexivity. Qed.

(** ** An inventory line of an unknown glass *)

Lemma bars_row_width g : g ∈ bars_data -> length g = 2%nat.
Proof.
  intros Hg. unfold bars_data in Hg.
  repeat (apply elem_of_cons in Hg as [->|Hg]; [reflexivity|]).
  by apply elem_of_nil in Hg.
Qed.

(** X19.  An inventory line whose glass type, once corrected, is the name
    of no glass stops the run in the same way: the inventory builder
    returns a table in which the line has a null [glass_id], and the Schema
    Enforcer, which casts [glass_id] to an integer under INVENTORY_MAP,
    raises ValueError or OverflowError on that table. *)
Theorem unknown_glass_stops_the_enforcer
    (fs : string -> option spec_float) (sf : spec_float -> string)
    st csv df_bars df_glasses glasses a0 a ib ig names r :
  st !! df_bars = Some bars_frame -> st !! df_glasses = Some glasses ->
  columns glasses = glasses_columns ->
  (forall c, c ∈ columns csv ->
             c ∉ ["bar_id"; "location"; "glass_id"; "glass_name";
                  "inventory_id"]) ->
  col_pos "bar" (columns csv) = Some ib ->
  col_pos "glass_type" (columns csv) = Some ig ->
  Forall (fun p : Z * list value => length p.2 = length (columns csv)) (rows csv) ->
  apply_column "stock" parse_stock csv = OK a0 ->
  apply_column "glass_type" fix_glass_type a0 = OK a ->
  get_column glasses "glass_name" = OK names ->
  r ∈ data a -> cell ig r ∉ names ->
  exists df_inventory st',
    build_inventory_dataframe csv df_bars df_glasses st
    = OK (df_inventory, st') /\
    exists e, clean_dataframe fs sf df_inventory INVENTORY_MAP st' = Raise e /\
              coercion_error e.
Proof.
  intros Hbars Hglasses Hgc Hdis Hib Hig Hwf Ha0 Ha Hnames Hr Hno.
  destruct (inventory_frames_ok csv bars_frame glasses a0 a ib ig
              eq_refl Hgc Hdis Hib Hig Ha0 Ha)
    as (m1 & o & Hrun & Hca & Hm1 & Ho & Hoc).
  exists (length st + 2)%nat, (st ++ [a; m1; o]). split.
  { rewrite (build_inventory_run st csv _ _ bars_frame glasses) by done.
    now rewrite Hrun. }
  rewrite (get_column_at glasses "glass_name" 1) in Hnames by now rewrite Hgc.
  injection Hnames as <-.
  set (n := length (columns csv)).
  assert (Hlen : length r = n).
  { pose proof (apply_column_lengths _ _ _ _ _ Ha
                  (apply_column_lengths _ _ _ _ _ Ha0 Hwf)) as Hwa.
    unfold data in Hr. apply list_elem_of_fmap in Hr as (p & -> & Hp).
    rewrite Forall_forall in Hwa. now apply Hwa. }
  (* the row the line leaves in the inventory table *)
  destruct (join_row_some "bar" "location" ib 1 2 (data bars_frame) r) as [t Ht].
  assert (Hx : r ++ t ∈ data m1)
    by (rewrite Hm1; apply elem_of_flat_map; eauto).
  assert (Ht2 : length t = 2%nat).
  { apply join_row_elem in Ht as (t' & Heq & Ht').
    apply app_inv_head in Heq. subst t'.
    destruct Ht' as [->|(g & Hg & _ & ->)]; [done|].
    unfold merge_keep. rewrite bool_decide_eq_false_2 by done.
    now apply bars_row_width. }
  assert (Hig_lt : (ig < n)%nat) by now apply col_pos_lt in Hig.
  assert (Hy : (r ++ t) ++ replicate 2 VNull
               ∈ flat_map (join_row "glass_type" "glass_name" ig 1 2
                             (data glasses)) (data m1)).
  { apply elem_of_flat_map. exists (r ++ t). split; [done|].
    rewrite join_row_unmatched; [left|].
    rewrite cell_app_l by lia. exact Hno. }
  destruct (number_from_elem 1 _ _ Hy) as [q Hq]. rewrite <- Ho in Hq.
  unfold data in Hq. apply list_elem_of_fmap in Hq as (p & Hp2 & Hp).
  (* the columns of the inventory table *)
  set (f := fun c : string =>
              if bool_decide (c = "stock") then "number_in_stock" else c)
    in Hoc.
  assert (Hf : forall c, c ∈ columns csv -> f c ∈ columns o).
  { intros c Hc. rewrite Hoc. right. rewrite !map_app.
    apply elem_of_app. left. apply elem_of_app. left.
    apply list_elem_of_fmap. eauto. }
  assert (Hstock : "stock" ∈ columns csv).
  { apply apply_column_inv in Ha0 as (js & Hjs & _). eapply col_pos_elem; eauto. }
  assert (Hfresh : "glass_id" ∉ map f (columns csv) ++ map f bars_columns).
  { intros [Hin|Hin]%elem_of_app.
    - apply list_elem_of_fmap in Hin as (c & Hc & Hin). unfold f in Hc.
      case_bool_decide; [done|]. subst c. apply (Hdis _ Hin). do 2 right. left.
    - vm_compute in Hin.
      repeat (inversion Hin as [|? ? ? Hin']; subst; clear Hin;
              rename Hin' into Hin). }
  assert (Hpos : col_pos "glass_id" (columns o) = Some (S (n + 2 + 0))).
  { rewrite Hoc. cbn [col_pos]. rewrite bool_decide_eq_false_2 by done.
    rewrite !map_app.
    rewrite (col_pos_app_r "glass_id" _ (map f glasses_columns) 0 Hfresh eq_refl).
    rewrite length_app, !length_map. reflexivity. }
  assert (Lo : (st ++ [a; m1; o]) !! (length st + 2)%nat = Some o)
    by apply lookup_last3.
  apply (clean_dataframe_fails fs sf _ _ o (datatypes INVENTORY_MAP)
           (index_column INVENTORY_MAP) p "glass_id" Int ValueError Lo).
  - compute_done.
  - intros c Hc. cbn [INVENTORY_MAP datatypes map fst] in Hc.
    apply elem_of_cons in Hc as [->|Hc]; [rewrite Hoc; left|].
    apply elem_of_cons in Hc as [->|Hc];
      [rewrite Hoc; right; rewrite !map_app; apply elem_of_app; right;
       compute_done|].
    apply elem_of_cons in Hc as [->|Hc]; [exact (Hf "stock" Hstock)|].
    apply elem_of_cons in Hc as [->|Hc];
      [rewrite Hoc; right; rewrite !map_app; apply elem_of_app; left;
       apply elem_of_app; right; compute_done|].
    by apply elem_of_nil in Hc.
  - exact Hp.
  - right. left.
  - unfold field. rewrite Hpos, <- Hp2. unfold cell at 1. cbn [nth].
    fold (cell (n + 2 + 0) ((r ++ t) ++ replicate 2 VNull)).
    replace (n + 2 + 0)%nat with (length (r ++ t) + 0)%nat
      by (rewrite length_app; lia).
    rewrite cell_app_r. reflexivity.
Qed.

Lemma unknown_glass_stops_the_enforcer_witness :
  exists df_inventory st',
    build_inventory_dataframe flute_csv 1 5 (sample_store ++ [sample_glasses])
    = OK (df_inventory, st') /\
    exists e,
      clean_dataframe no_float_text float_as_text df_inventory INVENTORY_MAP st'
      = Raise e /\
      coercion_error e.
Proof.
  apply (unknown_glass_stops_the_enforcer no_float_text float_as_text
           (sample_store ++ [sample_glasses]) flute_csv 1 5
           sample_glasses flute_csv_parsed flute_csv_parsed 2 0
           [VStr "copper mug"; VStr "highball glass"]
           [VStr "champagne flute"; VInt 4; VStr "london"]);
    try reflexivity.
  - intros c Hc. vm_compute in Hc.
    repeat (inversion Hc as [|? ? ? Hc']; subst; clear Hc;
            [compute_done|rename Hc' into Hc]).
    inversion Hc.
  - repeat constructor.
  - right. left.
  - compute_done.
Defined.

Example the_flute_stops_the_enforcer :
  (df <- build_inventory_dataframe flute_csv 1 5 ;;
   clean_dataframe no_float_text float_as_text df INVENTORY_MAP)
    (sample_store ++ [sample_glasses])
  = Raise ValueError.
Proof. vm_compute. reflexivity. Qed.

(** ** The keys of the cleaned orders table *)

Lemma number_from_inv k rs y :
  y ∈ number_from k rs -> exists q x, y = VInt q :: x /\ x ∈ rs.
Proof.
  revert k. induction rs as [|r rs IH]; intros k; simpl.
  - intros []%elem_of_nil.
  - intros [->|Hy]%elem_of_cons.
    + exists k, r. split; [done|left].
    + destruct (IH _ Hy) as (q & x & -> & Hx). exists q, x.
      split; [done|now right].
Qed.

(** The shape of a row of the orders table: its number, the four cells of
    the order, three cells from the drinks and one from the bars. *)
Lemma orders_row_shape d b l n m1 o y :
  cleaned_orders b -> cleaned_orders l -> cleaned_orders n ->
  Forall (fun p : Z * list value => length p.2 = 4%nat) (rows d) ->
  data m1 = flat_map (join_row "drink_name" "drink_name" 1 2 3 (data d))
                     (data b ++ data l ++ data n) ->
  data o = number_from 1
             (flat_map (join_row "location" "location" 3 1 1 bars_data)
                       (data m1)) ->
  y ∈ data o ->
  exists q v1 v2 v3 v4 t1 t2 t3 u,
    y = [VInt q; v1; v2; v3; v4; t1; t2; t3; u] /\
    (t1 = VNull \/ exists g, g ∈ data d /\ t1 = cell 0 g) /\
    (u = VNull \/ exists g, g ∈ bars_data /\ u = cell 0 g).
Proof.
  intros Cb Cl Cn Hdwf Hm1 Ho Hy.
  rewrite Ho in Hy. apply number_from_inv in Hy as (q & x' & -> & Hx').
  apply elem_of_flat_map in Hx' as (x & Hx & Hx').
  apply join_row_elem in Hx' as (t' & -> & Ht').
  rewrite Hm1 in Hx. apply elem_of_flat_map in Hx as (r & Hr & Hx).
  apply join_row_elem in Hx as (t & -> & Ht).
  assert (Hlen : length r = 4%nat).
  { apply elem_of_app in Hr as [Hr|Hr]; [now apply (cleaned_row_length b)|].
    apply elem_of_app in Hr as [Hr|Hr];
      [now apply (cleaned_row_length l)|now apply (cleaned_row_length n)]. }
  destruct r as [|v1 [|v2 [|v3 [|v4 [|]]]]]; try discriminate.
  assert (Ht3 : exists t1 t2 t3,
             t = [t1; t2; t3] /\
             (t1 = VNull \/ exists g, g ∈ data d /\ t1 = cell 0 g)).
  { destruct Ht as [->|(g & Hg & _ & ->)].
    - exists VNull, VNull, VNull. split; [done|now left].
    - unfold merge_keep. rewrite bool_decide_eq_true_2 by done.
      assert (Hg4 : length g = 4%nat).
      { unfold data in Hg. apply list_elem_of_fmap in Hg as (p & -> & Hp).
        rewrite Forall_forall in Hdwf. now apply Hdwf. }
      destruct g as [|g0 [|g1 [|g2 [|g3 [|]]]]]; try discriminate.
      exists g0, g1, g3. split; [done|]. right. eauto. }
  destruct Ht3 as (t1 & t2 & t3 & -> & Ht1).
  assert (Hu : exists u, t' = [u] /\
                         (u = VNull \/ exists g, g ∈ bars_data /\ u = cell 0 g)).
  { destruct Ht' as [->|(g & Hg & _ & ->)].
    - exists VNull. split; [done|now left].
    - unfold merge_keep. rewrite bool_decide_eq_true_2 by done.
      pose proof (bars_row_width g Hg) as Hg2.
      destruct g as [|g0 [|g1 [|]]]; try discriminate.
      exists g0. split; [done|]. right. eauto. }
  destruct Hu as (u & -> & Hu).
  exists q, v1, v2, v3, v4, t1, t2, t3, u. done.
Qed.

Lemma astype_Int_of_int fs sf z v :
  astype fs sf Int (VInt z) = OK v -> v = VInt z.
Proof. simpl. destruct (in_int64 z); [now intros [= <-]|done]. Qed.

(** X20.  The foreign keys of the cleaned orders table point at rows.  The
    orders builder followed by the Schema Enforcer under ORDERS_MAP either
    raises ValueError or OverflowError, or returns a table with the columns
    order_id, order_datetime, drink_id, bar_id, order_amount in which every
    [drink_id] is one of the keys 1 .. N of the drinks table and every
    [bar_id] is 1, 2 or 3. *)
Theorem cleaned_orders_point_at_drinks_and_bars
    (fs : string -> option spec_float) (sf : spec_float -> string)
    st df_drinks df_bars df_budapest df_london df_ny d b l n :
  st !! df_drinks = Some d -> st !! df_bars = Some bars_frame ->
  st !! df_budapest = Some b -> st !! df_london = Some l ->
  st !! df_ny = Some n ->
  cleaned_orders b -> cleaned_orders l -> cleaned_orders n ->
  columns d = drinks_columns ->
  Forall (fun p : Z * list value => length p.2 = 4%nat) (rows d) ->
  get_column d "drink_id" = OK (keys (len d)) ->
  match (df_orders <- build_orders_dataframe df_drinks df_bars
                        df_budapest df_london df_ny ;;
         clean_dataframe fs sf df_orders ORDERS_MAP) st with
  | OK (r, st') =>
      exists out,
        st' !! r = Some out /\
        columns out = ["order_id"; "order_datetime"; "drink_id"; "bar_id";
                       "order_amount"] /\
        Forall (fun p =>
                  field (columns out) "drink_id" p ∈ keys (len d) /\
                  field (columns out) "bar_id" p ∈ [VInt 1; VInt 2; VInt 3])
               (data out)
  | Raise e => coercion_error e
  end.
Proof.
  intros Hd Hbars Hb Hl Hn Cb Cl Cn Hdc Hdwf Hkeys.
  destruct (orders_frames_ok d bars_frame b l n Cb Cl Cn Hdc eq_refl)
    as (c & m1 & o & Hrun & Hc & Hm1 & Hoc & Ho).
  rewrite Hc in Hm1. change (data bars_frame) with bars_data in Ho.
  unfold bind at 1.
  rewrite (build_orders_run _ _ _ _ _ _ d bars_frame b l n) by done.
  rewrite Hrun.
  assert (Lo : (st ++ [c; m1; o]) !! (length st + 2)%nat = Some o)
    by apply lookup_last3.
  pose proof (clean_dataframe_rows fs sf _ _ o (datatypes ORDERS_MAP)
                (index_column ORDERS_MAP) Lo) as H.
  change (mkMap (datatypes ORDERS_MAP) (index_column ORDERS_MAP))
    with ORDERS_MAP in H.
  assert (Hnd : NoDup (map fst (datatypes ORDERS_MAP))) by compute_done.
  assert (Hcols : forall c0, c0 ∈ map fst (datatypes ORDERS_MAP) ->
                             c0 ∈ columns o).
  { rewrite Hoc. intros c0 Hc0. vm_compute in Hc0.
    repeat (inversion Hc0 as [|? ? ? Hc0']; subst; clear Hc0;
            [compute_done|rename Hc0' into Hc0]).
    inversion Hc0. }
  specialize (H Hnd Hcols).
  destruct (mapM _ (rows o)) as [rs|e0] eqn:Hrs;
    [|destruct H as (e & -> & He); exact He].
  rewrite H. eexists. split; [apply lookup_last|]. split; [reflexivity|].
  cbn [columns]. unfold data at 1. cbn [rows].
  rewrite (get_column_at d "drink_id" 0) in Hkeys by now rewrite Hdc.
  injection Hkeys as Hkeys.
  apply Forall_forall. intros y (p' & -> & [k Hk]%list_elem_of_lookup)
                                 %list_elem_of_fmap.
  apply mapM_Forall2 in Hrs.
  destruct (Forall2_lookup_r _ _ _ _ _ Hrs Hk) as (p & Hpk & Hp).
  assert (Hy : p.2 ∈ data o).
  { unfold data. apply list_elem_of_fmap. exists p. split; [done|].
    apply list_elem_of_lookup. eauto. }
  destruct (orders_row_shape d b l n m1 o p.2 Cb Cl Cn Hdwf Hm1 Ho Hy)
    as (q & v1 & v2 & v3 & v4 & t1 & t2 & t3 & u & Hshape & Ht1 & Hu).
  unfold enforce_row in Hp.
  destruct (mapM _ (datatypes ORDERS_MAP)) as [cells|] eqn:Hcells; [|done].
  injection Hp as <-. cbn [snd].
  apply mapM_Forall2 in Hcells. rewrite Hoc, Hshape in Hcells.
  unfold ORDERS_MAP in Hcells. cbn [datatypes] in Hcells.
  inversion Hcells as [|? c1 ? cells1 _ Hcells1]; subst; clear Hcells.
  inversion Hcells1 as [|? c2 ? cells2 _ Hcells2]; subst; clear Hcells1.
  inversion Hcells2 as [|? c3 ? cells3 H3 Hcells3]; subst; clear Hcells2.
  inversion Hcells3 as [|? c4 ? cells4 H4 Hcells4]; subst; clear Hcells3.
  inversion Hcells4 as [|? c5 ? cells5 _ Hcells5]; subst; clear Hcells4.
  inversion Hcells5; subst; clear Hcells5.
  change (field _ "drink_id" [c1; c2; c3; c4; c5]) with c3.
  change (field _ "bar_id" [c1; c2; c3; c4; c5]) with c4.
  cbn [fst snd] in H3, H4.
  change (field _ "drink_id" _) with t1 in H3.
  change (field _ "bar_id" _) with u in H4.
  split.
  - destruct Ht1 as [->|(g & Hg & ->)]; [done|].
    assert (Hin : cell 0 g ∈ keys (len d)).
    { rewrite <- Hkeys. apply list_elem_of_fmap. eauto. }
    pose proof Hin as (i & Hi & _)%list_elem_of_fmap.
    rewrite Hi in H3. apply astype_Int_of_int in H3. subst c3.
    now rewrite <- Hi.
  - destruct Hu as [->|(g & Hg & ->)]; [done|].
    unfold bars_data in Hg.
    repeat (apply elem_of_cons in Hg as [->|Hg];
            [apply astype_Int_of_int in H4; subst c4; compute_done|]).
    by apply elem_of_nil in Hg.
Qed.

Lemma cleaned_orders_point_at_drinks_and_bars_witness :
  match (df_orders <- build_orders_dataframe 0 1 2 3 4 ;;
         clean_dataframe no_float_text float_as_text df_orders ORDERS_MAP)
          known_store with
  | OK (r, st') =>
      exists out,
        st' !! r = Some out /\
        columns out = ["order_id"; "order_datetime"; "drink_id"; "bar_id";
                       "order_amount"] /\
        Forall (fun p =>
                  field (columns out) "drink_id" p ∈ keys (len sample_drinks) /\
                  field (columns out) "bar_id" p ∈ [VInt 1; VInt 2; VInt 3])
               (data out)
  | Raise e => coercion_error e
  end.
Proof.
  apply (cleaned_orders_point_at_drinks_and_bars no_float_text float_as_text
           known_store 0 1 2 3 4
           sample_drinks known_budapest sample_london sample_ny);
    try reflexivity; try (split; [reflexivity|repeat constructor]).
  repeat constructor.
Defined.

Example cleaned_orders_of_the_known_store :
  match (df_orders <- build_orders_dataframe 0 1 2 3 4 ;;
         clean_dataframe no_float_text float_as_text df_orders ORDERS_MAP)
          known_store with
  | OK (r, st') => data <$> st' !! r
  | Raise _ => None
  end
  = Some [[VInt 1; VStr "2021-03-04 18:30:00"; VInt 1; VInt 1;
           VFloat three_halves];
          [VInt 2; VStr "2021-03-04 18:30:00"; VInt 2; VInt 1;
           VFloat three_halves];
          [VInt 3; VStr "2021-03-04 18:30:00"; VInt 2; VInt 3;
           VFloat three_halves]].
Proof. vm_compute. reflexivity. Qed.
